(** * Weather / traffic data pipeline: generator, cleaner and merge

    A shallow embedding of the three core stages of the repository

    - [Data Generation/weather_data_generator.py] and
      [Data Generation/traffic_data_generator.py] (synthetic raw data),
    - [Phase 2/Data Cleaning.py] (bronze to silver),
    - [Phase 4/Data Merge.py] (silver to gold),

    followed by the properties of the pipeline that are proved about it.
    The first part of the file holds the definitions, the second part the
    lemmas and theorems. *)

From Stdlib Require Import ZArith QArith Qcanon Lia Ascii String SpecFloat.
From stdpp Require Import base decidable option strings numbers list.

#[global] Set Warnings "-clear-no-such-hyp".

Open Scope Z_scope.

(* ===================================================================== *)
(** * Part I: definitions                                                 *)
(* ===================================================================== *)

(** ** Values held by a pandas DataFrame *)

Module Pandas.

(** A [float64] element that is not NaN: a rational (every finite double
    is one) or one of the two infinities.  NaN is the missing value and
    is the [NA] cell below. *)
Inductive float64 := NegInf | Finite (q : Qc) | PosInf.

#[global] Instance float64_eq_dec : EqDecision float64.
Proof. solve_decision. Defined.

Definition f64_leb (x y : float64) : bool :=
  match x, y with
  | NegInf, _ => true
  | _, PosInf => true
  | Finite a, Finite b => bool_decide (a ≤ b)%Qc
  | _, _ => false
  end.

Definition f64_ltb (x y : float64) : bool := negb (f64_leb y x).

Definition of_Z (n : Z) : float64 := Finite (Qc_of_Z n).

(** One DataFrame element.  [NA] is NaN / None / NaT, [Time t] a
    [Timestamp] given in nanoseconds since the epoch. *)
Inductive cell :=
| NA
| Num (x : float64)
| Str (s : string)
| Time (t : Z).

#[global] Instance cell_eq_dec : EqDecision cell.
Proof. solve_decision. Defined.

Definition isna (c : cell) : bool :=
  match c with NA => true | _ => false end.

Definition notna (c : cell) : bool := negb (isna c).

(** [Series.clip(lower, upper)] on one element of a float64 column;
    NaN stays NaN. *)
Definition clamp (lower upper x : float64) : float64 :=
  if f64_ltb x lower then lower
  else if f64_ltb upper x then upper
  else x.

Definition clip_cell (lower upper : Z) (c : cell) : cell :=
  match c with
  | Num x => Num (clamp (of_Z lower) (of_Z upper) x)
  | _ => c
  end.

Definition clip (lower upper : Z) (s : list cell) : list cell :=
  clip_cell lower upper <$> s.

(** The parsers of the library, left as an interface: how a string is
    read as a number ([pd.to_numeric]) and how a column is read as
    timestamps ([pd.to_datetime], which may choose the format from the
    column as a whole).  A timestamp is an instant; whether the column
    that [pd.to_datetime] makes of a column of text is time zone aware
    (dtype [datetime64[ns, UTC]], as for text written with a final [Z])
    or naive ([datetime64[ns]]) is [parse_aware]. *)
Class Parsers := {
  parse_float : string → option float64;
  parse_datetimes : list cell → list (option Z);
  parse_aware : list cell → bool
}.

Definition datetime_typed (c : cell) : Prop :=
  match c with NA | Time _ => True | _ => False end.

#[global] Instance datetime_typed_dec c : Decision (datetime_typed c).
Proof. destruct c; simpl; apply _. Defined.

Definition as_datetime (c : cell) : option Z :=
  match c with Time t => Some t | _ => None end.

Definition of_datetime (o : option Z) : cell :=
  match o with Some t => Time t | None => NA end.

(** What the library promises about [parse_datetimes]: one result per
    element, and a column that already holds timestamps is returned as
    it is. *)
Class ParsersLaws (P : Parsers) : Prop := {
  parse_datetimes_length col :
    length (parse_datetimes col) = length col;
  parse_datetimes_typed col :
    Forall datetime_typed col → parse_datetimes col = as_datetime <$> col
}.

Section with_parsers.
Context `{P : Parsers}.

(** [pd.to_numeric(s, errors='coerce')] *)
Definition to_numeric_cell (c : cell) : cell :=
  match c with
  | Num x => Num x
  | Str s => match parse_float s with Some x => Num x | None => NA end
  | NA | Time _ => NA
  end.

Definition to_numeric (s : list cell) : list cell :=
  to_numeric_cell <$> s.

(** [pd.to_datetime(s, errors='coerce')] *)
Definition to_datetime_coerce (s : list cell) : list cell :=
  of_datetime <$> parse_datetimes s.

(** [pd.to_datetime(s)]: raises when an element that is not null
    cannot be read. *)
Definition unreadable (c : cell) (o : option Z) : bool :=
  notna c && bool_decide (o = None).

Definition to_datetime (s : list cell) : option (list cell) :=
  let parsed := parse_datetimes s in
  if existsb (λ co, unreadable co.1 co.2) (zip s parsed)
  then None
  else Some (of_datetime <$> parsed).
End with_parsers.

(** [Series.dt.floor('H')] *)
Definition ns_per_hour : Z := 3600000000000.

Definition floor_H_cell (c : cell) : cell :=
  match c with
  | Time t => Time (t - t `mod` ns_per_hour)
  | _ => c
  end.

Definition dt_floor_H (s : list cell) : list cell := floor_H_cell <$> s.

End Pandas.

(** ** The Gregorian calendar behind [Timestamp.month] and [datetime] *)

Module Calendar.

(** Days since 1970-01-01 of the civil date [y]-[m]-[d]. *)
Definition days_from_civil (y m d : Z) : Z :=
  let y := if m <=? 2 then y - 1 else y in
  let era := y / 400 in
  let yoe := y - era * 400 in
  let mp := if 2 <? m then m - 3 else m + 9 in
  let doy := (153 * mp + 2) / 5 + d - 1 in
  let doe := yoe * 365 + yoe / 4 - yoe / 100 + doy in
  era * 146097 + doe - 719468.

(** The civil date (year, month, day) of a day count since 1970-01-01. *)
Definition civil_from_days (z : Z) : Z * Z * Z :=
  let z := z + 719468 in
  let era := z / 146097 in
  let doe := z - era * 146097 in
  let yoe := (doe - doe / 1460 + doe / 36524 - doe / 146096) / 365 in
  let y := yoe + era * 400 in
  let doy := doe - (365 * yoe + yoe / 4 - yoe / 100) in
  let mp := (5 * doy + 2) / 153 in
  let d := doy - (153 * mp + 2) / 5 + 1 in
  let m := if mp <? 10 then mp + 3 else mp - 9 in
  (if m <=? 2 then y + 1 else y, m, d).

Definition ns_per_day : Z := 86400000000000.

(** [Timestamp.month] of a timestamp in nanoseconds since the epoch. *)
Definition month_of_ns (t : Z) : Z :=
  let '(_, m, _) := civil_from_days (t / ns_per_day) in m.

End Calendar.

(** ** A state monad for the code that draws from a global random stream *)

Definition State (S A : Type) : Type := S → A * S.

Definition ret {S A} (a : A) : State S A := λ s, (a, s).

Definition bind {S A B} (m : State S A) (k : A → State S B) : State S B :=
  λ s, let '(a, s') := m s in k a s'.

Declare Scope state_scope.
Delimit Scope state_scope with state.
Notation "'let*' x ':=' m 'in' k" := (bind m (λ x, k))
  (at level 10, x name, m at level 100, k at level 200) : state_scope.

(** [Series.apply(f)]: [f] is called on the elements in order. *)
Fixpoint series_apply {S A B} (f : A → State S B) (l : list A)
  : State S (list B) :=
  match l with
  | [] => ret []
  | x :: l' =>
      (let* y := f x in
       let* ys := series_apply f l' in
       ret (y :: ys))%state
  end.

(** ** numpy's global random stream

    The stream is the sequence of raw draws it is going to deliver, and
    the position of the next one.  No script of the repository seeds it:
    a process starts with the stream that the entropy of the system gives
    it. *)

Module NumpyRandom.

Record RandomState := { tape : nat → N; pos : nat }.

Definition draw : State RandomState N :=
  λ st, (tape st (pos st), {| tape := tape st; pos := S (pos st) |}).

(** [np.random.choice(a)] for a non-empty list of labels. *)
Definition choice (a : list string) : State RandomState string :=
  (let* k := draw in
   ret (nth (N.to_nat (k mod N.of_nat (length a))) a EmptyString))%state.

End NumpyRandom.

(** ** DataFrames with a fixed schema

    The rows of a frame read from a file with known headers. *)

Class Schema (col row : Type) := {
  get : col → row → Pandas.cell;
  set : col → Pandas.cell → row → row;
  row_eq_dec :: EqDecision row
}.

Module Frame.
Import Pandas.

Section with_schema.
Context {col row : Type} `{Sch : Schema col row}.

(** [df[c]] *)
Definition series (c : col) (df : list row) : list cell :=
  get c <$> df.

(** [df[c] = s]: the values are aligned on the index; a row without a
    value gets NaN. *)
Fixpoint assign (c : col) (s : list cell) (df : list row) : list row :=
  match df with
  | [] => []
  | r :: df' =>
      match s with
      | [] => set c NA r :: assign c [] df'
      | v :: s' => set c v r :: assign c s' df'
      end
  end.

(** [df[c] = f(df[c])] *)
Definition update (c : col) (f : list cell → list cell) (df : list row)
  : list row :=
  assign c (f (series c df)) df.

(** [df[c] = v] for a scalar [v] *)
Definition assign_scalar (c : col) (v : cell) (df : list row) : list row :=
  set c v <$> df.

(** [df.drop_duplicates()]: the first occurrence of a row is kept. *)
Fixpoint drop_duplicates_from (seen : list row) (df : list row) : list row :=
  match df with
  | [] => []
  | r :: df' =>
      if decide (r ∈ seen) then drop_duplicates_from seen df'
      else r :: drop_duplicates_from (r :: seen) df'
  end.

Definition drop_duplicates (df : list row) : list row :=
  drop_duplicates_from [] df.

(** [df.dropna(subset=cs)] *)
Definition complete (cs : list col) (r : row) : Prop :=
  Forall (λ c, get c r ≠ NA) cs.

#[global] Instance complete_dec cs r : Decision (complete cs r).
Proof. unfold complete. apply _. Defined.

Definition dropna (cs : list col) (df : list row) : list row :=
  filter (complete cs) df.

(** [df.apply(f, axis=1)] for a function without effects *)
Definition frame_apply (f : row → cell) (df : list row) : list cell :=
  f <$> df.

(** [df[c] = df.apply(f, axis=1)] *)
Definition update_rows (c : col) (f : row → cell) (df : list row)
  : list row :=
  assign c (frame_apply f df) df.

(** [df[c] = df[c].apply(f)] for an [f] that draws random numbers *)
Definition update_apply {S} (c : col) (f : cell → State S cell)
  (df : list row) : State S (list row) :=
  (let* s := series_apply f (series c df) in ret (assign c s df))%state.

End with_schema.
End Frame.

(** ** The two raw schemas *)

Module Weather.
Import Pandas.

Inductive column :=
| weather_id | date_time | city | season | temperature_c | humidity
| rain_mm | wind_speed_kmh | visibility_m | weather_condition
| air_pressure_hpa.

#[global] Instance column_eq_dec : EqDecision column.
Proof. solve_decision. Defined.

Definition columns : list column :=
  [weather_id; date_time; city; season; temperature_c; humidity; rain_mm;
   wind_speed_kmh; visibility_m; weather_condition; air_pressure_hpa].

Definition name (c : column) : string :=
  match c with
  | weather_id => "weather_id" | date_time => "date_time" | city => "city"
  | season => "season" | temperature_c => "temperature_c"
  | humidity => "humidity" | rain_mm => "rain_mm"
  | wind_speed_kmh => "wind_speed_kmh" | visibility_m => "visibility_m"
  | weather_condition => "weather_condition"
  | air_pressure_hpa => "air_pressure_hpa"
  end.

(** One value per declared field, in the order of the header. *)
Record row := Row {
  f_weather_id : cell; f_date_time : cell; f_city : cell; f_season : cell;
  f_temperature_c : cell; f_humidity : cell; f_rain_mm : cell;
  f_wind_speed_kmh : cell; f_visibility_m : cell;
  f_weather_condition : cell; f_air_pressure_hpa : cell
}.

#[global] Instance row_eq : EqDecision row.
Proof. solve_decision. Defined.

Definition get_field (c : column) (r : row) : cell :=
  match c with
  | weather_id => f_weather_id r | date_time => f_date_time r
  | city => f_city r | season => f_season r
  | temperature_c => f_temperature_c r | humidity => f_humidity r
  | rain_mm => f_rain_mm r | wind_speed_kmh => f_wind_speed_kmh r
  | visibility_m => f_visibility_m r
  | weather_condition => f_weather_condition r
  | air_pressure_hpa => f_air_pressure_hpa r
  end.

Definition set_field (c : column) (v : cell) (r : row) : row :=
  let 'Row a b d e f g h i j k l := r in
  match c with
  | weather_id => Row v b d e f g h i j k l
  | date_time => Row a v d e f g h i j k l
  | city => Row a b v e f g h i j k l
  | season => Row a b d v f g h i j k l
  | temperature_c => Row a b d e v g h i j k l
  | humidity => Row a b d e f v h i j k l
  | rain_mm => Row a b d e f g v i j k l
  | wind_speed_kmh => Row a b d e f g h v j k l
  | visibility_m => Row a b d e f g h i v k l
  | weather_condition => Row a b d e f g h i j v l
  | air_pressure_hpa => Row a b d e f g h i j k v
  end.

#[global] Instance schema : Schema column row :=
  {| get := get_field; set := set_field |}.

End Weather.

Module Traffic.
Import Pandas.

Inductive column :=
| traffic_id | date_time | city | area | vehicle_count | avg_speed_kmh
| accident_count | congestion_level | road_condition | visibility_m.

#[global] Instance column_eq_dec : EqDecision column.
Proof. solve_decision. Defined.

Definition columns : list column :=
  [traffic_id; date_time; city; area; vehicle_count; avg_speed_kmh;
   accident_count; congestion_level; road_condition; visibility_m].

Definition name (c : column) : string :=
  match c with
  | traffic_id => "traffic_id" | date_time => "date_time" | city => "city"
  | area => "area" | vehicle_count => "vehicle_count"
  | avg_speed_kmh => "avg_speed_kmh" | accident_count => "accident_count"
  | congestion_level => "congestion_level"
  | road_condition => "road_condition" | visibility_m => "visibility_m"
  end.

Record row := Row {
  f_traffic_id : cell; f_date_time : cell; f_city : cell; f_area : cell;
  f_vehicle_count : cell; f_avg_speed_kmh : cell; f_accident_count : cell;
  f_congestion_level : cell; f_road_condition : cell; f_visibility_m : cell
}.

#[global] Instance row_eq : EqDecision row.
Proof. solve_decision. Defined.

Definition get_field (c : column) (r : row) : cell :=
  match c with
  | traffic_id => f_traffic_id r | date_time => f_date_time r
  | city => f_city r | area => f_area r
  | vehicle_count => f_vehicle_count r | avg_speed_kmh => f_avg_speed_kmh r
  | accident_count => f_accident_count r
  | congestion_level => f_congestion_level r
  | road_condition => f_road_condition r | visibility_m => f_visibility_m r
  end.

Definition set_field (c : column) (v : cell) (r : row) : row :=
  let 'Row a b d e f g h i j k := r in
  match c with
  | traffic_id => Row v b d e f g h i j k
  | date_time => Row a v d e f g h i j k
  | city => Row a b v e f g h i j k
  | area => Row a b d v f g h i j k
  | vehicle_count => Row a b d e v g h i j k
  | avg_speed_kmh => Row a b d e f v h i j k
  | accident_count => Row a b d e f g v i j k
  | congestion_level => Row a b d e f g h v j k
  | road_condition => Row a b d e f g h i v k
  | visibility_m => Row a b d e f g h i j v
  end.

#[global] Instance schema : Schema column row :=
  {| get := get_field; set := set_field |}.

End Traffic.

(** ** [Phase 2/Data Cleaning.py] *)

Module Cleaning.
Import Pandas Frame NumpyRandom.

Definition valid_conditions : list string :=
  ["Clear"; "Rain"; "Fog"; "Storm"; "Snow"]%string.

Definition valid_seasons : list string :=
  ["Winter"; "Spring"; "Summer"; "Autumn"]%string.

Definition valid_areas : list string :=
  ["Camden"; "Chelsea"; "Islington"; "Southwark"; "Kensington";
   "Westminster"; "Greenwich"; "Hackney"; "Lambeth"]%string.

Definition valid_congestion : list string := ["Low"; "Medium"; "High"]%string.

Definition valid_road : list string :=
  ["Dry"; "Wet"; "Snowy"; "Damaged"]%string.

(** [lambda x: x if x in valid else np.random.choice(valid)] *)
Definition keep_or_choice (valid : list string) (x : cell)
  : State RandomState cell :=
  if decide (x ∈ Str <$> valid) then ret x
  else (let* v := choice valid in ret (Str v))%state.

Definition get_season (date : cell) : cell :=
  match date with
  | Time t =>
      let month := Calendar.month_of_ns t in
      if bool_decide (month ∈ [12; 1; 2]) then Str "Winter"
      else if bool_decide (month ∈ [3; 4; 5]) then Str "Spring"
      else if bool_decide (month ∈ [6; 7; 8]) then Str "Summer"
      else Str "Autumn"
  | _ => NA
  end.

(** The [lambda row: ...] that fills the season column. *)
Definition season_of_row (row : Weather.row) : cell :=
  if notna (get Weather.season row)
     && bool_decide (get Weather.season row ∈ Str <$> valid_seasons)
  then get Weather.season row
  else get_season (get Weather.date_time row).

Section with_parsers.
Context `{P : Parsers}.

(** Section 1 of [main], the weather frame, up to the removal of the
    rows with missing critical data. *)
Definition repair_weather (weather_df : list Weather.row)
  : State RandomState (list Weather.row) :=
  let weather_df := drop_duplicates weather_df in
  let weather_df := update Weather.date_time to_datetime_coerce weather_df in
  let weather_df := update Weather.temperature_c to_numeric weather_df in
  let weather_df := update Weather.temperature_c (clip (-10) 40) weather_df in
  let weather_df := update Weather.humidity to_numeric weather_df in
  let weather_df := update Weather.humidity (clip 0 100) weather_df in
  let weather_df := update Weather.rain_mm to_numeric weather_df in
  let weather_df := update Weather.rain_mm (clip 0 100) weather_df in
  let weather_df := update Weather.wind_speed_kmh to_numeric weather_df in
  let weather_df := update Weather.wind_speed_kmh (clip 0 150) weather_df in
  let weather_df := update Weather.visibility_m to_numeric weather_df in
  let weather_df := update Weather.visibility_m (clip 50 20000) weather_df in
  let weather_df := update Weather.air_pressure_hpa to_numeric weather_df in
  let weather_df :=
    update Weather.air_pressure_hpa (clip 950 1050) weather_df in
  (let* weather_df :=
     update_apply Weather.weather_condition
       (keep_or_choice valid_conditions) weather_df in
   let weather_df := assign_scalar Weather.city (Str "London") weather_df in
   let weather_df := update_rows Weather.season season_of_row weather_df in
   ret weather_df)%state.

(** Section 1 of [main]: the cleaned weather frame. *)
Definition clean_weather (weather_df : list Weather.row)
  : State RandomState (list Weather.row) :=
  (let* weather_df := repair_weather weather_df in
   ret (dropna [Weather.date_time; Weather.temperature_c] weather_df))%state.

(** Section 2 of [main], the traffic frame, up to the removal of the
    rows with missing critical data. *)
Definition repair_traffic (traffic_df : list Traffic.row)
  : State RandomState (list Traffic.row) :=
  let traffic_df := drop_duplicates traffic_df in
  let traffic_df := update Traffic.date_time to_datetime_coerce traffic_df in
  (let* traffic_df :=
     update_apply Traffic.area (keep_or_choice valid_areas) traffic_df in
   let traffic_df := update Traffic.vehicle_count to_numeric traffic_df in
   let traffic_df := update Traffic.vehicle_count (clip 0 10000) traffic_df in
   let traffic_df := update Traffic.avg_speed_kmh to_numeric traffic_df in
   let traffic_df := update Traffic.avg_speed_kmh (clip 0 120) traffic_df in
   let traffic_df := update Traffic.accident_count to_numeric traffic_df in
   let traffic_df := update Traffic.accident_count (clip 0 20) traffic_df in
   let* traffic_df :=
     update_apply Traffic.congestion_level
       (keep_or_choice valid_congestion) traffic_df in
   let* traffic_df :=
     update_apply Traffic.road_condition
       (keep_or_choice valid_road) traffic_df in
   let traffic_df := update Traffic.visibility_m to_numeric traffic_df in
   let traffic_df := update Traffic.visibility_m (clip 50 10000) traffic_df in
   let traffic_df := assign_scalar Traffic.city (Str "London") traffic_df in
   ret traffic_df)%state.

(** Section 2 of [main]: the cleaned traffic frame. *)
Definition clean_traffic (traffic_df : list Traffic.row)
  : State RandomState (list Traffic.row) :=
  (let* traffic_df := repair_traffic traffic_df in
   ret (dropna [Traffic.date_time; Traffic.area; Traffic.vehicle_count]
          traffic_df))%state.

(** [main]: both frames are cleaned in one process, the weather frame
    first, on the same random stream. *)
Definition main (weather_raw : list Weather.row)
  (traffic_raw : list Traffic.row)
  : State RandomState (list Weather.row * list Traffic.row) :=
  (let* weather_df := clean_weather weather_raw in
   let* traffic_df := clean_traffic traffic_raw in
   ret (weather_df, traffic_df))%state.

End with_parsers.
End Cleaning.

(** ** A small reader for the generator's standard formats

    An instance of the parser interface that reads plain decimal numbers
    and timestamps written as [%Y-%m-%d %H:%M]; everything else is
    unreadable, and no column it reads is time zone aware.  It is used to
    run the cleaner on concrete frames. *)

Module Reader.
Import Pandas.

Definition digit (a : ascii) : option Z :=
  let n := Z.of_nat (nat_of_ascii a) in
  if (48 <=? n) && (n <=? 57) then Some (n - 48) else None.

(** The digits of [s] read as a natural number, with their count. *)
Fixpoint digits (acc : Z) (count : nat) (s : string) : option (Z * nat) :=
  match s with
  | EmptyString => Some (acc, count)
  | String a s' =>
      match digit a with
      | Some d => digits (10 * acc + d) (S count) s'
      | None => None
      end
  end.

Fixpoint split_at_dot (s : string) : string * option string :=
  match s with
  | EmptyString => (EmptyString, None)
  | String a s' =>
      if Ascii.eqb a "."%char then (EmptyString, Some s')
      else let '(i, f) := split_at_dot s' in (String a i, f)
  end.

Definition unsigned_decimal (s : string) : option Qc :=
  let '(i, f) := split_at_dot s in
  match digits 0 0 i, f with
  | Some (n, S _), None => Some (Qc_of_Z n)
  | Some (n, S _), Some f' =>
      match digits 0 0 f' with
      | Some (m, k) =>
          Some (Q2Qc (Qmake (n * 10 ^ Z.of_nat k + m)
                        (Z.to_pos (10 ^ Z.of_nat k))))
      | None => None
      end
  | _, _ => None
  end.

Definition decimal (s : string) : option float64 :=
  match s with
  | String "-"%char s' => (λ q, Finite (- q)%Qc) <$> unsigned_decimal s'
  | _ => Finite <$> unsigned_decimal s
  end.

Definition two (a b : ascii) : option Z :=
  match digit a, digit b with
  | Some x, Some y => Some (10 * x + y)
  | _, _ => None
  end.

Definition in_range (lo hi x : Z) : bool := (lo <=? x) && (x <=? hi).

(** [%Y-%m-%d %H:%M], in nanoseconds since the epoch. *)
Definition minute_stamp (s : string) : option Z :=
  match s with
  | String y1 (String y2 (String y3 (String y4 (String "-" (String m1
    (String m2 (String "-" (String d1 (String d2 (String " " (String h1
    (String h2 (String ":" (String n1 (String n2 EmptyString)))))))))))))))
    =>
      match two y1 y2, two y3 y4, two m1 m2, two d1 d2, two h1 h2,
            two n1 n2 with
      | Some yh, Some yl, Some mo, Some d, Some h, Some mi =>
          if in_range 1 12 mo && in_range 1 31 d && in_range 0 23 h
             && in_range 0 59 mi
          then Some ((Calendar.days_from_civil (100 * yh + yl) mo d * 1440
                      + h * 60 + mi) * 60000000000)
          else None
      | _, _, _, _, _, _ => None
      end
  | _ => None
  end.

Definition datetime_of_cell (c : cell) : option Z :=
  match c with
  | Time t => Some t
  | Str s => minute_stamp s
  | _ => None
  end.

#[global] Instance parsers : Parsers :=
  {| parse_float := decimal;
     parse_datetimes := fmap datetime_of_cell;
     parse_aware := λ _, false |}.

End Reader.

(** ** The domains a cleaned frame is expected to respect *)

Module Domain.
Import Pandas.

(** A numeric field: missing, or a number of the closed interval. *)
Definition within (lo hi : Z) (c : cell) : bool :=
  match c with
  | NA => true
  | Num x => f64_leb (of_Z lo) x && f64_leb x (of_Z hi)
  | _ => false
  end.

Definition number (c : cell) : bool :=
  match c with Num _ => true | _ => false end.

Definition timestamp (c : cell) : bool :=
  match c with Time _ => true | _ => false end.

(** A categorical field: one of the valid labels. *)
Definition label (valid : list string) (c : cell) : bool :=
  bool_decide (c ∈ Str <$> valid).

(** The physical interval of each numeric measurement. *)
Definition weather_bounds (c : Weather.column) : option (Z * Z) :=
  match c with
  | Weather.temperature_c => Some (-10, 40)
  | Weather.humidity => Some (0, 100)
  | Weather.rain_mm => Some (0, 100)
  | Weather.wind_speed_kmh => Some (0, 150)
  | Weather.visibility_m => Some (50, 20000)
  | Weather.air_pressure_hpa => Some (950, 1050)
  | _ => None
  end.

Definition traffic_bounds (c : Traffic.column) : option (Z * Z) :=
  match c with
  | Traffic.vehicle_count => Some (0, 10000)
  | Traffic.avg_speed_kmh => Some (0, 120)
  | Traffic.accident_count => Some (0, 20)
  | Traffic.visibility_m => Some (50, 10000)
  | _ => None
  end.

Definition weather_row (r : Weather.row) : bool :=
  timestamp (get Weather.date_time r)
  && number (get Weather.temperature_c r)
  && within (-10) 40 (get Weather.temperature_c r)
  && within 0 100 (get Weather.humidity r)
  && within 0 100 (get Weather.rain_mm r)
  && within 0 150 (get Weather.wind_speed_kmh r)
  && within 50 20000 (get Weather.visibility_m r)
  && within 950 1050 (get Weather.air_pressure_hpa r)
  && label Cleaning.valid_conditions (get Weather.weather_condition r)
  && label Cleaning.valid_seasons (get Weather.season r)
  && bool_decide (get Weather.city r = Str "London").

Definition traffic_row (r : Traffic.row) : bool :=
  timestamp (get Traffic.date_time r)
  && label Cleaning.valid_areas (get Traffic.area r)
  && number (get Traffic.vehicle_count r)
  && within 0 10000 (get Traffic.vehicle_count r)
  && within 0 120 (get Traffic.avg_speed_kmh r)
  && within 0 20 (get Traffic.accident_count r)
  && label Cleaning.valid_congestion (get Traffic.congestion_level r)
  && label Cleaning.valid_road (get Traffic.road_condition r)
  && within 50 10000 (get Traffic.visibility_m r)
  && bool_decide (get Traffic.city r = Str "London").

(** An already clean frame: no duplicate rows, every value in its
    domain, no critical field missing. *)
Definition weather_clean (df : list Weather.row) : Prop :=
  NoDup df ∧ Forall (λ r, weather_row r = true) df.

Definition traffic_clean (df : list Traffic.row) : Prop :=
  NoDup df ∧ Forall (λ r, traffic_row r = true) df.

End Domain.

(** ** Concrete frames and random streams *)

Module Samples.
Import Pandas.

(** A stream whose raw draws are all 0, and one that counts. *)
Definition zeros : NumpyRandom.RandomState :=
  {| NumpyRandom.tape := λ _, 0%N; NumpyRandom.pos := 0 |}.

Definition counting : NumpyRandom.RandomState :=
  {| NumpyRandom.tape := λ n, N.of_nat n; NumpyRandom.pos := 0 |}.

(** 2024-01-01 00:00 and 2024-01-01 08:00 as timestamps. *)
Definition midnight : Z := 1704067200000000000.
Definition eight : Z := 1704096000000000000.

(** A raw weather row with a temperature of 100. *)
Definition weather_hot : Weather.row :=
  Weather.Row (Num (of_Z 5001)) (Str "2024-01-01 00:00") (Str "London")
    (Str "Winter") (Num (of_Z 100)) (Num (of_Z 80)) (Num (of_Z 0))
    (Num (of_Z 12)) (Num (of_Z 9000)) (Str "Clear") (Num (of_Z 1000)).

(** The same row with a temperature of 60. *)
Definition weather_warm : Weather.row :=
  Weather.set_field Weather.temperature_c (Num (of_Z 60)) weather_hot.

(** The row both are repaired to. *)
Definition weather_fixed : Weather.row :=
  Weather.Row (Num (of_Z 5001)) (Time midnight) (Str "London")
    (Str "Winter") (Num (of_Z 40)) (Num (of_Z 80)) (Num (of_Z 0))
    (Num (of_Z 12)) (Num (of_Z 9000)) (Str "Clear") (Num (of_Z 1000)).

(** A raw weather row whose timestamp cannot be read. *)
Definition weather_unknown : Weather.row :=
  Weather.Row NA (Str "Unknown") NA (Str "Monsoon") (Num (of_Z 100)) NA NA
    NA (Str "Low") NA NA.

(** A raw traffic row with a negative speed and no area. *)
Definition traffic_backwards : Traffic.row :=
  Traffic.Row (Num (of_Z 9001)) (Str "2024-01-01 08:15") (Str "London") NA
    (Num (of_Z 1200)) (Num (of_Z (-30))) (Num (of_Z 0)) (Str "Low")
    (Str "Dry") (Num (of_Z 5000)).

Definition traffic_fixed : Traffic.row :=
  Traffic.Row (Num (of_Z 9001)) (Time (eight + 900000000000)) (Str "London")
    (Str "Camden") (Num (of_Z 1200)) (Num (of_Z 0)) (Num (of_Z 0))
    (Str "Low") (Str "Dry") (Num (of_Z 5000)).

(** A cleaned weather row at 08:00. *)
Definition weather_eight : Weather.row :=
  Weather.set_field Weather.date_time (Time eight) weather_fixed.

(** A second traffic row of the same hour. *)
Definition traffic_later : Traffic.row :=
  Traffic.Row (Num (of_Z 9002)) (Time (eight + 2400000000000)) (Str "London")
    (Str "Chelsea") (Num (of_Z 800)) (Num (of_Z 45)) (Num (of_Z 1))
    (Str "Low") (Str "Wet") (Num (of_Z 7000)).

(** A raw traffic row without a vehicle count. *)
Definition traffic_uncounted : Traffic.row :=
  Traffic.Row (Num (of_Z 9003)) (Str "2024-01-01 09:30") (Str "London")
    (Str "Camden") NA (Num (of_Z 50)) (Num (of_Z 0)) (Str "Low")
    (Str "Dry") (Num (of_Z 5000)).

End Samples.

(** ** DataFrames whose columns are known at run time *)

Module DataFrame.
Import Pandas.

(** A frame: the length of its index, its columns in order, each with
    its name, and the names of the columns whose dtype is
    [datetime64[ns, UTC]], the time zone aware timestamps.  A column of
    timestamps that is not named there is naive.  No other dtype is
    told apart. *)
Record frame := Frame {
  index : nat;
  cols : list (string * list cell);
  aware : list string
}.

Definition columns (df : frame) : list string := fst <$> cols df.

Definition has_column (c : string) (df : frame) : bool :=
  bool_decide (c ∈ columns df).

(** [isinstance(df[c].dtype, DatetimeTZDtype)] *)
Definition is_aware (c : string) (df : frame) : bool :=
  bool_decide (c ∈ aware df).

(** The aware columns once [c] holds a column that is aware, or not. *)
Definition set_aware (c : string) (tz : bool) (l : list string)
  : list string :=
  if tz then (if decide (c ∈ l) then l else l ++ [c])
  else filter (λ n, n ≠ c) l.

Fixpoint lookup_column (c : string) (l : list (string * list cell))
  : option (list cell) :=
  match l with
  | [] => None
  | (n, v) :: l' => if decide (n = c) then Some v else lookup_column c l'
  end.

(** [df[c]]; [None] stands for the [KeyError] of a missing column. *)
Definition getitem (c : string) (df : frame) : option (list cell) :=
  lookup_column c (cols df).

Definition replace_column (c : string) (v : list cell)
  (l : list (string * list cell)) : list (string * list cell) :=
  (λ nv, if decide (nv.1 = c) then (nv.1, v) else nv) <$> l.

(** [df[c] = v] for a column [v] that is aware ([tz]) or not: an
    existing column is overwritten in place, a new one is added at the
    end; the values are aligned on the index. *)
Definition setitem (c : string) (tz : bool) (v : list cell) (df : frame)
  : frame :=
  let v := resize (index df) NA v in
  if has_column c df
  then Frame (index df) (replace_column c v (cols df))
         (set_aware c tz (aware df))
  else Frame (index df) (cols df ++ [(c, v)]) (set_aware c tz (aware df)).

(** [df.drop(columns=cs)]; a missing column is a [KeyError]. *)
Definition drop (cs : list string) (df : frame) : option frame :=
  if forallb (λ c, has_column c df) cs
  then Some (Frame (index df) (filter (λ nv, nv.1 ∉ cs) (cols df))
               (filter (λ n, n ∉ cs) (aware df)))
  else None.

(** [df.rename(columns={old: new})] *)
Definition rename (old new : string) (df : frame) : frame :=
  Frame (index df)
    ((λ nv, if decide (nv.1 = old) then (new, nv.2) else nv) <$> cols df)
    ((λ n, if decide (n = old) then new else n) <$> aware df).

(** [df[cs]] for a list of names *)
Definition select (cs : list string) (df : frame) : option frame :=
  l ← mapM (λ c, v ← getitem c df; Some (c, v)) cs;
  Some (Frame (index df) l (filter (λ n, n ∈ cs) (aware df))).

(** [df.loc[:, ~df.columns.duplicated()]] *)
Fixpoint first_by_name (seen : list string) (l : list (string * list cell))
  : list (string * list cell) :=
  match l with
  | [] => []
  | (n, v) :: l' =>
      if decide (n ∈ seen) then first_by_name seen l'
      else (n, v) :: first_by_name (n :: seen) l'
  end.

Definition drop_duplicated_columns (df : frame) : frame :=
  Frame (index df) (first_by_name [] (cols df)) (aware df).

(** *** [pd.merge(left, right, left_on=on, right_on=on, how='inner',
        suffixes=...)] *)

(** The key of every row: its values in the key columns. *)
Definition key_rows (keys : list (list cell)) (n : nat) : list (list cell) :=
  (λ i, (λ k, nth i k NA) <$> keys) <$> seq 0 n.

(** The positions, from [j] on, of the rows of the right frame with key [k]. *)
Fixpoint matches (k : list cell) (j : nat) (rkeys : list (list cell))
  : list nat :=
  match rkeys with
  | [] => []
  | k' :: rkeys' =>
      if decide (k = k') then j :: matches k (S j) rkeys'
      else matches k (S j) rkeys'
  end.

(** The pairs (left position, right position) of the inner join, in the
    order of the left keys. *)
Fixpoint join_from (i : nat) (lkeys rkeys : list (list cell))
  : list (nat * nat) :=
  match lkeys with
  | [] => []
  | k :: lkeys' =>
      ((λ j, (i, j)) <$> matches k 0 rkeys) ++ join_from (S i) lkeys' rkeys
  end.

Definition join_pairs (lkeys rkeys : list (list cell)) : list (nat * nat) :=
  join_from 0 lkeys rkeys.

(** [v.take(positions)] *)
Definition take_rows (positions : list nat) (v : list cell) : list cell :=
  (λ i, nth i v NA) <$> positions.

Definition with_suffix (overlap : list string) (suffix : string)
  (n : string) : string :=
  if decide (n ∈ overlap) then n +:+ suffix else n.

(** The check of the keys, [_maybe_coerce_merge_keys]: a key that is
    time zone aware in one frame and not in the other is a
    [ValueError].  The keys are not looked at when exactly one of the
    two frames has no row:
    [if (len(lk) and not len(rk)) or (not len(lk) and len(rk)): continue]. *)
Definition one_is_empty (left right : frame) : bool :=
  ((0 <? index left)%nat && (index right =? 0)%nat)
  || ((index left =? 0)%nat && (0 <? index right)%nat).

Definition keys_compatible (left right : frame) (on : list string) : bool :=
  one_is_empty left right
  || forallb (λ k, bool_decide (is_aware k left = is_aware k right)) on.

Definition merge (left right : frame) (on : list string)
  (suffixes : string * string) : option frame :=
  lkeys ← mapM (λ k, getitem k left) on;
  rkeys ← mapM (λ k, getitem k right) on;
  if keys_compatible left right on then
    let pairs := join_pairs (key_rows lkeys (index left))
                   (key_rows rkeys (index right)) in
    let overlap :=
      filter (λ n, n ∈ columns right ∧ n ∉ on) (columns left) in
    let lcols :=
      (λ nv, (with_suffix overlap suffixes.1 nv.1, take_rows pairs.*1 nv.2))
        <$> cols left in
    let rcols :=
      (λ nv, (with_suffix overlap suffixes.2 nv.1, take_rows pairs.*2 nv.2))
        <$> filter (λ nv, nv.1 ∉ on) (cols right) in
    Some (Frame (length pairs) (lcols ++ rcols)
            ((with_suffix overlap suffixes.1 <$> aware left)
             ++ (with_suffix overlap suffixes.2
                   <$> filter (λ n, n ∉ on) (aware right))))
  else None.

End DataFrame.

(** ** Python string methods used on the column names *)

Module PyString.

(** [s.endswith(suffix)] *)
Definition endswith (suffix s : string) : bool :=
  let n := String.length suffix in
  let m := String.length s in
  if (n <=? m)%nat
  then bool_decide (String.substring (m - n) n s = suffix)
  else false.

(** [sub in s] *)
Fixpoint contains (sub s : string) : bool :=
  String.prefix sub s
  || match s with
     | EmptyString => false
     | String _ s' => contains sub s'
     end.

(** [s.replace(old, new)] for a non-empty [old]: the occurrences are
    replaced from left to right; [skip] characters of an occurrence
    just replaced are still to be passed. *)
Fixpoint replace_from (skip : nat) (old new s : string) : string :=
  match s with
  | EmptyString => EmptyString
  | String a s' =>
      match skip with
      | S skip' => replace_from skip' old new s'
      | O =>
          if String.prefix old s
          then new +:+ replace_from (String.length old - 1) old new s'
          else String a (replace_from 0 old new s')
      end
  end.

Definition replace (old new s : string) : string :=
  replace_from 0 old new s.

End PyString.

(** ** [Phase 4/Data Merge.py] *)

Module Merge.
Import Pandas DataFrame.

(** [pd.read_parquet] of the two cleaned files: the frame has the columns
    of the schema, in order; [tz] tells whether the file has its
    [date_time] column time zone aware. *)
Definition load_weather (tz : bool) (rows : list Weather.row) : frame :=
  Frame (length rows)
    ((λ c, (Weather.name c, Frame.series c rows)) <$> Weather.columns)
    (if tz then ["date_time"%string] else []).

Definition load_traffic (tz : bool) (rows : list Traffic.row) : frame :=
  Frame (length rows)
    ((λ c, (Traffic.name c, Frame.series c rows)) <$> Traffic.columns)
    (if tz then ["date_time"%string] else []).

Definition weather_unique : list string :=
  ["season"; "temperature_c"; "humidity"; "rain_mm"; "wind_speed_kmh";
   "weather_condition"; "air_pressure_hpa"]%string.

Definition traffic_unique : list string :=
  ["area"; "vehicle_count"; "avg_speed_kmh"; "accident_count";
   "congestion_level"; "road_condition"]%string.

(** A loop over a list whose body may raise. *)
Fixpoint for_each {A S} (body : S → A → option S) (s : S) (l : list A)
  : option S :=
  match l with
  | [] => Some s
  | x :: l' => s' ← body s x; for_each body s' l'
  end.

(** Step 5 of [main], one conflict at a time. *)
Definition drop_hour (merged_df : frame) : option frame :=
  if has_column "hour" merged_df then drop ["hour"%string] merged_df
  else Some merged_df.

Definition resolve_city (merged_df : frame) : option frame :=
  if has_column "city_traffic" merged_df
     && has_column "city_weather" merged_df
  then merged_df ← drop ["city_traffic"%string] merged_df;
       Some (rename "city_weather" "city" merged_df)
  else Some merged_df.

Definition resolve_date_time (merged_df : frame) : option frame :=
  if has_column "date_time_traffic" merged_df
     && has_column "date_time_weather" merged_df
  then merged_df ← drop ["date_time_traffic"%string] merged_df;
       Some (rename "date_time_weather" "date_time" merged_df)
  else Some merged_df.

Definition resolve_visibility (merged_df : frame) : option frame :=
  if has_column "visibility_m_weather" merged_df
     && has_column "visibility_m_traffic" merged_df
  then v ← getitem "visibility_m_weather" merged_df;
       drop ["visibility_m_weather"; "visibility_m_traffic"]%string
         (setitem "visibility_m" (is_aware "visibility_m_weather" merged_df)
            v merged_df)
  else Some merged_df.

(** The body of the loop over the remaining suffixed columns. *)
Definition resolve_other (suffix : string) (merged_df : frame)
  (col : string) : option frame :=
  let base_col := PyString.replace suffix EmptyString col in
  let other_suffix :=
    if decide (suffix = "_weather"%string) then "_traffic"%string
    else "_weather"%string in
  let other_col := base_col +:+ other_suffix in
  if has_column other_col merged_df
  then merged_df ←
         (if PyString.contains "weather" col
          then v ← getitem col merged_df;
               Some (setitem base_col (is_aware col merged_df) v merged_df)
          else Some merged_df);
       drop [col; other_col] merged_df
  else Some merged_df.

Definition resolve_others (merged_df : frame) : option frame :=
  for_each
    (λ merged_df suffix,
       let cols_with_suffix :=
         List.filter (PyString.endswith suffix) (columns merged_df) in
       for_each (resolve_other suffix) merged_df cols_with_suffix)
    merged_df ["_weather"; "_traffic"]%string.

(** Step 6 of [main]: the names of the final columns that are present. *)
Definition present (merged_df : frame) (cs : list string) : list string :=
  List.filter (λ c, has_column c merged_df) cs.

Definition final_columns (merged_df : frame) : list string :=
  present merged_df ["date_time"; "city"]%string
  ++ present merged_df weather_unique
  ++ present merged_df traffic_unique
  ++ present merged_df ["visibility_m"%string].

Section with_parsers.
Context `{P : Parsers}.

(** The dtype of [pd.to_datetime(df[c])]: a column of timestamps
    keeps its dtype, a column of text gets the one the parser
    gives it. *)
Definition aware_as_datetime (c : string) (v : list cell) (df : frame)
  : bool :=
  if is_aware c df then true
  else if decide (Forall datetime_typed v) then false
  else parse_aware v.

(** [df['date_time'] = pd.to_datetime(df['date_time'])] *)
Definition standardize (df : frame) : option frame :=
  v ← getitem "date_time" df;
  v' ← to_datetime v;
  Some (setitem "date_time" (aware_as_datetime "date_time" v df) v' df).

(** [df['hour'] = df['date_time'].dt.floor('H')] *)
Definition add_hour (df : frame) : option frame :=
  v ← getitem "date_time" df;
  Some (setitem "hour" (is_aware "date_time" df) (dt_floor_H v) df).

(** Steps 3 and 4 of [main]. *)
Definition join (weather_df traffic_df : frame) : option frame :=
  weather_df ← standardize weather_df;
  traffic_df ← standardize traffic_df;
  weather_df ← add_hour weather_df;
  traffic_df ← add_hour traffic_df;
  merge weather_df traffic_df ["hour"; "city"]%string
    ("_weather", "_traffic")%string.

(** Steps 5 and 6 of [main]. *)
Definition tidy (merged_df : frame) : option frame :=
  merged_df ← drop_hour merged_df;
  merged_df ← resolve_city merged_df;
  merged_df ← resolve_date_time merged_df;
  merged_df ← resolve_visibility merged_df;
  merged_df ← resolve_others merged_df;
  final_df ← select (final_columns merged_df) merged_df;
  Some (drop_duplicated_columns final_df).

Definition merge_datasets (weather_df traffic_df : frame) : option frame :=
  merged_df ← join weather_df traffic_df;
  tidy merged_df.

(** [main] on the two cleaned files, each with the awareness of its
    [date_time] column; [None] when it raises. *)
Definition main (weather_tz : bool) (weather_rows : list Weather.row)
  (traffic_tz : bool) (traffic_rows : list Traffic.row) : option frame :=
  merge_datasets (load_weather weather_tz weather_rows)
    (load_traffic traffic_tz traffic_rows).

End with_parsers.

(** The final schema. *)
Definition final_schema : list string :=
  ["date_time"; "city"; "season"; "temperature_c"; "humidity"; "rain_mm";
   "wind_speed_kmh"; "weather_condition"; "air_pressure_hpa"; "area";
   "vehicle_count"; "avg_speed_kmh"; "accident_count"; "congestion_level";
   "road_condition"; "visibility_m"]%string.

(** The join key of every row of a cleaned frame: hour and city. *)
Definition weather_keys (rows : list Weather.row) : list (list cell) :=
  (λ r, [floor_H_cell (get Weather.date_time r); get Weather.city r])
    <$> rows.

Definition traffic_keys (rows : list Traffic.row) : list (list cell) :=
  (λ r, [floor_H_cell (get Traffic.date_time r); get Traffic.city r])
    <$> rows.

(** The distinct keys present in both inputs. *)
Definition common_keys (lkeys rkeys : list (list cell)) : list (list cell) :=
  filter (λ k, k ∈ rkeys) (remove_dups lkeys).

(** The number of rows with key [k]. *)
Definition occurrences (k : list cell) (keys : list (list cell)) : nat :=
  length (filter (λ k', k = k') keys).

(** A frame as the cleaner writes it: the [date_time] column holds
    timestamps. *)
Definition weather_ready (rows : list Weather.row) : Prop :=
  Forall (λ r, datetime_typed (get Weather.date_time r)) rows.

Definition traffic_ready (rows : list Traffic.row) : Prop :=
  Forall (λ r, datetime_typed (get Traffic.date_time r)) rows.

(** The two files can be merged: their [date_time] columns are both
    aware or both naive, or exactly one of the files has no row. *)
Definition compatible (weather_tz : bool) (weather_rows : list Weather.row)
  (traffic_tz : bool) (traffic_rows : list Traffic.row) : Prop :=
  weather_tz = traffic_tz
  ∨ (weather_rows ≠ [] ∧ traffic_rows = [])
  ∨ (weather_rows = [] ∧ traffic_rows ≠ []).

#[global] Instance compatible_dec wz w tz t : Decision (compatible wz w tz t).
Proof. unfold compatible. apply _. Defined.

(** The two files overlap: a key is present in both, an hour of the
    same kind (an aware timestamp is never equal to a naive one) with
    the city. *)
Definition overlapping (weather_tz : bool) (weather_rows : list Weather.row)
  (traffic_tz : bool) (traffic_rows : list Traffic.row) : Prop :=
  weather_tz = traffic_tz
  ∧ ∃ k, k ∈ weather_keys weather_rows ∧ k ∈ traffic_keys traffic_rows.

End Merge.

(** ** The frames [main] of the merge is expected to build *)

Module Expected.
Import Pandas DataFrame.

(** The name of a weather column after [pd.merge]. *)
Definition merged_weather_name (c : Weather.column) : string :=
  match c with
  | Weather.date_time => "date_time_weather"
  | Weather.visibility_m => "visibility_m_weather"
  | _ => Weather.name c
  end.

Definition merged_traffic_name (c : Traffic.column) : string :=
  match c with
  | Traffic.date_time => "date_time_traffic"
  | Traffic.visibility_m => "visibility_m_traffic"
  | _ => Traffic.name c
  end.

(** The result of [pd.merge]: the weather columns, the hour, the traffic
    columns but the city; [wd c] and [td c] are the data of the columns. *)
Definition merged (n : nat) (weather_tz traffic_tz : bool)
  (wd : Weather.column → list cell)
  (hour : list cell) (td : Traffic.column → list cell) : frame :=
  Frame n
    (((λ c, (merged_weather_name c, wd c)) <$> Weather.columns)
     ++ [("hour"%string, hour)]
     ++ ((λ c, (merged_traffic_name c, td c))
           <$> [Traffic.traffic_id; Traffic.date_time; Traffic.area;
                Traffic.vehicle_count; Traffic.avg_speed_kmh;
                Traffic.accident_count; Traffic.congestion_level;
                Traffic.road_condition; Traffic.visibility_m]))
    ((if weather_tz then ["date_time_weather"; "hour"]%string else [])
     ++ (if traffic_tz then ["date_time_traffic"%string] else [])).

(** The final frame: sixteen columns, the visibility of the weather side
    last. *)
Definition final (n : nat) (weather_tz : bool)
  (wd : Weather.column → list cell)
  (td : Traffic.column → list cell) : frame :=
  Frame n
    (((λ c, (Weather.name c, wd c))
        <$> [Weather.date_time; Weather.city; Weather.season;
             Weather.temperature_c; Weather.humidity; Weather.rain_mm;
             Weather.wind_speed_kmh; Weather.weather_condition;
             Weather.air_pressure_hpa])
     ++ ((λ c, (Traffic.name c, td c))
           <$> [Traffic.area; Traffic.vehicle_count; Traffic.avg_speed_kmh;
                Traffic.accident_count; Traffic.congestion_level;
                Traffic.road_condition])
     ++ [("visibility_m"%string, resize n NA (wd Weather.visibility_m))])
    (if weather_tz then ["date_time"%string] else []).

End Expected.

(** ** Python numbers, values and the [random] module *)

Module Py.

(** [float]: IEEE 754 binary64. *)
Module F.
Definition prec : Z := 53.
Definition emax : Z := 1024.
Definition of_Z (n : Z) : spec_float := binary_normalize prec emax n 0 false.
Definition add : spec_float → spec_float → spec_float := SFadd prec emax.
Definition sub : spec_float → spec_float → spec_float := SFsub prec emax.
Definition mul : spec_float → spec_float → spec_float := SFmul prec emax.
Definition div : spec_float → spec_float → spec_float := SFdiv prec emax.
Definition ltb : spec_float → spec_float → bool := SFltb.
Definition leb : spec_float → spec_float → bool := SFleb.

(** The literal [n / 10^k], for instance [dec 5 2] for [0.05]. *)
Definition dec (n : Z) (k : Z) : spec_float := div (of_Z n) (of_Z (10 ^ k)).

(** [int(x)]: truncation toward zero; [None] for an infinity or a NaN,
    where Python raises. *)
Definition to_int (x : spec_float) : option Z :=
  match x with
  | S754_zero _ => Some 0
  | S754_finite s m e =>
      let a := match e with
               | Z0 => Zpos m
               | Zpos _ => Zpos m * 2 ^ e
               | Zneg p => Zpos m / 2 ^ Zpos p
               end in
      Some (if s then - a else a)
  | _ => None
  end.

(** [round(x, 1)]: the decimal nearest to the exact value of [x], ties
    to even, read back as a float. *)
Definition round1 (x : spec_float) : spec_float :=
  match x with
  | S754_finite s m e =>
      let tenths :=
        match e with
        | Zneg p =>
            let num := Zpos m * 10 in
            let den := 2 ^ Zpos p in
            let q := num / den in
            let r := num mod den in
            if den <? 2 * r then q + 1
            else if (2 * r =? den) && Z.odd q then q + 1
            else q
        | _ => Zpos m * 2 ^ e * 10
        end in
      if tenths =? 0 then S754_zero s
      else div (of_Z (if s then - tenths else tenths)) (of_Z 10)
  | _ => x
  end.
End F.

Inductive value :=
| VNone
| VInt (n : Z)
| VFloat (x : spec_float)
| VStr (s : string).

(** The stream of the [random] module, like numpy's. *)
Record RandomState := { tape : nat → N; pos : nat }.

(** The two global streams a generator draws from. *)
Record Globals := {
  random_state : RandomState;
  numpy_state : NumpyRandom.RandomState
}.

(** A computation that draws from the global streams and may raise. *)
Definition Gen (A : Type) : Type := Globals → option (A * Globals).

Definition gret {A} (a : A) : Gen A := λ g, Some (a, g).

Definition gbind {A B} (m : Gen A) (k : A → Gen B) : Gen B :=
  λ g, match m g with
       | Some (a, g') => k a g'
       | None => None
       end.

Definition raise {A} : Gen A := λ _, None.

Definition of_option {A} (o : option A) : Gen A :=
  match o with Some a => gret a | None => raise end.

End Py.

Declare Scope gen_scope.
Delimit Scope gen_scope with gen.
Notation "'let*' x ':=' m 'in' k" := (Py.gbind m (λ x, k))
  (at level 10, x name, m at level 100, k at level 200) : gen_scope.

(** ** The functions of [random] and [np.random] the generators call *)

Module Random.
Import Py.

(** One raw draw of the [random] stream. *)
Definition draw : Gen N :=
  λ g, let s := random_state g in
       Some (tape s (pos s),
             {| random_state := {| tape := tape s; pos := S (pos s) |};
                numpy_state := numpy_state g |}).

(** [random.random()]: a multiple of 2^-53 in [0, 1). *)
Definition unit_float (k : N) : spec_float :=
  binary_normalize F.prec F.emax (Z.of_N k mod 2 ^ 53) (-53) false.

Definition random : Gen spec_float :=
  (let* k := draw in gret (unit_float k))%gen.

(** A number below [n], for a positive [n]. *)
Definition randbelow (n : Z) : Gen Z :=
  (let* k := draw in gret (Z.of_N k mod n))%gen.

(** [random.randint(a, b)] *)
Definition randint (a b : Z) : Gen Z :=
  if b - a + 1 <=? 0 then raise
  else (let* k := randbelow (b - a + 1) in gret (a + k))%gen.

(** [random.choice(seq)]; an empty sequence is an [IndexError]. *)
Definition choice {A} (seq : list A) : Gen A :=
  match seq with
  | [] => raise
  | x :: _ =>
      (let* k := randbelow (Z.of_nat (length seq)) in
       gret (nth (Z.to_nat k) seq x))%gen
  end.

(** [random.uniform(a, b)] for two integers: [a + (b - a) * random()]. *)
Definition uniform (a b : Z) : Gen spec_float :=
  (let* r := random in
   gret (F.add (F.of_Z a) (F.mul (F.of_Z (b - a)) r)))%gen.

(** [random.sample(range(n), k)] of CPython 3.11.  More than [n]
    positions is a [ValueError].  Otherwise the function has two
    branches, chosen by the size a set of [k] elements would have:

    - [n <= setsize]: the positions are taken one by one out of a pool
      of the positions that are left, the last of the pool moving into
      the vacancy;
    - else: positions below [n] are drawn and a position drawn before
      is drawn again, [while j in selected: j = randbelow(n)]. *)

(** [setsize]: 21, and [4 ** _ceil(_log(k * 3, 4))] more when [k > 5].
    The ceiling of the logarithm is the least [e] with [3k <= 4^e];
    [3k] is no power of 4, so that the logarithm is no integer and its
    floating point value has the same ceiling, for every [k] a generator
    that ends can pass. *)
Definition ceil_log4 (m : Z) : Z := (Z.log2_up m + 1) / 2.

Definition setsize (k : nat) : Z :=
  if (5 <? k)%nat then 21 + 4 ^ ceil_log4 (Z.of_nat k * 3) else 21.

(** The first branch. *)
Fixpoint sample_from (pool : list nat) (k : nat) : Gen (list nat) :=
  match k with
  | O => gret []
  | S k' =>
      (let* j := randbelow (Z.of_nat (length pool)) in
       let j := Z.to_nat j in
       let chosen := nth j pool O in
       let last := nth (length pool - 1) pool O in
       let pool := take (length pool - 1) (<[j := last]> pool) in
       let* rest := sample_from pool k' in
       gret (chosen :: rest))%gen
  end.

(** The loop [j = randbelow(n); while j in selected: j = randbelow(n)]
    of the second branch.  Nothing bounds it: it is run for at most
    [fuel] draws, and the result is [None] when every one of them was
    selected before, that is, when the loop is still running. *)
Fixpoint fresh_below (fuel : nat) (n : Z) (selected : list nat)
  : Gen (option nat) :=
  match fuel with
  | O => gret None
  | S fuel' =>
      (let* j := randbelow n in
       let j := Z.to_nat j in
       if bool_decide (j ∈ selected) then fresh_below fuel' n selected
       else gret (Some j))%gen
  end.

(** The second branch: [for i in range(k)], each iteration with [fuel]
    draws for its loop; [None] when a loop is still running. *)
Fixpoint sample_set (fuel : nat) (n : Z) (selected : list nat) (k : nat)
  : Gen (option (list nat)) :=
  match k with
  | O => gret (Some [])
  | S k' =>
      (let* j := fresh_below fuel n selected in
       match j with
       | None => gret None
       | Some j =>
           let* rest := sample_set fuel n (j :: selected) k' in
           gret (cons j <$> rest)
       end)%gen
  end.

Definition sample_range (fuel : nat) (n k : nat) : Gen (option (list nat)) :=
  if (n <? k)%nat then raise
  else if Z.of_nat n <=? setsize k
  then (let* result := sample_from (seq 0 n) k in gret (Some result))%gen
  else sample_set fuel (Z.of_nat n) [] k.

(** One raw draw of numpy's stream. *)
Definition np_draw : Gen N :=
  λ g, let '(k, s) := NumpyRandom.draw (numpy_state g) in
       Some (k, {| random_state := random_state g; numpy_state := s |}).

(** [np.random.choice(a, p=p)]: the first label whose cumulated,
    normalised probability exceeds a uniform draw. *)
Fixpoint cumsum (acc : spec_float) (p : list spec_float) : list spec_float :=
  match p with
  | [] => []
  | x :: p' => let acc := F.add acc x in acc :: cumsum acc p'
  end.

Definition cdf (p : list spec_float) : list spec_float :=
  let c := cumsum (S754_zero false) p in
  (λ x, F.div x (List.last c (S754_zero false))) <$> c.

Definition searchsorted_right (c : list spec_float) (u : spec_float) : nat :=
  length (List.filter (λ x, F.leb x u) c).

Definition np_choice {A} (default : A) (a : list A) (p : list spec_float)
  : Gen A :=
  (let* k := np_draw in
   gret (nth (searchsorted_right (cdf p) (unit_float k)) a default))%gen.

(** [has_issues and random.random() < p]: the draw is made only when
    the record has issues. *)
Definition issue (has_issues : bool) (p : spec_float) : Gen bool :=
  if has_issues then (let* r := random in gret (F.ltb r p))%gen
  else gret false.

End Random.

(** ** [datetime] *)

Module Datetime.

(** A [datetime] without seconds: the minutes since 1970-01-01 00:00. *)
Definition datetime : Type := Z.

Definition make (y m d hh mm : Z) : datetime :=
  (Calendar.days_from_civil y m d * 24 + hh) * 60 + mm.

(** The first minute after [datetime.max]. *)
Definition limit : Z := make 10000 1 1 0 0.

(** [d + timedelta(hours=h, minutes=m)]; past [datetime.max] it is an
    [OverflowError]. *)
Definition add (d : datetime) (h m : Z) : option datetime :=
  let r := d + 60 * h + m in
  if r <? limit then Some r else None.

Definition date (d : datetime) : Z * Z * Z :=
  Calendar.civil_from_days (d / 1440).

Definition year (d : datetime) : Z := let '(y, _, _) := date d in y.
Definition month (d : datetime) : Z := let '(_, m, _) := date d in m.
Definition day (d : datetime) : Z := let '(_, _, x) := date d in x.
Definition hour (d : datetime) : Z := (d mod 1440) / 60.
Definition minute (d : datetime) : Z := d mod 60.

Definition digit (n : Z) : ascii := ascii_of_nat (48 + Z.to_nat (n mod 10)).

Definition pad2 (n : Z) : string :=
  String (digit (n / 10)) (String (digit n) EmptyString).

Definition pad4 (n : Z) : string := pad2 (n / 100) +:+ pad2 (n mod 100).

Definition month_abbr (m : Z) : string :=
  nth (Z.to_nat (m - 1))
    ["Jan"; "Feb"; "Mar"; "Apr"; "May"; "Jun"; "Jul"; "Aug"; "Sep"; "Oct";
     "Nov"; "Dec"]%string EmptyString.

Definition hour12 (d : datetime) : Z :=
  if hour d mod 12 =? 0 then 12 else hour d mod 12.

Definition am_pm (d : datetime) : string :=
  if hour d <? 12 then "AM"%string else "PM"%string.

(** [d.strftime('%Y-%m-%d %H:%M')] *)
Definition standard (d : datetime) : string :=
  pad4 (year d) +:+ "-" +:+ pad2 (month d) +:+ "-" +:+ pad2 (day d)
  +:+ " " +:+ pad2 (hour d) +:+ ":" +:+ pad2 (minute d).

(** [d.strftime('%d/%m/%Y %I:%M%p')] *)
Definition day_first_12h (d : datetime) : string :=
  pad2 (day d) +:+ "/" +:+ pad2 (month d) +:+ "/" +:+ pad4 (year d)
  +:+ " " +:+ pad2 (hour12 d) +:+ ":" +:+ pad2 (minute d) +:+ am_pm d.

(** [d.strftime('%Y-%m-%dT%H:%MZ')] *)
Definition iso_zulu (d : datetime) : string :=
  pad4 (year d) +:+ "-" +:+ pad2 (month d) +:+ "-" +:+ pad2 (day d)
  +:+ "T" +:+ pad2 (hour d) +:+ ":" +:+ pad2 (minute d) +:+ "Z".

(** [d.strftime('%Y/%m/%d %H:%M:%S')] *)
Definition slashes_seconds (d : datetime) : string :=
  pad4 (year d) +:+ "/" +:+ pad2 (month d) +:+ "/" +:+ pad2 (day d)
  +:+ " " +:+ pad2 (hour d) +:+ ":" +:+ pad2 (minute d) +:+ ":00".

(** [d.strftime('%d-%b-%Y %H:%M')] *)
Definition day_month_name (d : datetime) : string :=
  pad2 (day d) +:+ "-" +:+ month_abbr (month d) +:+ "-" +:+ pad4 (year d)
  +:+ " " +:+ pad2 (hour d) +:+ ":" +:+ pad2 (minute d).

End Datetime.

(** ** [pandas.DataFrame.sample(frac=1, random_state=seed)]

    The order in which a seeded shuffle lists the positions of a frame
    of [n] rows, left as an interface. *)

Class Shuffle := { permutation : Z → nat → list nat }.

Class ShuffleLaws (S : Shuffle) : Prop := {
  permutation_Permutation seed n : permutation seed n ≡ₚ seq 0 n
}.

(** ** The parts the two generators share *)

Module Generator.
Import Py Random.

(** A generated frame: its rows, each a list of values in the order of
    the columns. *)
Definition frame : Type := list (list value).

(** [for i in range(n)]: the rows the iterations append, in order. *)
Fixpoint for_range (i : nat) (n : nat) (body : nat → Gen (list value))
  : Gen frame :=
  match n with
  | O => gret []
  | S n' =>
      (let* row := body i in
       let* rows := for_range (S i) n' body in
       gret (row :: rows))%gen
  end.

(** [int(num_records * 0.05)] *)
Definition num_duplicates (num_records : nat) : option Z :=
  F.to_int (F.mul (F.of_Z (Z.of_nat num_records)) (F.dec 5 2)).

(** [df.iloc[duplicate_indices].copy()] *)
Definition iloc (df : frame) (positions : list nat) : frame :=
  (λ i, nth i df []) <$> positions.

(** The loop that gives some duplicates the identifier of one of the
    first hundred records. *)
Fixpoint modify_duplicates (ids : list value) (duplicates : frame)
  : Gen frame :=
  match duplicates with
  | [] => gret []
  | row :: duplicates' =>
      (let* r := random in
       let* row :=
         (if F.ltb r (F.dec 5 1)
          then let* id := choice (take 100 ids) in gret (<[0%nat := id]> row)
          else gret row) in
       let* rows := modify_duplicates ids duplicates' in
       gret (row :: rows))%gen
  end.

(** The end of a generator, from [# Add duplicates] on; [None] when a
    loop of [random.sample] is still running after [fuel] draws. *)
Definition add_duplicates_and_shuffle `{Shuffle} (fuel : nat)
  (num_records : nat) (df : frame) : Gen (option frame) :=
  (let* num_duplicates := of_option (num_duplicates num_records) in
   let* duplicate_indices :=
     sample_range fuel num_records (Z.to_nat num_duplicates) in
   match duplicate_indices with
   | None => gret None
   | Some duplicate_indices =>
       let duplicates := iloc df duplicate_indices in
       let ids := (λ row, nth 0 row VNone) <$> df in
       let* duplicates := modify_duplicates ids duplicates in
       let df := df ++ duplicates in
       gret (Some (iloc df (permutation 42 (length df))))
   end)%gen.

Definition start_date : Datetime.datetime := Datetime.make 2024 1 1 0 0.

Definition seasons (month : Z) : string :=
  if bool_decide (month ∈ [12; 1; 2]) then "Winter"
  else if bool_decide (month ∈ [3; 4; 5]) then "Spring"
  else if bool_decide (month ∈ [6; 7; 8]) then "Summer"
  else "Autumn".

End Generator.

(** ** [Data Generation/weather_data_generator.py] *)

Module WeatherGenerator.
Import Py Random Generator.

Definition weather_conditions : list string :=
  ["Clear"; "Rain"; "Fog"; "Storm"; "Snow"]%string.

Definition weather_probs : list spec_float :=
  [F.dec 5 1; F.dec 25 2; F.dec 1 1; F.dec 1 1; F.dec 5 2].

Definition winter_probs : list spec_float :=
  [F.dec 4 1; F.dec 2 1; F.dec 1 1; F.dec 1 1; F.dec 2 1].

Definition summer_probs : list spec_float :=
  [F.dec 7 1; F.dec 1 1; F.dec 5 2; F.dec 1 1; F.dec 5 2].

Definition wet_season (season : string) : bool :=
  bool_decide (season ∈ ["Winter"; "Autumn"]%string).

(** The body of the loop for the record of index [i]: the row of the
    eleven values it appends to the columns. *)
Definition record (i : nat) : Gen (list value) :=
  (let base_id := 5000 + Z.of_nat i + 1 in
   let* r := random in
   let has_issues := F.ltb r (F.dec 3 1) in
   (* weather_id *)
   let* null_id := issue has_issues (F.dec 1 1) in
   let weather_id := if null_id then VNone else VInt base_id in
   (* date_time *)
   let* current_date := of_option (Datetime.add start_date (Z.of_nat i) 0) in
   let* date_time :=
     (if has_issues
      then
        let* rand_choice := random in
        if F.ltb rand_choice (F.dec 5 2) then gret VNone
        else if F.ltb rand_choice (F.dec 1 1)
        then let* s := choice ["2099-13-40 25:61"; "Unknown";
                               "Invalid Date"]%string in
             gret (VStr s)
        else if F.ltb rand_choice (F.dec 2 1)
        then let* s := choice [Datetime.day_first_12h current_date;
                               Datetime.iso_zulu current_date;
                               Datetime.slashes_seconds current_date] in
             gret (VStr s)
        else gret (VStr (Datetime.standard current_date))
      else gret (VStr (Datetime.standard current_date))) in
   (* city *)
   let* null_city := issue has_issues (F.dec 5 2) in
   let city := if null_city then VNone else VStr "London" in
   (* season *)
   let month := Datetime.month current_date in
   let* bad_season := issue has_issues (F.dec 1 1) in
   let* season_value :=
     (if bad_season
      then
        let* r := random in
        if F.ltb r (F.dec 5 1) then gret VNone
        else let* s := choice ["Monsoon"; "Fall"; "Rainy"; "Dry"]%string in
             gret (VStr s)
      else gret (VStr (seasons month))) in
   (* temperature_c *)
   let season := seasons month in
   let* base_temp :=
     (if bool_decide (season = "Winter"%string) then uniform (-5) 15
      else if bool_decide (season = "Summer"%string) then uniform 10 35
      else if bool_decide (season = "Spring"%string) then uniform 5 25
      else uniform 5 20) in
   let* outlier := issue has_issues (F.dec 5 2) in
   let* temperature_c :=
     (if outlier then let* v := choice [-30; 60; 100] in gret (VInt v)
      else let* null := issue has_issues (F.dec 1 1) in
           if null then gret VNone
           else gret (VFloat (F.round1 base_temp))) in
   (* humidity *)
   let* outlier := issue has_issues (F.dec 5 2) in
   let* humidity :=
     (if outlier then let* v := choice [-10; 150; 200] in gret (VInt v)
      else let* null := issue has_issues (F.dec 1 1) in
           if null then gret VNone
           else if wet_season season
           then let* v := randint 60 100 in gret (VInt v)
           else let* v := randint 20 80 in gret (VInt v)) in
   (* rain_mm *)
   let* outlier := issue has_issues (F.dec 5 2) in
   let* rain_mm :=
     (if outlier then let* v := uniform 120 300 in gret (VFloat v)
      else let* null := issue has_issues (F.dec 1 1) in
           if null then gret VNone
           else if wet_season season
           then let* v := uniform 0 30 in gret (VFloat (F.round1 v))
           else let* v := uniform 0 10 in gret (VFloat (F.round1 v))) in
   (* wind_speed_kmh *)
   let* outlier := issue has_issues (F.dec 5 2) in
   let* wind_speed_kmh :=
     (if outlier then let* v := uniform 200 500 in gret (VFloat v)
      else let* null := issue has_issues (F.dec 1 1) in
           if null then gret VNone
           else let* v := uniform 0 80 in gret (VFloat (F.round1 v))) in
   (* visibility_m *)
   let* outlier := issue has_issues (F.dec 5 2) in
   let* visibility_m :=
     (if outlier then gret (VInt 50000)
      else let* text := issue has_issues (F.dec 5 2) in
           if text
           then let* s := choice ["Low"; "Very Low"; "High";
                                  "Unknown"]%string in
                gret (VStr s)
           else let* null := issue has_issues (F.dec 1 1) in
                if null then gret VNone
                else let* v := randint 50 10000 in gret (VInt v)) in
   (* weather_condition *)
   let* null := issue has_issues (F.dec 1 1) in
   let* weather_condition :=
     (if null then gret VNone
      else
        let adj_probs :=
          if bool_decide (season = "Winter"%string) then winter_probs
          else if bool_decide (season = "Summer"%string) then summer_probs
          else weather_probs in
        let* s := np_choice EmptyString weather_conditions adj_probs in
        gret (VStr s)) in
   (* air_pressure_hpa *)
   let* null := issue has_issues (F.dec 1 1) in
   let* air_pressure_hpa :=
     (if null then gret VNone
      else let* v := uniform 950 1050 in gret (VFloat (F.round1 v))) in
   gret [weather_id; date_time; city; season_value; temperature_c; humidity;
         rain_mm; wind_speed_kmh; visibility_m; weather_condition;
         air_pressure_hpa])%gen.

(** [generate_weather_data(num_records)], with [fuel] draws for every
    loop of [random.sample]. *)
Definition generate_weather_data `{Shuffle} (fuel : nat) (num_records : nat)
  : Gen (option frame) :=
  (let* df := for_range 0 num_records record in
   add_duplicates_and_shuffle fuel num_records df)%gen.

End WeatherGenerator.

(** ** [Data Generation/traffic_data_generator.py] *)

Module TrafficGenerator.
Import Py Random Generator.

Definition london_areas : list string :=
  ["Camden"; "Chelsea"; "Islington"; "Southwark"; "Kensington";
   "Westminster"; "Greenwich"; "Hackney"; "Lambeth"; "Tower Hamlets";
   "Wandsworth"; "Hammersmith"; "Brent"; "Ealing"; "Hounslow"]%string.

Definition road_conditions : list string :=
  ["Dry"; "Wet"; "Snowy"; "Damaged"]%string.

Definition rush_hour (hour : Z) : bool :=
  ((7 <=? hour) && (hour <=? 9)) || ((17 <=? hour) && (hour <=? 19)).

(** The body of the loop for the record of index [i]: the row of the
    ten values it appends to the columns. *)
Definition record (i : nat) : Gen (list value) :=
  (let base_id := 9000 + Z.of_nat i + 1 in
   let* r := random in
   let has_issues := F.ltb r (F.dec 3 1) in
   (* traffic_id *)
   let* null_id := issue has_issues (F.dec 1 1) in
   let traffic_id := if null_id then VNone else VInt base_id in
   (* date_time *)
   let* minutes := randint 0 59 in
   let* current_date :=
     of_option (Datetime.add start_date (Z.of_nat i) minutes) in
   let* date_time :=
     (if has_issues
      then
        let* rand_choice := random in
        if F.ltb rand_choice (F.dec 5 2) then gret VNone
        else if F.ltb rand_choice (F.dec 1 1)
        then let* s := choice ["TBD"; "2099-00-00 99:99"; "Unknown";
                               "N/A"]%string in
             gret (VStr s)
        else if F.ltb rand_choice (F.dec 2 1)
        then let* s := choice [Datetime.day_first_12h current_date;
                               Datetime.iso_zulu current_date;
                               Datetime.day_month_name current_date] in
             gret (VStr s)
        else gret (VStr (Datetime.standard current_date))
      else gret (VStr (Datetime.standard current_date))) in
   (* city *)
   let* null_city := issue has_issues (F.dec 5 2) in
   let city := if null_city then VNone else VStr "London" in
   (* area *)
   let* null := issue has_issues (F.dec 1 1) in
   let* area :=
     (if null then gret VNone
      else let* s := choice london_areas in gret (VStr s)) in
   (* vehicle_count *)
   let hour := Datetime.hour current_date in
   let* base_vehicles :=
     (if rush_hour hour then randint 1000 5000 else randint 100 2000) in
   let* outlier := issue has_issues (F.dec 5 2) in
   let* vehicle_count :=
     (if outlier then let* v := randint 20000 50000 in gret (VInt v)
      else let* null := issue has_issues (F.dec 1 1) in
           if null then gret VNone else gret (VInt base_vehicles)) in
   (* avg_speed_kmh *)
   let* base_speed :=
     (if 3000 <? base_vehicles then uniform 10 40 else uniform 40 120) in
   let* outlier := issue has_issues (F.dec 5 2) in
   let* avg_speed_kmh :=
     (if outlier then let* v := uniform (-50) (-1) in gret (VFloat v)
      else let* null := issue has_issues (F.dec 1 1) in
           if null then gret VNone
           else gret (VFloat (F.round1 base_speed))) in
   (* accident_count *)
   let* outlier := issue has_issues (F.dec 2 2) in
   let* accident_count :=
     (if outlier then let* v := randint 50 100 in gret (VInt v)
      else let* null := issue has_issues (F.dec 1 1) in
           if null then gret VNone
           else if rush_hour hour
           then let* v := np_choice 0 [0; 1; 2; 3; 4; 5]
                            [F.dec 8 1; F.dec 1 1; F.dec 5 2; F.dec 3 2;
                             F.dec 1 2; F.dec 1 2] in
                gret (VInt v)
           else let* v := np_choice 0 [0; 1; 2; 3]
                            [F.dec 95 2; F.dec 3 2; F.dec 15 3; F.dec 5 3] in
                gret (VInt v)) in
   (* congestion_level *)
   let* null := issue has_issues (F.dec 1 1) in
   let* congestion_level :=
     (if null then gret VNone
      else let* wrong := issue has_issues (F.dec 5 2) in
           if wrong
           then let* s := choice ["Very High"; "Low-Medium"; "Heavy";
                                  "Light"; "Severe"]%string in
                gret (VStr s)
           else if (4000 <? base_vehicles) && F.ltb base_speed (F.of_Z 30)
           then gret (VStr "High")
           else if (2000 <? base_vehicles) && F.ltb base_speed (F.of_Z 50)
           then gret (VStr "Medium")
           else gret (VStr "Low")) in
   (* road_condition *)
   let* null := issue has_issues (F.dec 1 1) in
   let* road_condition :=
     (if null then gret VNone
      else let* s := choice road_conditions in gret (VStr s)) in
   (* visibility_m *)
   let* outlier := issue has_issues (F.dec 5 2) in
   let* visibility_m :=
     (if outlier then let* v := choice [10; 100000] in gret (VInt v)
      else let* null := issue has_issues (F.dec 1 1) in
           if null then gret VNone
           else let* v := randint 50 10000 in gret (VInt v)) in
   gret [traffic_id; date_time; city; area; vehicle_count; avg_speed_kmh;
         accident_count; congestion_level; road_condition; visibility_m])%gen.

(** [generate_traffic_data(num_records)], with [fuel] draws for every
    loop of [random.sample]. *)
Definition generate_traffic_data `{Shuffle} (fuel : nat) (num_records : nat)
  : Gen (option frame) :=
  (let* df := for_range 0 num_records record in
   add_duplicates_and_shuffle fuel num_records df)%gen.

End TrafficGenerator.

(** ** What is said about a generator

    Its outcome (a value, or an exception), and the comparison of two
    runs. *)

Module Run.
Import Py.

(** From every state of the streams [m] returns a value that satisfies
    [Q]: it does not raise. *)
Definition returns {A} (m : Gen A) (Q : A → Prop) : Prop :=
  ∀ g, ∃ a g', m g = Some (a, g') ∧ Q a.

Definition succeeds {A} (m : Gen A) : Prop := returns m (λ _, True).

(** Two states of the streams that deliver the same draws from now on,
    whatever was drawn before. *)
Definition same_draws (g1 g2 : Globals) : Prop :=
  (∀ k, tape (random_state g1) (pos (random_state g1) + k)
        = tape (random_state g2) (pos (random_state g2) + k))
  ∧ (∀ k, NumpyRandom.tape (numpy_state g1)
            (NumpyRandom.pos (numpy_state g1) + k)
          = NumpyRandom.tape (numpy_state g2)
              (NumpyRandom.pos (numpy_state g2) + k)).

(** The outcomes of two runs are the same: both raise, or both return
    the same value and leave streams that deliver the same draws. *)
Definition same_outcome {A} (o1 o2 : option (A * Globals)) : Prop :=
  match o1, o2 with
  | Some (a1, g1), Some (a2, g2) => a1 = a2 ∧ same_draws g1 g2
  | None, None => True
  | _, _ => False
  end.

(** [m] depends on the streams through the draws they deliver only. *)
Definition deterministic {A} (m : Gen A) : Prop :=
  ∀ g1 g2, same_draws g1 g2 → same_outcome (m g1) (m g2).

(** The outcomes of two runs of a computation with a loop agree: a run
    whose loop is still running says nothing; two runs that have ended
    both raised, or returned the same value and left streams that
    deliver the same draws. *)
Definition agree {A} (o1 o2 : option (option A * Globals)) : Prop :=
  match o1, o2 with
  | Some (None, _), _ | _, Some (None, _) => True
  | Some (Some a1, g1), Some (Some a2, g2) => a1 = a2 ∧ same_draws g1 g2
  | None, None => True
  | _, _ => False
  end.

(** Two computations with a loop, for instance the same one with two
    amounts of fuel, agree on the streams that deliver the same
    draws. *)
Definition agreeing {A} (m1 m2 : Gen (option A)) : Prop :=
  ∀ g1 g2, same_draws g1 g2 → agree (m1 g1) (m2 g2).

(** [m] leaves the stream of [random] as it is, but for its position. *)
Definition reads_on {A} (m : Gen A) : Prop :=
  ∀ g a g', m g = Some (a, g') →
    tape (random_state g') = tape (random_state g).

(** A stream of [random] on which every loop of [random.sample] over
    [n] positions ends within [bound] draws: wherever one starts, the
    next [bound] draws, reduced below [n], hold every position. *)
Definition covers (bound n : nat) (g : Globals) : Prop :=
  ∀ (p j : nat), (j < n)%nat →
    ∃ q, (q < bound)%nat
         ∧ Z.of_N (tape (random_state g) (p + q)) mod Z.of_nat n = Z.of_nat j.

(** The number of hourly records whose timestamp still fits
    [datetime]. *)
Definition max_records : Z := 69916176.

End Run.

(** ** Concrete streams and a concrete shuffle for the generators *)

Module GeneratorSamples.
Import Py.

(** A shuffle that lists the positions backwards, whatever the seed. *)
#[global] Instance backwards : Shuffle :=
  {| permutation := λ _ n, reverse (seq 0 n) |}.

Definition constant_stream (k : N) : Globals :=
  {| random_state := {| tape := λ _, k; pos := 0 |};
     numpy_state := {| NumpyRandom.tape := λ _, k; NumpyRandom.pos := 0 |} |}.

(** Every draw of [random.random()] is 0: every record has every issue. *)
Definition all_issues : Globals := constant_stream 0.

(** Every draw of [random.random()] is 1 - 2^-53: no record has an issue. *)
Definition no_issue : Globals := constant_stream (2 ^ 53 - 1).

(** Every stream delivers 0, 1, 2, ... in turn. *)
Definition counting : Globals :=
  {| random_state := {| tape := λ n, N.of_nat n; pos := 0 |};
     numpy_state :=
       {| NumpyRandom.tape := λ n, N.of_nat n; NumpyRandom.pos := 0 |} |}.

(** A family of streams: [scrambled start shift] is at position [start]
    and delivers there the draw that [scrambled 0 0] delivers at position
    [start + shift]. *)
Definition scrambled (start : nat) (shift : nat) : Globals :=
  {| random_state :=
       {| tape := λ n, (11400714819323198485 * N.of_nat (n + shift))%N;
          pos := start |};
     numpy_state :=
       {| NumpyRandom.tape := λ n, (6364136223846793005 * N.of_nat (n + shift))%N;
          NumpyRandom.pos := start |} |}.

End GeneratorSamples.

(** ** numpy's stream, some draws later *)

Module Stream.
Import NumpyRandom.

(** The stream [st] after [n] more draws. *)
Definition advance (n : nat) (st : RandomState) : RandomState :=
  {| tape := tape st; pos := pos st + n |}.

(** The rows of a frame whose label in column [c] is not one of the
    valid ones. *)
Definition invalid {col row} `{Schema col row} (valid : list string)
  (c : col) (df : list row) : list row :=
  filter (λ r, get c r ∉ Pandas.Str <$> valid) df.

End Stream.

(** ** What the generators can write

    The values a record can hold, column by column, read off the
    branches of the two loops. *)

Module Generated.
Import Py Generator.

(** The identifiers of a frame: its first column. *)
Definition ids (df : frame) : list value := (λ row, nth 0 row VNone) <$> df.

(** [d] is a duplicate of the record at position [p] of [base]: a copy
    of it, or a copy whose identifier was overwritten with one of the
    first hundred identifiers. *)
Definition duplicate_of (base : frame) (p : nat) (d : list value) : Prop :=
  ∃ r, base !! p = Some r
       ∧ (d = r ∨ ∃ id, id ∈ take 100 (ids base) ∧ d = <[0%nat := id]> r).

Definition is_float (v : value) : Prop :=
  match v with VFloat _ => True | _ => False end.

Definition int_between (a b : Z) (v : value) : Prop :=
  match v with VInt k => a ≤ k ≤ b | _ => False end.

(** The record of index [i] of the weather generator; [d] is its
    timestamp. *)
Definition weather_record (i : nat) (row : list value) : Prop :=
  let d := start_date + 60 * Z.of_nat i in
  let season := seasons (Datetime.month d) in
  ∃ id dt city season_value temp hum rain wind vis cond pres,
    row = [id; dt; city; season_value; temp; hum; rain; wind; vis; cond; pres]
    ∧ id ∈ [VNone; VInt (5000 + Z.of_nat i + 1)]
    ∧ dt ∈ VNone
           :: (VStr <$> ["2099-13-40 25:61"; "Unknown"; "Invalid Date";
                         Datetime.day_first_12h d; Datetime.iso_zulu d;
                         Datetime.slashes_seconds d; Datetime.standard d]%string)
    ∧ city ∈ [VNone; VStr "London"]
    ∧ season_value
        ∈ VNone :: (VStr <$> ["Monsoon"; "Fall"; "Rainy"; "Dry"; season]%string)
    ∧ (temp ∈ [VInt (-30); VInt 60; VInt 100; VNone] ∨ is_float temp)
    ∧ (hum ∈ [VInt (-10); VInt 150; VInt 200; VNone]
       ∨ (if WeatherGenerator.wet_season season
          then int_between 60 100 hum else int_between 20 80 hum))
    ∧ (rain = VNone ∨ is_float rain)
    ∧ (wind = VNone ∨ is_float wind)
    ∧ (vis ∈ VInt 50000 :: VNone
              :: (VStr <$> ["Low"; "Very Low"; "High"; "Unknown"]%string)
       ∨ int_between 50 10000 vis)
    ∧ cond ∈ VNone :: (VStr <$> WeatherGenerator.weather_conditions)
    ∧ (pres = VNone ∨ is_float pres).

(** The record of index [i] of the traffic generator, whose timestamp
    [d] falls a random number of minutes into the hour. *)
Definition traffic_record (i : nat) (row : list value) : Prop :=
  ∃ minutes, 0 ≤ minutes ≤ 59 ∧
  let d := start_date + 60 * Z.of_nat i + minutes in
  ∃ id dt city area count speed accidents congestion road vis,
    row = [id; dt; city; area; count; speed; accidents; congestion; road; vis]
    ∧ id ∈ [VNone; VInt (9000 + Z.of_nat i + 1)]
    ∧ dt ∈ VNone
           :: (VStr <$> ["TBD"; "2099-00-00 99:99"; "Unknown"; "N/A";
                         Datetime.day_first_12h d; Datetime.iso_zulu d;
                         Datetime.day_month_name d; Datetime.standard d]%string)
    ∧ city ∈ [VNone; VStr "London"]
    ∧ area ∈ VNone :: (VStr <$> TrafficGenerator.london_areas)
    ∧ (count = VNone ∨ int_between 20000 50000 count
       ∨ (if TrafficGenerator.rush_hour (Datetime.hour d)
          then int_between 1000 5000 count else int_between 100 2000 count))
    ∧ (speed = VNone ∨ is_float speed)
    ∧ (accidents = VNone ∨ int_between 50 100 accidents
       ∨ (if TrafficGenerator.rush_hour (Datetime.hour d)
          then int_between 0 5 accidents else int_between 0 3 accidents))
    ∧ congestion
        ∈ VNone :: (VStr <$> ["Very High"; "Low-Medium"; "Heavy"; "Light";
                              "Severe"; "High"; "Medium"; "Low"]%string)
    ∧ road ∈ VNone :: (VStr <$> TrafficGenerator.road_conditions)
    ∧ (vis ∈ [VInt 10; VInt 100000; VNone] ∨ int_between 50 10000 vis).


End Generated.

(** ** [Data Generation/generate_all_data.py] *)

Module GenerateAll.
Import Py Generator.

Definition newline : string := String (ascii_of_nat 10) EmptyString.

(** [s * n] *)
Fixpoint repeat_string (s : string) (n : nat) : string :=
  match n with
  | O => EmptyString
  | S n' => s +:+ repeat_string s n'
  end.

(** [str(n)] for the length of a frame: its decimal digits. *)
Fixpoint digits (fuel : nat) (n : N) (acc : string) : string :=
  match fuel with
  | O => acc
  | S fuel' =>
      let acc := String (ascii_of_N (48 + n mod 10)) acc in
      if (n <? 10)%N then acc else digits fuel' (n / 10) acc
  end.

Definition str (n : nat) : string :=
  digits (S (N.size_nat (N.of_nat n))) (N.of_nat n) EmptyString.

(** What is written to [dataset_summary.txt]. *)
Definition summary (weather_df traffic_df : frame) : string :=
  "Dataset Generation Summary" +:+ newline
  +:+ repeat_string "=" 50 +:+ newline +:+ newline
  +:+ "Weather Dataset: " +:+ str (length weather_df) +:+ " records"
  +:+ newline
  +:+ "Traffic Dataset: " +:+ str (length traffic_df) +:+ " records"
  +:+ newline +:+ newline
  +:+ "Files created:" +:+ newline
  +:+ "1. weather_data_raw.csv" +:+ newline
  +:+ "2. traffic_data_raw.csv" +:+ newline
  +:+ "3. dataset_summary.txt" +:+ newline.

(** [generate_all_data()]: the two frames it returns, and the text of
    the summary file it writes on the way; [None] when a loop of
    [random.sample] is still running after [fuel] draws. *)
Definition generate_all_data `{Shuffle} (fuel : nat)
  : Gen (option (frame * frame * string)) :=
  (let* weather_df := WeatherGenerator.generate_weather_data fuel 5000 in
   match weather_df with
   | None => gret None
   | Some weather_df =>
       let* traffic_df := TrafficGenerator.generate_traffic_data fuel 5000 in
       match traffic_df with
       | None => gret None
       | Some traffic_df =>
           gret (Some (weather_df, traffic_df,
                       summary weather_df traffic_df))
       end
   end)%gen.

End GenerateAll.

(** ** [Phase 5/Monte Carlo.py] *)

(** [np.random.normal(loc, scale)] and the position that
    [DataFrame.sample(n=1, replace=True)] draws in a frame of [n] rows,
    left as an interface: each reads numpy's stream and returns some
    float, or some position. *)
Class NumpySampling := {
  normal : spec_float → spec_float → State NumpyRandom.RandomState spec_float;
  sample_position : nat → State NumpyRandom.RandomState nat
}.

(** [np.mean] and [np.std] of a list of floats, left as an interface. *)
Class NumpyStatistics := {
  np_mean : list spec_float → spec_float;
  np_std : list spec_float → spec_float
}.

Module MonteCarlo.
Import Py NumpyRandom.

(** A row of the frame, as a Series: its labels with their values.
    Only the numeric values are read. *)
Definition series : Type := list (string * spec_float).

(** [sample[label]] *)
Fixpoint getitem (label : string) (sample : series) : option spec_float :=
  match sample with
  | [] => None
  | (l, v) :: sample' =>
      if decide (l = label) then Some v else getitem label sample'
  end.

(** [label in sample and sample[label] > bound] *)
Definition above (label : string) (bound : Z) (sample : series) : bool :=
  match getitem label sample with
  | Some v => F.ltb (F.of_Z bound) v
  | None => false
  end.

(** [label in sample and sample[label] < bound] *)
Definition below (label : string) (bound : Z) (sample : series) : bool :=
  match getitem label sample with
  | Some v => F.ltb v (F.of_Z bound)
  | None => false
  end.

(** [min(a, b)] and [max(a, b)] of Python: the first argument, unless
    the second is smaller, or greater. *)
Definition min (a b : spec_float) : spec_float := if F.ltb b a then b else a.
Definition max (a b : spec_float) : spec_float := if F.ltb a b then b else a.

Section with_numpy.
Context `{NS : NumpySampling}.

Definition calculate_jam_from_sample (sample : series)
  (base_prob adjustment_factor : spec_float)
  : State RandomState spec_float :=
  let prob := F.mul base_prob adjustment_factor in
  let prob :=
    if above "rain_mm" 20 sample then F.mul prob (F.dec 18 1)
    else if above "rain_mm" 10 sample then F.mul prob (F.dec 14 1)
    else prob in
  let prob :=
    if below "temperature_c" 0 sample || above "temperature_c" 30 sample
    then F.mul prob (F.dec 13 1) else prob in
  let prob :=
    if below "visibility_m" 500 sample then F.mul prob (F.dec 15 1)
    else prob in
  let prob :=
    if above "wind_speed_kmh" 60 sample then F.mul prob (F.dec 12 1)
    else prob in
  (let* noise := normal (F.of_Z 0) (F.dec 3 2) in
   let prob := F.add prob noise in
   ret (max (F.dec 1 2) (min prob (F.dec 95 2))))%state.

Definition calculate_accident_from_sample (sample : series)
  (base_prob adjustment_factor : spec_float)
  : State RandomState spec_float :=
  let prob := F.mul base_prob adjustment_factor in
  let prob :=
    if above "rain_mm" 30 sample then F.mul prob (F.of_Z 3)
    else if above "rain_mm" 20 sample then F.mul prob (F.dec 25 1)
    else if above "rain_mm" 10 sample then F.mul prob (F.of_Z 2)
    else prob in
  let prob :=
    if below "visibility_m" 200 sample then F.mul prob (F.dec 25 1)
    else if below "visibility_m" 500 sample then F.mul prob (F.dec 18 1)
    else prob in
  let prob :=
    if above "wind_speed_kmh" 60 sample then F.mul prob (F.dec 15 1)
    else prob in
  (let* noise := normal (F.of_Z 0) (F.dec 1 2) in
   let prob := F.add prob noise in
   ret (max (F.dec 1 3) (min prob (F.dec 5 1))))%state.

End with_numpy.

(** The bounds the two functions promise: [0.01, 0.95] and
    [0.001, 0.5], in the order of the floats. *)
Definition jam_bounds (p : spec_float) : Prop :=
  F.leb (F.dec 1 2) p = true ∧ F.leb p (F.dec 95 2) = true.

Definition accident_bounds (p : spec_float) : Prop :=
  F.leb (F.dec 1 3) p = true ∧ F.leb p (F.dec 5 1) = true.

(** A row of the merged frame after step 2 of [main]: the five weather
    measurements are floats; the congestion level may be missing. *)
Record row := Row {
  temperature_c : spec_float; rain_mm : spec_float; humidity : spec_float;
  wind_speed_kmh : spec_float; visibility_m : spec_float;
  congestion_level : option string; accident_count : spec_float
}.

(** The row as the Series that [.iloc[0]] returns. *)
Definition series_of (r : row) : series :=
  [("temperature_c"%string, temperature_c r); ("humidity"%string, humidity r);
   ("rain_mm"%string, rain_mm r); ("wind_speed_kmh"%string, wind_speed_kmh r);
   ("accident_count"%string, accident_count r);
   ("visibility_m"%string, visibility_m r)].

Definition gt (x : spec_float) (bound : Z) : bool := F.ltb (F.of_Z bound) x.
Definition lt (x : spec_float) (bound : Z) : bool := F.ltb x (F.of_Z bound).
Definition ge (x : spec_float) (bound : Z) : bool := F.leb (F.of_Z bound) x.
Definition le (x : spec_float) (bound : Z) : bool := F.leb x (F.of_Z bound).

(** A scenario: its name, its description and its condition on a row. *)
Record scenario := Scenario {
  name : string; description : string; condition : row → bool
}.

Definition scenarios : list scenario :=
  [Scenario "heavy_rain" "Heavy Rain (> 20mm)" (λ r, gt (rain_mm r) 20);
   Scenario "temperature_extreme_cold" "Extreme Cold (< 0°C)"
     (λ r, lt (temperature_c r) 0);
   Scenario "temperature_extreme_hot" "Extreme Heat (> 30°C)"
     (λ r, gt (temperature_c r) 30);
   Scenario "high_humidity" "High Humidity (> 85%)"
     (λ r, gt (humidity r) 85);
   Scenario "low_visibility" "Low Visibility (< 500m)"
     (λ r, lt (visibility_m r) 500);
   Scenario "strong_winds" "Strong Winds (> 60 km/h)"
     (λ r, gt (wind_speed_kmh r) 60);
   Scenario "normal_conditions" "Normal Conditions"
     (λ r, ge (temperature_c r) 10 && le (temperature_c r) 25
           && lt (rain_mm r) 5 && le (humidity r) 70
           && lt (wind_speed_kmh r) 30 && gt (visibility_m r) 1000)].

Definition n_simulations : nat := 5000.

(** One line of the results. *)
Record result := Result {
  result_scenario : string; result_description : string;
  n_actual_records : nat;
  avg_traffic_jam_prob : spec_float; std_traffic_jam_prob : spec_float;
  avg_accident_prob : spec_float; std_accident_prob : spec_float
}.

Section main.
Context `{NS : NumpySampling} `{NT : NumpyStatistics}.

(** Step 3 of [main]: the baseline probabilities. *)
Definition base_jam_prob (df : list row) : spec_float :=
  let total_records := length df in
  let jam_count :=
    length (filter (λ r, congestion_level r = Some "High"%string) df) in
  if (0 <? total_records)%nat
  then F.div (F.of_Z (Z.of_nat jam_count)) (F.of_Z (Z.of_nat total_records))
  else F.dec 15 2.

Definition base_accident_prob (df : list row) : spec_float :=
  let total_records := length df in
  let accident_count :=
    length (List.filter (λ r, gt (accident_count r) 0) df) in
  if (0 <? total_records)%nat
  then F.div (F.of_Z (Z.of_nat accident_count))
         (F.of_Z (Z.of_nat total_records))
  else F.dec 5 2.

(** [simulation_data.sample(n=1, replace=True).iloc[0]] on a frame
    that is not empty. *)
Definition sample_row (first : row) (rest : list row)
  : State RandomState row :=
  (let* k := sample_position (S (length rest)) in
   ret (nth k (first :: rest) first))%state.

(** The loop [for i in range(n_simulations)] of one scenario: the two
    lists of probabilities it appends to. *)
Fixpoint trials (n : nat) (simulation_data : list row)
  (base_jam base_accident adjustment_factor : spec_float)
  : State RandomState (list spec_float * list spec_float) :=
  match n with
  | O => ret ([], [])
  | S n' =>
      match simulation_data with
      | first :: rest =>
          (let* r := sample_row first rest in
           let sample := series_of r in
           let* jam_prob :=
             calculate_jam_from_sample sample base_jam adjustment_factor in
           let* accident_prob :=
             calculate_accident_from_sample sample base_accident
               adjustment_factor in
           let* probs :=
             trials n' simulation_data base_jam base_accident
               adjustment_factor in
           ret (jam_prob :: probs.1, accident_prob :: probs.2))%state
      | [] =>
          trials n' simulation_data base_jam base_accident
            adjustment_factor
      end
  end.

(** The body of [for scenario in scenarios]. *)
Definition simulate (df : list row) (base_jam base_accident : spec_float)
  (sc : scenario) : State RandomState result :=
  let scenario_data := List.filter (condition sc) df in
  let '(simulation_data, adjustment_factor) :=
    if (length scenario_data <? 10)%nat then (df, F.dec 15 1)
    else (scenario_data, F.of_Z 1) in
  (let* probs :=
     trials n_simulations simulation_data base_jam base_accident
       adjustment_factor in
   let '(jam_probs, accident_probs) := probs in
   let '(avg_jam, std_jam, avg_accident, std_accident) :=
     match jam_probs with
     | _ :: _ =>
         (np_mean jam_probs, np_std jam_probs, np_mean accident_probs,
          np_std accident_probs)
     | [] =>
         (F.mul base_jam adjustment_factor, F.dec 1 1,
          F.mul base_accident adjustment_factor, F.dec 5 2)
     end in
   ret (Result (name sc) (description sc) (length scenario_data)
          avg_jam std_jam avg_accident std_accident))%state.

(** Steps 3 to 5 of [main], on the frame that step 2 prepared. *)
Definition simulation (df : list row) : State RandomState (list result) :=
  series_apply (simulate df (base_jam_prob df) (base_accident_prob df))
    scenarios.

End main.

End MonteCarlo.

(** ** [Phase 6/Factor analysis.py]: the choice of the features *)

Module FactorAnalysis.
Import Pandas DataFrame.

Definition feature_mapping : list (string * list string) :=
  [("temperature", ["temperature_c"; "temp"; "temperature"]);
   ("humidity", ["humidity"]);
   ("rain", ["rain_mm"; "rain"; "rainfall"]);
   ("wind_speed", ["wind_speed_kmh"; "wind_speed"; "wind"]);
   ("visibility", ["visibility_m"; "visibility"]);
   ("air_pressure", ["air_pressure_hpa"; "air_pressure"; "pressure"]);
   ("vehicle_count", ["vehicle_count"; "vehicles"]);
   ("average_speed", ["avg_speed_kmh"; "avg_speed"; "speed"]);
   ("accident_count", ["accident_count"; "accidents"])]%string.

(** The inner loop [for col in possible_cols]: the first candidate that
    is a column of the frame, where the loop breaks. *)
Fixpoint find_column (df : frame) (possible_cols : list string)
  : option string :=
  match possible_cols with
  | [] => None
  | col :: possible_cols' =>
      if has_column col df then Some col else find_column df possible_cols'
  end.

(** The outer loop: [selected_features], in the order of the mapping. *)
Fixpoint select (df : frame) (mapping : list (string * list string))
  : list (string * string) :=
  match mapping with
  | [] => []
  | (feature_name, possible_cols) :: mapping' =>
      match find_column df possible_cols with
      | Some col => (feature_name, col) :: select df mapping'
      | None => select df mapping'
      end
  end.

Definition selected_features (df : frame) : list (string * string) :=
  select df feature_mapping.

(** [selected_data]: one column per selected feature, named after the
    feature, with the values of the column that was found. *)
Definition selected_data (df : frame) : frame :=
  Frame (index df)
    ((λ fc, (fc.1, default [] (getitem fc.2 df))) <$> selected_features df)
    (fst <$> filter (λ fc, is_aware fc.2 df = true) (selected_features df)).

End FactorAnalysis.

(** ** The frames between the steps of the cleanup of the merge *)

Module Cleanup.
Import Pandas DataFrame.

Definition traffic_side : list Traffic.column :=
  [Traffic.traffic_id; Traffic.date_time; Traffic.area;
   Traffic.vehicle_count; Traffic.avg_speed_kmh; Traffic.accident_count;
   Traffic.congestion_level; Traffic.road_condition; Traffic.visibility_m].

(** After the helper column [hour] is dropped. *)
Definition without_hour (n : nat) (weather_tz traffic_tz : bool)
  (wd : Weather.column → list cell)
  (td : Traffic.column → list cell) : frame :=
  Frame n
    (((λ c, (Expected.merged_weather_name c, wd c)) <$> Weather.columns)
     ++ ((λ c, (Expected.merged_traffic_name c, td c)) <$> traffic_side))
    ((if weather_tz then ["date_time_weather"%string] else [])
     ++ (if traffic_tz then ["date_time_traffic"%string] else [])).

(** After the timestamp of the traffic side is dropped and the one of
    the weather side is renamed. *)
Definition one_date_time (n : nat) (weather_tz : bool)
  (wd : Weather.column → list cell)
  (td : Traffic.column → list cell) : frame :=
  Frame n
    (((λ c, (if decide (c = Weather.visibility_m)
             then "visibility_m_weather"%string else Weather.name c, wd c))
        <$> Weather.columns)
     ++ ((λ c, (Expected.merged_traffic_name c, td c))
           <$> filter (λ c, c ≠ Traffic.date_time) traffic_side))
    (if weather_tz then ["date_time"%string] else []).

(** After the two visibilities are replaced by the one of the weather
    side, in a new last column. *)
Definition one_visibility (n : nat) (weather_tz : bool)
  (wd : Weather.column → list cell)
  (td : Traffic.column → list cell) : frame :=
  Frame n
    (((λ c, (Weather.name c, wd c))
        <$> filter (λ c, c ≠ Weather.visibility_m) Weather.columns)
     ++ ((λ c, (Traffic.name c, td c))
           <$> filter (λ c, c ≠ Traffic.date_time
                            ∧ c ≠ Traffic.visibility_m) traffic_side)
     ++ [("visibility_m"%string, resize n NA (wd Weather.visibility_m))])
    (if weather_tz then ["date_time"%string] else []).

End Cleanup.

(** ** From the cleaner to the merge

    The cleaned files are written as Parquet and read back by the merge:
    the rows, and the dtype of the [date_time] column, which is the one
    [pd.to_datetime(..., errors='coerce')] gave it from the text of the
    raw file, once the duplicates were removed. *)

Module Cleaned.
Import Pandas Frame.

Section with_parsers.
Context `{P : Parsers}.

Definition weather_aware (weather_raw : list Weather.row) : bool :=
  parse_aware (series Weather.date_time (drop_duplicates weather_raw)).

Definition traffic_aware (traffic_raw : list Traffic.row) : bool :=
  parse_aware (series Traffic.date_time (drop_duplicates traffic_raw)).

(** Phase 2 followed by Phase 4 on two raw frames. *)
Definition merge_cleaned (weather_raw : list Weather.row)
  (traffic_raw : list Traffic.row)
  : State NumpyRandom.RandomState (option DataFrame.frame) :=
  (let* cleaned := Cleaning.main weather_raw traffic_raw in
   ret (Merge.main (weather_aware weather_raw) cleaned.1
          (traffic_aware traffic_raw) cleaned.2))%state.

End with_parsers.
End Cleaned.

(* ===================================================================== *)
(** * Part II: lemmas and theorems                                        *)
(* ===================================================================== *)

(** ** Rows and frames *)

(** Reading and writing the fields of a row. *)
Class SchemaLaws (col row : Type) `{Schema col row} `{EqDecision col} : Prop := {
  get_set_eq c v r : get c (set c v r) = v;
  get_set_ne c c' v r : c ≠ c' → get c (set c' v r) = get c r;
  set_get c r : set c (get c r) r = r
}.

#[global] Instance weather_schema_laws : SchemaLaws Weather.column Weather.row.
Proof.
  split.
  - by intros [] v [].
  - by intros [] [] v [] ?.
  - by intros [] [].
Qed.

#[global] Instance traffic_schema_laws : SchemaLaws Traffic.column Traffic.row.
Proof.
  split.
  - by intros [] v [].
  - by intros [] [] v [] ?.
  - by intros [] [].
Qed.

Section frame_facts.
Import Pandas Frame.
Context {col row : Type} `{Laws : SchemaLaws col row}.
Implicit Types (df : list row) (s : list cell) (c : col).

Lemma length_assign c s df : length (assign c s df) = length df.
Proof. revert s; induction df as [|r df IH]; intros [|v s]; simpl; auto. Qed.

Lemma length_series c df : length (series c df) = length df.
Proof. unfold series. by rewrite length_fmap. Qed.

Lemma series_assign_eq c s df :
  length s = length df → series c (assign c s df) = s.
Proof.
  revert s; induction df as [|r df IH]; intros [|v s] Hl; simpl in *;
    try done.
  rewrite get_set_eq. f_equal. apply IH. lia.
Qed.

Lemma series_assign_ne c c' s df :
  c ≠ c' → series c (assign c' s df) = series c df.
Proof.
  intros Hne. revert s; induction df as [|r df IH]; intros [|v s]; simpl;
    try done; rewrite get_set_ne by done; f_equal; apply IH.
Qed.

Lemma assign_series c df : assign c (series c df) df = df.
Proof. induction df as [|r df IH]; simpl; [done|]. by rewrite set_get, IH. Qed.

Lemma series_assign_scalar_eq c v df :
  series c (assign_scalar c v df) = replicate (length df) v.
Proof.
  induction df as [|r df IH]; simpl; [done|]. rewrite get_set_eq. f_equal. apply IH.
Qed.

Lemma series_assign_scalar_ne c c' v df :
  c ≠ c' → series c (assign_scalar c' v df) = series c df.
Proof.
  intros Hne. induction df as [|r df IH]; simpl; [done|].
  rewrite get_set_ne by done. f_equal. apply IH.
Qed.

Lemma length_assign_scalar c v df : length (assign_scalar c v df) = length df.
Proof. unfold assign_scalar. by rewrite length_fmap. Qed.

Lemma assign_scalar_id c v df :
  Forall (λ r, get c r = v) df → assign_scalar c v df = df.
Proof.
  induction 1 as [|r df Hr _ IH]; simpl; [done|].
  rewrite <- Hr at 1. rewrite set_get. f_equal. apply IH.
Qed.

(** An element of a column belongs to a row of the frame, and conversely. *)
Lemma elem_of_series c df v : v ∈ series c df ↔ ∃ r, r ∈ df ∧ get c r = v.
Proof. unfold series. rewrite list_elem_of_fmap. naive_solver. Qed.

Lemma Forall_series (Q : cell → Prop) c df :
  Forall Q (series c df) ↔ Forall (λ r, Q (get c r)) df.
Proof. unfold series. by rewrite Forall_fmap. Qed.

(** *** [drop_duplicates] *)

Lemma drop_duplicates_from_spec seen df r :
  r ∈ drop_duplicates_from seen df ↔ r ∈ df ∧ r ∉ seen.
Proof.
  revert seen; induction df as [|x df IH]; intros seen; simpl.
  - rewrite elem_of_nil. naive_solver.
  - destruct (decide (x ∈ seen)) as [Hin|Hnin].
    + rewrite IH, elem_of_cons. naive_solver.
    + rewrite elem_of_cons, IH, !elem_of_cons.
      destruct (decide (r = x)); naive_solver.
Qed.

Lemma drop_duplicates_from_NoDup seen df : NoDup (drop_duplicates_from seen df).
Proof.
  revert seen; induction df as [|x df IH]; intros seen; simpl.
  - constructor.
  - destruct (decide (x ∈ seen)); [apply IH|].
    constructor; [|apply IH].
    rewrite drop_duplicates_from_spec, elem_of_cons. naive_solver.
Qed.

Lemma elem_of_drop_duplicates df r : r ∈ drop_duplicates df ↔ r ∈ df.
Proof.
  unfold drop_duplicates. rewrite drop_duplicates_from_spec, elem_of_nil.
  naive_solver.
Qed.

Lemma NoDup_drop_duplicates df : NoDup (drop_duplicates df).
Proof. apply drop_duplicates_from_NoDup. Qed.

Lemma drop_duplicates_from_id seen df :
  NoDup df → (∀ r, r ∈ df → r ∉ seen) → drop_duplicates_from seen df = df.
Proof.
  intros Hnd; revert seen; induction Hnd as [|x df Hx Hnd IH]; intros seen Hs;
    simpl; [done|].
  destruct (decide (x ∈ seen)) as [Hin|_].
  - exfalso. apply (Hs x); [left|done].
  - f_equal. apply IH. intros r Hr. rewrite elem_of_cons.
    intros [->|Hin]; [done|]. apply (Hs r); [by right|done].
Qed.

Lemma drop_duplicates_id df : NoDup df → drop_duplicates df = df.
Proof.
  intros. apply drop_duplicates_from_id; [done|]. intros r _. apply not_elem_of_nil.
Qed.

Lemma drop_duplicates_idemp df :
  drop_duplicates (drop_duplicates df) = drop_duplicates df.
Proof. apply drop_duplicates_id, NoDup_drop_duplicates. Qed.

Lemma length_drop_duplicates_from seen df :
  (length (drop_duplicates_from seen df) ≤ length df)%nat.
Proof.
  revert seen; induction df as [|x df IH]; intros seen; simpl; [lia|].
  destruct (decide (x ∈ seen)); simpl; [specialize (IH seen)|specialize (IH (x :: seen))]; lia.
Qed.

(** *** [dropna] *)

Lemma elem_of_dropna cs df r :
  r ∈ dropna cs df ↔ r ∈ df ∧ ∀ c, c ∈ cs → get c r ≠ NA.
Proof.
  unfold dropna, complete. rewrite list_elem_of_filter, Forall_forall.
  tauto.
Qed.

Lemma length_dropna cs df : (length (dropna cs df) ≤ length df)%nat.
Proof. apply length_filter. Qed.

Lemma dropna_id cs df :
  Forall (λ r, ∀ c, c ∈ cs → get c r ≠ NA) df → dropna cs df = df.
Proof.
  intros Hall. unfold dropna. induction Hall as [|r df Hr _ IH]; [done|].
  rewrite filter_cons_True; [by rewrite IH|].
  unfold complete. by apply Forall_forall.
Qed.

End frame_facts.

Section update_facts.
Import Pandas Frame.
Context {col row : Type} `{Laws : SchemaLaws col row}.
Implicit Types (df : list row) (s : list cell) (c : col).

Lemma series_assign c s df :
  series c (assign c s df) = resize (length df) NA s.
Proof.
  revert s; induction df as [|r df IH]; intros [|v s]; simpl; try done.
  - rewrite get_set_eq. f_equal. by rewrite (IH []), resize_nil.
  - rewrite get_set_eq. f_equal. apply IH.
Qed.

Lemma length_update c f df : length (update c f df) = length df.
Proof. apply length_assign. Qed.

Lemma series_update_ne c c' f df :
  c ≠ c' → series c (update c' f df) = series c df.
Proof. apply series_assign_ne. Qed.

(** [df[c] = df[c].map(g)] rewrites the column element by element. *)
Lemma series_update_fmap c (g : cell → cell) df :
  series c (update c (fmap g) df) = g <$> series c df.
Proof.
  unfold update. rewrite series_assign_eq; [done|].
  by rewrite length_fmap, length_series.
Qed.

Lemma update_fmap_id c (g : cell → cell) df :
  Forall (λ r, g (get c r) = get c r) df → update c (fmap g) df = df.
Proof.
  intros Hall. unfold update.
  replace (g <$> series c df) with (series c df); [apply assign_series|].
  unfold series. induction Hall as [|r df' Hr _ IH]; simpl; [done|].
  f_equal; [by rewrite Hr|exact IH].
Qed.

Lemma length_update_rows c f df : length (update_rows c f df) = length df.
Proof. apply length_assign. Qed.

Lemma series_update_rows_ne c c' f df :
  c ≠ c' → series c (update_rows c' f df) = series c df.
Proof. apply series_assign_ne. Qed.

Lemma series_update_rows_eq c f df :
  series c (update_rows c f df) = f <$> df.
Proof.
  unfold update_rows, frame_apply. rewrite series_assign_eq; [done|].
  by rewrite length_fmap.
Qed.

Lemma Forall_update_rows (Q : row → Prop) c f df :
  Forall (λ r, Q (set c (f r) r)) df → Forall Q (update_rows c f df).
Proof.
  unfold update_rows, frame_apply.
  induction 1 as [|r df' Hr _ IH]; [constructor|].
  cbn [fmap list_fmap assign]. by constructor.
Qed.

Lemma update_rows_id c f df :
  Forall (λ r, f r = get c r) df → update_rows c f df = df.
Proof.
  intros Hall. unfold update_rows, frame_apply.
  replace (f <$> df) with (series c df); [apply assign_series|].
  unfold series. induction Hall as [|r df' Hr _ IH]; simpl; [done|].
  f_equal; [by rewrite Hr|exact IH].
Qed.

(** *** Columns repaired with random draws *)

Lemma length_series_apply {S A B} (f : A → State S B) l st :
  length (series_apply f l st).1 = length l.
Proof.
  revert st; induction l as [|x l IH]; intros st; simpl; [done|].
  unfold bind. destruct (f x st) as [y st1].
  specialize (IH st1). destruct (series_apply f l st1) as [ys st2].
  simpl in *. by rewrite IH.
Qed.

Lemma series_apply_Forall {S A B} (f : A → State S B) (Q : B → Prop) l st :
  (∀ x st', Q (f x st').1) → Forall Q (series_apply f l st).1.
Proof.
  intros Hf. revert st; induction l as [|x l IH]; intros st; simpl.
  - constructor.
  - unfold bind. pose proof (Hf x st) as Hx. destruct (f x st) as [y st1].
    specialize (IH st1). destruct (series_apply f l st1) as [ys st2].
    by constructor.
Qed.

Lemma series_apply_id {S A} (f : A → State S A) l st :
  Forall (λ x, ∀ st', f x st' = (x, st')) l → series_apply f l st = (l, st).
Proof.
  intros Hall. revert st; induction Hall as [|x l Hx _ IH]; intros st; simpl.
  - done.
  - unfold bind. by rewrite Hx, IH.
Qed.

Lemma length_update_apply {S} c (f : cell → State S cell) df st :
  length (update_apply c f df st).1 = length df.
Proof.
  unfold update_apply, bind, ret.
  destruct (series_apply f (series c df) st) as [s st']. simpl.
  apply length_assign.
Qed.

Lemma series_update_apply_ne {S} c c' (f : cell → State S cell) df st :
  c ≠ c' → series c (update_apply c' f df st).1 = series c df.
Proof.
  intros Hne. unfold update_apply, bind, ret.
  destruct (series_apply f (series c' df) st) as [s st']. simpl.
  by apply series_assign_ne.
Qed.

Lemma series_update_apply_eq {S} c (f : cell → State S cell) df st :
  series c (update_apply c f df st).1 = (series_apply f (series c df) st).1.
Proof.
  unfold update_apply, bind, ret.
  pose proof (length_series_apply f (series c df) st) as Hl.
  destruct (series_apply f (series c df) st) as [s st']. simpl in *.
  apply series_assign_eq. by rewrite Hl, length_series.
Qed.

Lemma update_apply_id {S} c (f : cell → State S cell) df st :
  Forall (λ r, ∀ st', f (get c r) st' = (get c r, st')) df →
  update_apply c f df st = (df, st).
Proof.
  intros Hall. unfold update_apply, bind, ret.
  rewrite series_apply_id.
  - by rewrite assign_series.
  - by apply Forall_series.
Qed.

End update_facts.

(** ** The repair policies of the cleaner, one element at a time *)

Section policies.
Import Pandas NumpyRandom Cleaning.

Lemma f64_leb_refl x : f64_leb x x = true.
Proof. destruct x; simpl; try done. by apply bool_decide_eq_true. Qed.

(** [clip] returns a value of the interval. *)
Lemma clamp_bounds lo hi x :
  f64_leb lo hi = true →
  f64_leb lo (clamp lo hi x) = true ∧ f64_leb (clamp lo hi x) hi = true.
Proof.
  intros Hlh. unfold clamp, f64_ltb.
  destruct (f64_leb lo x) eqn:Hlo; simpl.
  - destruct (f64_leb x hi) eqn:Hhi; simpl; [done|].
    split; [done|apply f64_leb_refl].
  - split; [apply f64_leb_refl|done].
Qed.

(** [clip] leaves a value of the interval alone. *)
Lemma clamp_id lo hi x :
  f64_leb lo x = true → f64_leb x hi = true → clamp lo hi x = x.
Proof. intros Hlo Hhi. unfold clamp, f64_ltb. by rewrite Hlo, Hhi. Qed.

Lemma of_Z_leb a b : a ≤ b → f64_leb (of_Z a) (of_Z b) = true.
Proof.
  intros Hab. unfold of_Z, f64_leb. apply bool_decide_eq_true.
  by apply (proj1 (Z2Qc_inj_le a b)).
Qed.

Lemma within_clip lo hi c `{P : Parsers} :
  lo ≤ hi → Domain.within lo hi (clip_cell lo hi (to_numeric_cell c)) = true.
Proof.
  intros Hlh. pose proof (of_Z_leb _ _ Hlh) as Hle.
  destruct c as [|x|s|t]; cbn [to_numeric_cell clip_cell Domain.within];
    try done.
  - destruct (clamp_bounds _ _ x Hle) as [-> ->]. done.
  - destruct (parse_float s) as [x|]; cbn [clip_cell Domain.within]; [|done].
    destruct (clamp_bounds _ _ x Hle) as [-> ->]. done.
Qed.

Lemma clip_cell_within lo hi c :
  Domain.within lo hi c = true → clip_cell lo hi c = c.
Proof.
  destruct c as [|x|s|t]; cbn [clip_cell Domain.within]; try done.
  intros [Hlo Hhi]%andb_true_iff. by rewrite clamp_id.
Qed.

Lemma to_numeric_cell_within lo hi c `{P : Parsers} :
  Domain.within lo hi c = true → to_numeric_cell c = c.
Proof. by destruct c. Qed.

(** A label that is kept or drawn is a valid label. *)
Lemma choice_valid valid st :
  valid ≠ [] → (choice valid st).1 ∈ valid.
Proof.
  intros Hne. unfold choice, bind, ret, draw. simpl.
  apply list_elem_of_In, nth_In.
  assert (N.of_nat (length valid) ≠ 0%N) as Hlen by (by destruct valid).
  pose proof (N.mod_upper_bound (tape st (pos st)) _ Hlen). lia.
Qed.

Lemma keep_or_choice_valid valid x st :
  valid ≠ [] → (keep_or_choice valid x st).1 ∈ Str <$> valid.
Proof.
  intros Hne. unfold keep_or_choice.
  destruct (decide (x ∈ Str <$> valid)) as [Hin|Hnin]; [done|].
  unfold bind, ret. pose proof (choice_valid valid st Hne) as Hc.
  destruct (choice valid st) as [v st']. simpl in *.
  by apply list_elem_of_fmap_2.
Qed.

Lemma keep_or_choice_id valid x st :
  x ∈ Str <$> valid → keep_or_choice valid x st = (x, st).
Proof. intros Hin. unfold keep_or_choice. by rewrite decide_True. Qed.

(** The season of a row with a timestamp is one of the four. *)
Lemma get_season_valid t : get_season (Time t) ∈ Str <$> valid_seasons.
Proof.
  unfold get_season, valid_seasons. simpl.
  repeat case_bool_decide;
    repeat first [apply list_elem_of_here | apply list_elem_of_further].
Qed.

Lemma season_of_row_valid r t :
  get Weather.date_time r = Time t →
  season_of_row r ∈ Str <$> valid_seasons.
Proof.
  intros Ht. unfold season_of_row.
  destruct (notna _ && bool_decide _) eqn:Hs.
  - apply andb_true_iff in Hs as [_ Hin]. by apply bool_decide_eq_true in Hin.
  - rewrite Ht. apply get_season_valid.
Qed.

Lemma season_of_row_id r :
  get Weather.season r ∈ Str <$> valid_seasons →
  season_of_row r = get Weather.season r.
Proof.
  intros Hin. unfold season_of_row.
  rewrite (bool_decide_eq_true_2 _ Hin).
  destruct (get Weather.season r); simpl; try done.
  by apply list_elem_of_fmap in Hin as (? & ? & ?).
Qed.

End policies.

(** ** The cleaner, column by column *)

Lemma run_bind {S A B} (m : State S A) (k : A → State S B) s :
  bind m k s = k (m s).1 (m s).2.
Proof. unfold bind. by destruct (m s). Qed.

Section column_rewrites.
Import Pandas Frame.
Context {col row : Type} `{Laws : SchemaLaws col row} `{P : Parsers}.
Implicit Types (df : list row) (c : col).

Lemma series_update_to_numeric c df :
  series c (update c to_numeric df) = to_numeric_cell <$> series c df.
Proof. apply series_update_fmap. Qed.

Lemma series_update_clip c lo hi df :
  series c (update c (clip lo hi) df) = clip_cell lo hi <$> series c df.
Proof. apply series_update_fmap. Qed.

Lemma series_update_to_datetime c df :
  series c (update c to_datetime_coerce df)
  = resize (length df) NA (to_datetime_coerce (series c df)).
Proof. apply series_assign. Qed.

Lemma to_datetime_coerce_typed (s : list cell) n :
  Forall datetime_typed (resize n NA (to_datetime_coerce s)).
Proof.
  apply Forall_resize; [done|].
  unfold to_datetime_coerce. apply Forall_fmap, Forall_true. by intros [t|].
Qed.

Lemma to_datetime_coerce_id `{!ParsersLaws P} (s : list cell) :
  Forall (λ x, Domain.timestamp x = true) s → to_datetime_coerce s = s.
Proof.
  intros Hall. unfold to_datetime_coerce. rewrite parse_datetimes_typed.
  - induction Hall as [|x s' Hx _ IH]; simpl; [done|].
    f_equal; [by destruct x|exact IH].
  - eapply Forall_impl; [exact Hall|]. by intros [].
Qed.

Lemma to_datetime_coerce_length `{!ParsersLaws P} (s : list cell) :
  length (to_datetime_coerce s) = length s.
Proof. unfold to_datetime_coerce. by rewrite length_fmap, parse_datetimes_length. Qed.

End column_rewrites.

(** Rewriting a column of a frame through the steps of the cleaner. *)
Ltac frame_step :=
  first
    [ rewrite series_update_to_numeric
    | rewrite series_update_clip
    | rewrite series_update_to_datetime
    | rewrite series_update_apply_eq
    | rewrite series_update_rows_eq
    | rewrite series_assign_scalar_eq
    | rewrite series_update_ne by done
    | rewrite series_update_apply_ne by done
    | rewrite series_update_rows_ne by done
    | rewrite series_assign_scalar_ne by done
    | rewrite length_update
    | rewrite length_update_apply
    | rewrite length_update_rows
    | rewrite length_assign_scalar ].

Ltac frame_simpl := repeat frame_step.

Section weather_columns.
Import Pandas Frame NumpyRandom Cleaning.
Context `{P : Parsers}.
Implicit Types (raw : list Weather.row) (st : RandomState).

Lemma clean_weather_dropna raw st :
  (clean_weather raw st).1
  = dropna [Weather.date_time; Weather.temperature_c] (repair_weather raw st).1.
Proof. unfold clean_weather. by rewrite run_bind. Qed.

Lemma repair_weather_length raw st :
  length (repair_weather raw st).1 = length (drop_duplicates raw).
Proof.
  unfold repair_weather. rewrite run_bind. unfold ret. cbn [fst].
  by frame_simpl.
Qed.

(** A numeric column of the repaired frame is the raw column, read as
    numbers and clipped. *)
Lemma repair_weather_numeric c lo hi raw st :
  Domain.weather_bounds c = Some (lo, hi) →
  series c (repair_weather raw st).1
  = clip_cell lo hi <$> (to_numeric_cell <$> series c (drop_duplicates raw)).
Proof.
  intros Hb. destruct c; cbn in Hb; simplify_eq;
    unfold repair_weather; rewrite run_bind; unfold ret; cbn [fst];
    by frame_simpl.
Qed.

Lemma repair_weather_date_time raw st :
  series Weather.date_time (repair_weather raw st).1
  = resize (length (drop_duplicates raw)) NA
      (to_datetime_coerce (series Weather.date_time (drop_duplicates raw))).
Proof.
  unfold repair_weather. rewrite run_bind. unfold ret. cbn [fst].
  by frame_simpl.
Qed.

Lemma repair_weather_condition raw st :
  Forall (λ r, get Weather.weather_condition r ∈ Str <$> valid_conditions)
    (repair_weather raw st).1.
Proof.
  apply (Forall_series (λ v, v ∈ Str <$> valid_conditions)).
  unfold repair_weather. rewrite run_bind. unfold ret. cbn [fst].
  frame_simpl. apply series_apply_Forall.
  intros x st'. by apply keep_or_choice_valid.
Qed.

Lemma repair_weather_city raw st :
  Forall (λ r, get Weather.city r = Str "London") (repair_weather raw st).1.
Proof.
  apply (Forall_series (λ v, v = Str "London")).
  unfold repair_weather. rewrite run_bind. unfold ret. cbn [fst].
  frame_simpl. by apply Forall_replicate.
Qed.

(** A repaired row has a valid season unless it has no timestamp. *)
Lemma repair_weather_season raw st :
  Forall (λ r, get Weather.date_time r = NA
               ∨ get Weather.season r ∈ Str <$> valid_seasons)
    (repair_weather raw st).1.
Proof.
  pose proof (repair_weather_date_time raw st) as Hdate.
  revert Hdate.
  unfold repair_weather. rewrite run_bind. unfold ret. cbn [fst].
  set (df := assign_scalar _ _ _). intros Hdate.
  rewrite series_update_rows_ne in Hdate by done.
  assert (Forall (λ r, datetime_typed (get Weather.date_time r)) df) as Htyped.
  { apply (Forall_series datetime_typed). rewrite Hdate.
    apply to_datetime_coerce_typed. }
  clear Hdate. apply Forall_update_rows.
  eapply Forall_impl; [exact Htyped|]. intros r Hr. cbn beta in *.
  rewrite get_set_eq, get_set_ne by done.
  destruct (get Weather.date_time r) as [| | |t] eqn:Ht; try done; [by left|].
  right. by eapply season_of_row_valid.
Qed.

End weather_columns.

Section traffic_columns.
Import Pandas Frame NumpyRandom Cleaning.
Context `{P : Parsers}.
Implicit Types (raw : list Traffic.row) (st : RandomState).

Lemma clean_traffic_dropna raw st :
  (clean_traffic raw st).1
  = dropna [Traffic.date_time; Traffic.area; Traffic.vehicle_count]
      (repair_traffic raw st).1.
Proof. unfold clean_traffic. by rewrite run_bind. Qed.

Ltac run_repair_traffic :=
  unfold repair_traffic; rewrite !run_bind; unfold ret; cbn [fst].

Lemma repair_traffic_length raw st :
  length (repair_traffic raw st).1 = length (drop_duplicates raw).
Proof. run_repair_traffic. by frame_simpl. Qed.

Lemma repair_traffic_numeric c lo hi raw st :
  Domain.traffic_bounds c = Some (lo, hi) →
  series c (repair_traffic raw st).1
  = clip_cell lo hi <$> (to_numeric_cell <$> series c (drop_duplicates raw)).
Proof.
  intros Hb. destruct c; cbn in Hb; simplify_eq; run_repair_traffic;
    by frame_simpl.
Qed.

Lemma repair_traffic_date_time raw st :
  series Traffic.date_time (repair_traffic raw st).1
  = resize (length (drop_duplicates raw)) NA
      (to_datetime_coerce (series Traffic.date_time (drop_duplicates raw))).
Proof. run_repair_traffic. by frame_simpl. Qed.

(** After the repair of the [area] column every area is a valid one. *)
Lemma repair_traffic_area raw st :
  Forall (λ r, get Traffic.area r ∈ Str <$> valid_areas)
    (repair_traffic raw st).1.
Proof.
  apply (Forall_series (λ v, v ∈ Str <$> valid_areas)).
  run_repair_traffic. frame_simpl. apply series_apply_Forall.
  intros x st'. by apply keep_or_choice_valid.
Qed.

Lemma repair_traffic_congestion raw st :
  Forall (λ r, get Traffic.congestion_level r ∈ Str <$> valid_congestion)
    (repair_traffic raw st).1.
Proof.
  apply (Forall_series (λ v, v ∈ Str <$> valid_congestion)).
  run_repair_traffic. frame_simpl. apply series_apply_Forall.
  intros x st'. by apply keep_or_choice_valid.
Qed.

Lemma repair_traffic_road raw st :
  Forall (λ r, get Traffic.road_condition r ∈ Str <$> valid_road)
    (repair_traffic raw st).1.
Proof.
  apply (Forall_series (λ v, v ∈ Str <$> valid_road)).
  run_repair_traffic. frame_simpl. apply series_apply_Forall.
  intros x st'. by apply keep_or_choice_valid.
Qed.

End traffic_columns.

(** ** The reader respects the promises of the parser interface *)

#[global] Instance reader_laws : Pandas.ParsersLaws Reader.parsers.
Proof.
  split.
  - intros col. simpl. by rewrite length_fmap.
  - intros col Hall. simpl.
    induction Hall as [|c col' Hc _ IH]; [done|].
    cbn [fmap list_fmap]. f_equal; [by destruct c|exact IH].
Qed.

(** ** Properties of the cleaner *)

Section cleaner_properties.
Import Pandas Frame NumpyRandom Cleaning.

(** Rows kept by [dropna] satisfy what all rows of the frame satisfy. *)
Lemma Forall_dropna {col row} `{Schema col row} (Q : row → Prop) cs
  (df : list row) :
  Forall Q df → Forall Q (dropna cs df).
Proof.
  unfold dropna. rewrite !Forall_forall.
  intros Hall r [_ Hin]%list_elem_of_filter. by apply Hall.
Qed.

Lemma Forall_within_series {col row} `{Schema col row} `{P : Parsers}
  lo hi (c : col) (df : list row) (s : list cell) :
  lo ≤ hi →
  series c df = clip_cell lo hi <$> (to_numeric_cell <$> s) →
  Forall (λ r, Domain.within lo hi (get c r) = true) df.
Proof.
  intros Hle Hs.
  apply (Forall_series (λ v, Domain.within lo hi v = true)).
  rewrite Hs. apply Forall_fmap, Forall_fmap, Forall_true.
  intros x. by apply within_clip.
Qed.

Lemma repair_weather_within `{P : Parsers} c lo hi raw st :
  Domain.weather_bounds c = Some (lo, hi) →
  Forall (λ r, Domain.within lo hi (get c r) = true) (repair_weather raw st).1.
Proof.
  intros Hb. eapply Forall_within_series.
  - destruct c; cbn in Hb; simplify_eq; lia.
  - by apply repair_weather_numeric.
Qed.

Lemma repair_traffic_within `{P : Parsers} c lo hi raw st :
  Domain.traffic_bounds c = Some (lo, hi) →
  Forall (λ r, Domain.within lo hi (get c r) = true) (repair_traffic raw st).1.
Proof.
  intros Hb. eapply Forall_within_series.
  - destruct c; cbn in Hb; simplify_eq; lia.
  - by apply repair_traffic_numeric.
Qed.


(** Months that are, or are not, in a list of months. *)
Ltac month_cases :=
  repeat match goal with
         | H : _ ∈ [] |- _ => by apply elem_of_nil in H
         | H : _ ∈ _ :: _ |- _ =>
             apply elem_of_cons in H as [H|H]; [first [subst|discriminate H]|]
         end;
  try done;
  try (exfalso;
       match goal with
       | H : _ ∉ _ |- _ => apply H; by repeat constructor
       end).

(** The season of a repaired row: the raw one when it is valid, else
    the season of the cleaned timestamp. *)
Lemma repair_weather_season_backfill `{P : Parsers} raw st i r :
  (repair_weather raw st).1 !! i = Some r →
  ∃ r0, drop_duplicates raw !! i = Some r0
        ∧ get Weather.season r
          = if bool_decide (get Weather.season r0 ∈ Str <$> valid_seasons)
            then get Weather.season r0
            else get_season (get Weather.date_time r).
Proof.
  unfold repair_weather. rewrite run_bind. unfold ret. cbn [fst].
  set (df := assign_scalar _ _ _). intros Hr.
  assert (series Weather.season df = series Weather.season (drop_duplicates raw))
    as Hseason.
  { unfold df. frame_simpl. reflexivity. }
  pose proof (f_equal (λ l, l !! i)
                (series_update_rows_eq Weather.season season_of_row df))
    as Hs.
  assert (series Weather.date_time
            (update_rows Weather.season season_of_row df) !! i
          = series Weather.date_time df !! i) as Hd
    by (by rewrite series_update_rows_ne).
  cbn beta in Hs, Hd. unfold series in Hs, Hd.
  rewrite !list_lookup_fmap, Hr in Hs. rewrite !list_lookup_fmap, Hr in Hd.
  destruct (df !! i) as [r1|] eqn:Hr1; [|done].
  cbn [fmap option_fmap option_map] in Hs, Hd.
  injection Hs as Hs. injection Hd as Hd.
  pose proof (f_equal (λ l, l !! i) Hseason) as Hs0. cbn beta in Hs0.
  unfold series in Hs0. rewrite !list_lookup_fmap, Hr1 in Hs0.
  destruct (drop_duplicates raw !! i) as [r0|] eqn:Hr0; [|done].
  cbn [fmap option_fmap option_map] in Hs0. injection Hs0 as Hs0.
  change (get Weather.season r = season_of_row r1) in Hs.
  change (get Weather.date_time r = get Weather.date_time r1) in Hd.
  change (get Weather.season r1 = get Weather.season r0) in Hs0.
  exists r0. split; [done|]. rewrite Hs, Hd, <- Hs0. unfold season_of_row.
  case_bool_decide as Hin; [|by rewrite andb_false_r].
  apply list_elem_of_fmap in Hin as (name & -> & _). done.
Qed.

(** C10: every row of the cleaned weather frame has one of the four
    seasons.  Row by row, the cleaner keeps a raw season that is one of
    the four and replaces every other one, a missing one included, by
    the season of the month of the cleaned timestamp: Winter for
    December to February, Spring for March to May, Summer for June to
    August, Autumn otherwise.  Only a row whose timestamp could not be
    read is left without a season, and the critical-field filter
    removes it. *)
Theorem cleaned_weather_season_valid `{P : Parsers} raw st :
  Forall (λ r, get Weather.season r ∈ Str <$> valid_seasons)
    (clean_weather raw st).1
  ∧ Forall (λ r, get Weather.date_time r ≠ NA) (clean_weather raw st).1
  ∧ (∀ r, r ∈ (clean_weather raw st).1 ↔
          r ∈ (repair_weather raw st).1
          ∧ get Weather.date_time r ≠ NA ∧ get Weather.temperature_c r ≠ NA)
  ∧ (∀ i r, (repair_weather raw st).1 !! i = Some r →
       ∃ r0, drop_duplicates raw !! i = Some r0
         ∧ (get Weather.season r0 ∈ Str <$> valid_seasons →
            get Weather.season r = get Weather.season r0)
         ∧ (get Weather.season r0 ∉ Str <$> valid_seasons →
            match get Weather.date_time r with
            | Time t =>
                let month := Calendar.month_of_ns t in
                (month ∈ [12; 1; 2] → get Weather.season r = Str "Winter")
                ∧ (month ∈ [3; 4; 5] → get Weather.season r = Str "Spring")
                ∧ (month ∈ [6; 7; 8] → get Weather.season r = Str "Summer")
                ∧ (month ∉ [12; 1; 2; 3; 4; 5; 6; 7; 8] →
                   get Weather.season r = Str "Autumn")
            | _ =>
                get Weather.date_time r = NA
                ∧ get Weather.season r = NA
                ∧ r ∉ (clean_weather raw st).1
            end)).
Proof.
  pose proof (repair_weather_season raw st) as Hseason.
  assert (Forall (λ r, datetime_typed (get Weather.date_time r))
            (repair_weather raw st).1) as Htyped.
  { apply (Forall_series datetime_typed). rewrite repair_weather_date_time.
    apply to_datetime_coerce_typed. }
  rewrite clean_weather_dropna. rewrite !Forall_forall in *.
  split_and!.
  - intros r [Hin Hcrit]%elem_of_dropna.
    destruct (Hseason r Hin) as [Hna|Hok]; [|done].
    exfalso. apply (Hcrit Weather.date_time); [|done]. by left.
  - intros r [Hin Hcrit]%elem_of_dropna. apply Hcrit. by left.
  - intros r. rewrite elem_of_dropna. split.
    + intros [Hin Hcrit]. split_and!; [done|apply Hcrit|apply Hcrit];
        repeat constructor.
    + intros (Hin & Hd & Ht). split; [done|]. intros c Hc.
      apply elem_of_cons in Hc as [->|Hc]; [done|].
      apply elem_of_cons in Hc as [->|Hc]; [done|].
      by apply elem_of_nil in Hc.
  - intros i r Hr.
    destruct (repair_weather_season_backfill raw st i r Hr)
      as (r0 & Hr0 & Hs).
    exists r0. split; [done|]. split.
    + intros Hin. by rewrite Hs, bool_decide_eq_true_2.
    + intros Hnin. rewrite bool_decide_eq_false_2 in Hs by done.
      specialize (Htyped r (list_elem_of_lookup_2 _ _ _ Hr)).
      destruct (get Weather.date_time r) as [| | |t] eqn:Hd; try done.
      * split_and!; [done|done|].
        intros [_ Hcrit]%elem_of_dropna.
        apply (Hcrit Weather.date_time); [by left|done].
      * cbv zeta. rewrite Hs. unfold get_season.
        generalize (Calendar.month_of_ns t). intros m.
        split_and!; intros Hm; repeat case_bool_decide; try done;
          month_cases.
Qed.

(** C9: a traffic row is dropped for its timestamp or its vehicle count
    only.  Every raw row survives the duplicate removal (its first
    occurrence is kept); once the [area] column is repaired every area
    is a valid label, so the cleaned frame is the repaired frame filtered
    on the timestamp and the vehicle count alone, and these two columns
    are the raw ones read with [to_datetime] and [to_numeric]. *)
Theorem traffic_rows_dropped_for_timestamp_or_count_only
  `{P : Parsers} `{!ParsersLaws P} raw st :
  (∀ r, r ∈ raw → r ∈ drop_duplicates raw)
  ∧ Forall (λ r, get Traffic.area r ∈ Str <$> valid_areas
                 ∧ get Traffic.area r ≠ NA)
      (repair_traffic raw st).1
  ∧ series Traffic.date_time (repair_traffic raw st).1
    = to_datetime_coerce (series Traffic.date_time (drop_duplicates raw))
  ∧ series Traffic.vehicle_count (repair_traffic raw st).1
    = clip_cell 0 10000
        <$> (to_numeric_cell
               <$> series Traffic.vehicle_count (drop_duplicates raw))
  ∧ (clean_traffic raw st).1
    = filter (λ r, get Traffic.date_time r ≠ NA
                   ∧ get Traffic.vehicle_count r ≠ NA)
        (repair_traffic raw st).1.
Proof.
  pose proof (repair_traffic_area raw st) as Harea.
  split_and!.
  - intros r. by rewrite elem_of_drop_duplicates.
  - eapply Forall_impl; [exact Harea|]. intros r Hin. cbn beta in Hin.
    split; [done|]. intros Hna. rewrite Hna in Hin.
    by apply list_elem_of_fmap in Hin as (? & ? & ?).
  - rewrite repair_traffic_date_time. apply resize_all_alt.
    by rewrite to_datetime_coerce_length, length_series.
  - by apply repair_traffic_numeric.
  - rewrite clean_traffic_dropna. unfold dropna.
    induction Harea as [|r df Hr _ IH]; [done|].
    rewrite !filter_cons, IH.
    assert (get Traffic.area r ≠ NA) as Hna.
    { intros Hna. rewrite Hna in Hr.
      by apply list_elem_of_fmap in Hr as (? & ? & ?). }
    destruct (decide (complete _ r)) as [Hc|Hc];
      destruct (decide (_ ∧ _)) as [Hd|Hd]; try done; exfalso.
    + apply Hd. unfold complete in Hc. rewrite !Forall_cons in Hc. tauto.
    + apply Hc. unfold complete. rewrite !Forall_cons. destruct Hd.
      split_and!; done.
Qed.

(** The cleaned frame may hold equal rows: two distinct raw rows that
    differ in an out-of-range temperature only are repaired to the same
    row, and both are kept. *)
Lemma cleaned_frame_may_repeat_rows :
  NoDup [Samples.weather_hot; Samples.weather_warm]
  ∧ ¬ NoDup (clean_weather (P:=Reader.parsers)
               [Samples.weather_hot; Samples.weather_warm] Samples.zeros).1.
Proof.
  split.
  - apply (bool_decide_unpack _). by vm_compute.
  - assert ((clean_weather (P:=Reader.parsers)
               [Samples.weather_hot; Samples.weather_warm] Samples.zeros).1
            = [Samples.weather_fixed; Samples.weather_fixed]) as ->.
    { apply (bool_decide_unpack _). by vm_compute. }
    intros [Hnotin _]%NoDup_cons. apply Hnotin. by left.
Qed.

Lemma repair_weather_drop_duplicates `{P : Parsers} raw st :
  repair_weather (drop_duplicates raw) st = repair_weather raw st.
Proof. unfold repair_weather. by rewrite drop_duplicates_idemp. Qed.

Lemma repair_traffic_drop_duplicates `{P : Parsers} raw st :
  repair_traffic (drop_duplicates raw) st = repair_traffic raw st.
Proof. unfold repair_traffic. by rewrite drop_duplicates_idemp. Qed.

(** C3 (as the code has it): a cleaned frame has no null in a critical
    field, and exact duplicates are removed among the raw rows, before
    the repair: the rows that are repaired are the distinct raw rows,
    cleaning a frame is cleaning its distinct rows, and the cleaned frame
    has at most that many rows. *)
Theorem cleaned_frame_critical_fields_and_raw_duplicates `{P : Parsers}
  (weather_raw : list Weather.row) (traffic_raw : list Traffic.row) st st' :
  Forall (λ r, get Weather.date_time r ≠ NA
               ∧ get Weather.temperature_c r ≠ NA)
    (clean_weather weather_raw st).1
  ∧ Forall (λ r, get Traffic.date_time r ≠ NA
                 ∧ get Traffic.area r ≠ NA
                 ∧ get Traffic.vehicle_count r ≠ NA)
      (clean_traffic traffic_raw st').1
  ∧ (NoDup (drop_duplicates weather_raw)
     ∧ (∀ r, r ∈ drop_duplicates weather_raw ↔ r ∈ weather_raw)
     ∧ clean_weather weather_raw st
       = clean_weather (drop_duplicates weather_raw) st
     ∧ (length (clean_weather weather_raw st).1
        ≤ length (drop_duplicates weather_raw))%nat)
  ∧ (NoDup (drop_duplicates traffic_raw)
     ∧ (∀ r, r ∈ drop_duplicates traffic_raw ↔ r ∈ traffic_raw)
     ∧ clean_traffic traffic_raw st'
       = clean_traffic (drop_duplicates traffic_raw) st'
     ∧ (length (clean_traffic traffic_raw st').1
        ≤ length (drop_duplicates traffic_raw))%nat).
Proof.
  split_and!.
  - rewrite clean_weather_dropna. apply Forall_forall.
    intros r [_ Hcrit]%elem_of_dropna.
    split; apply Hcrit; repeat first [by left | right].
  - rewrite clean_traffic_dropna. apply Forall_forall.
    intros r [_ Hcrit]%elem_of_dropna.
    split_and!; apply Hcrit; repeat first [by left | right].
  - apply NoDup_drop_duplicates.
  - intros r. apply elem_of_drop_duplicates.
  - unfold clean_weather. by rewrite !run_bind, repair_weather_drop_duplicates.
  - rewrite clean_weather_dropna, <- (repair_weather_length weather_raw st). apply length_dropna.
  - apply NoDup_drop_duplicates.
  - intros r. apply elem_of_drop_duplicates.
  - unfold clean_traffic. by rewrite !run_bind, repair_traffic_drop_duplicates.
  - rewrite clean_traffic_dropna, <- (repair_traffic_length traffic_raw st'). apply length_dropna.
Qed.

(** *** The cleaner on a frame that is already clean *)

Lemma update_to_numeric_id {col row} `{SchemaLaws col row} `{P : Parsers}
  lo hi (c : col) (df : list row) :
  Forall (λ r, Domain.within lo hi (get c r) = true) df →
  update c to_numeric df = df.
Proof.
  intros Hall. apply (update_fmap_id c to_numeric_cell).
  eapply Forall_impl; [exact Hall|]. intros r. apply to_numeric_cell_within.
Qed.

Lemma update_clip_id {col row} `{SchemaLaws col row}
  lo hi (c : col) (df : list row) :
  Forall (λ r, Domain.within lo hi (get c r) = true) df →
  update c (clip lo hi) df = df.
Proof.
  intros Hall. apply (update_fmap_id c (clip_cell lo hi)).
  eapply Forall_impl; [exact Hall|]. intros r. apply clip_cell_within.
Qed.

Lemma update_to_datetime_id {col row} `{SchemaLaws col row}
  `{P : Parsers} `{!ParsersLaws P} (c : col) (df : list row) :
  Forall (λ r, Domain.timestamp (get c r) = true) df →
  update c to_datetime_coerce df = df.
Proof.
  intros Hall. unfold update. rewrite to_datetime_coerce_id.
  - apply assign_series.
  - by apply (Forall_series (λ v, Domain.timestamp v = true)).
Qed.

Lemma update_keep_or_choice_id {col row} `{SchemaLaws col row}
  valid (c : col) (df : list row) st :
  Forall (λ r, Domain.label valid (get c r) = true) df →
  update_apply c (keep_or_choice valid) df st = (df, st).
Proof.
  intros Hall. apply update_apply_id.
  eapply Forall_impl; [exact Hall|]. intros r Hr st'.
  apply keep_or_choice_id. by apply bool_decide_eq_true in Hr.
Qed.

Ltac split_row H :=
  repeat (apply andb_true_iff in H as [H ?]).

Lemma weather_row_city r :
  Domain.weather_row r = true → get Weather.city r = Str "London".
Proof.
  unfold Domain.weather_row. rewrite !andb_true_iff, bool_decide_eq_true.
  tauto.
Qed.

Lemma weather_row_season r :
  Domain.weather_row r = true →
  get Weather.season r ∈ Str <$> valid_seasons.
Proof.
  unfold Domain.weather_row, Domain.label.
  rewrite !andb_true_iff, !bool_decide_eq_true. tauto.
Qed.

Lemma traffic_row_city r :
  Domain.traffic_row r = true → get Traffic.city r = Str "London".
Proof.
  unfold Domain.traffic_row. rewrite !andb_true_iff, bool_decide_eq_true.
  tauto.
Qed.

Lemma traffic_row_area r :
  Domain.traffic_row r = true → get Traffic.area r ≠ NA.
Proof.
  unfold Domain.traffic_row, Domain.label.
  rewrite !andb_true_iff, !bool_decide_eq_true.
  intros Hr Hna. rewrite Hna in Hr.
  destruct Hr as [[[[[[[[[_ Hr] _] _] _] _] _] _] _] _].
  by apply list_elem_of_fmap in Hr as (? & ? & ?).
Qed.

Lemma repair_weather_id `{P : Parsers} `{!ParsersLaws P} df st :
  Domain.weather_clean df → repair_weather df st = (df, st).
Proof.
  intros [Hnd Hrows].
  assert (∀ Q : Weather.row → Prop,
            (∀ r, Domain.weather_row r = true → Q r) → Forall Q df) as Hall.
  { intros Q HQ. eapply Forall_impl; [exact Hrows|]. exact HQ. }
  unfold repair_weather.
  rewrite (drop_duplicates_id df Hnd).
  rewrite update_to_datetime_id
    by (apply Hall; intros r Hr; unfold Domain.weather_row in Hr;
        by split_row Hr).
  rewrite (update_to_numeric_id (-10) 40 Weather.temperature_c),
    (update_clip_id (-10) 40 Weather.temperature_c),
    (update_to_numeric_id 0 100 Weather.humidity),
    (update_clip_id 0 100 Weather.humidity),
    (update_to_numeric_id 0 100 Weather.rain_mm),
    (update_clip_id 0 100 Weather.rain_mm),
    (update_to_numeric_id 0 150 Weather.wind_speed_kmh),
    (update_clip_id 0 150 Weather.wind_speed_kmh),
    (update_to_numeric_id 50 20000 Weather.visibility_m),
    (update_clip_id 50 20000 Weather.visibility_m),
    (update_to_numeric_id 950 1050 Weather.air_pressure_hpa),
    (update_clip_id 950 1050 Weather.air_pressure_hpa)
    by (apply Hall; intros r Hr; unfold Domain.weather_row in Hr;
        by split_row Hr).
  rewrite run_bind, update_keep_or_choice_id
    by (apply Hall; intros r Hr; unfold Domain.weather_row in Hr;
        by split_row Hr).
  unfold ret. cbn [fst snd].
  rewrite assign_scalar_id; cycle 1.
  { apply Hall. apply weather_row_city. }
  rewrite update_rows_id; [done|].
  apply Hall. intros r Hr. by apply season_of_row_id, weather_row_season.
Qed.

Lemma clean_weather_id `{P : Parsers} `{!ParsersLaws P} df st :
  Domain.weather_clean df → clean_weather df st = (df, st).
Proof.
  intros Hclean. unfold clean_weather.
  rewrite run_bind, (repair_weather_id df st Hclean). unfold ret. cbn [fst snd].
  rewrite dropna_id; [done|].
  destruct Hclean as [_ Hrows].
  eapply Forall_impl; [exact Hrows|]. intros r Hr c Hc.
  unfold Domain.weather_row in Hr. split_row Hr.
  apply list_elem_of_In in Hc. simpl in Hc. destruct Hc as [<-|[<-|[]]].
  - by destruct (get Weather.date_time r).
  - by destruct (get Weather.temperature_c r).
Qed.

Lemma repair_traffic_id `{P : Parsers} `{!ParsersLaws P} df st :
  Domain.traffic_clean df → repair_traffic df st = (df, st).
Proof.
  intros [Hnd Hrows].
  assert (∀ Q : Traffic.row → Prop,
            (∀ r, Domain.traffic_row r = true → Q r) → Forall Q df) as Hall.
  { intros Q HQ. eapply Forall_impl; [exact Hrows|]. exact HQ. }
  unfold repair_traffic.
  rewrite (drop_duplicates_id df Hnd).
  rewrite update_to_datetime_id
    by (apply Hall; intros r Hr; unfold Domain.traffic_row in Hr;
        by split_row Hr).
  rewrite run_bind, update_keep_or_choice_id
    by (apply Hall; intros r Hr; unfold Domain.traffic_row in Hr;
        by split_row Hr).
  cbn [fst snd].
  rewrite (update_to_numeric_id 0 10000 Traffic.vehicle_count),
    (update_clip_id 0 10000 Traffic.vehicle_count),
    (update_to_numeric_id 0 120 Traffic.avg_speed_kmh),
    (update_clip_id 0 120 Traffic.avg_speed_kmh),
    (update_to_numeric_id 0 20 Traffic.accident_count),
    (update_clip_id 0 20 Traffic.accident_count)
    by (apply Hall; intros r Hr; unfold Domain.traffic_row in Hr;
        by split_row Hr).
  rewrite run_bind, update_keep_or_choice_id
    by (apply Hall; intros r Hr; unfold Domain.traffic_row in Hr;
        by split_row Hr).
  cbn [fst snd].
  rewrite run_bind, update_keep_or_choice_id
    by (apply Hall; intros r Hr; unfold Domain.traffic_row in Hr;
        by split_row Hr).
  cbn [fst snd].
  rewrite (update_to_numeric_id 50 10000 Traffic.visibility_m),
    (update_clip_id 50 10000 Traffic.visibility_m)
    by (apply Hall; intros r Hr; unfold Domain.traffic_row in Hr;
        by split_row Hr).
  unfold ret.
  rewrite assign_scalar_id; [done|].
  apply Hall. apply traffic_row_city.
Qed.

Lemma clean_traffic_id `{P : Parsers} `{!ParsersLaws P} df st :
  Domain.traffic_clean df → clean_traffic df st = (df, st).
Proof.
  intros Hclean. unfold clean_traffic.
  rewrite run_bind, (repair_traffic_id df st Hclean). unfold ret. cbn [fst snd].
  rewrite dropna_id; [done|].
  destruct Hclean as [_ Hrows].
  eapply Forall_impl; [exact Hrows|]. intros r Hr c Hc.
  pose proof (traffic_row_area r Hr) as Harea.
  unfold Domain.traffic_row in Hr. split_row Hr.
  apply list_elem_of_In in Hc. simpl in Hc.
  destruct Hc as [<-|[<-|[<-|[]]]].
  - by destruct (get Traffic.date_time r).
  - done.
  - by destruct (get Traffic.vehicle_count r).
Qed.

(** C7: on a frame that is already clean (no duplicate rows, every value
    in its domain, no critical field missing) the cleaner is a no-op: it
    returns the frame as it is and draws no random number. *)
Theorem cleaner_is_noop_on_clean_frames `{P : Parsers} `{!ParsersLaws P}
  (weather_df : list Weather.row) (traffic_df : list Traffic.row) st :
  Domain.weather_clean weather_df →
  Domain.traffic_clean traffic_df →
  clean_weather weather_df st = (weather_df, st)
  ∧ clean_traffic traffic_df st = (traffic_df, st)
  ∧ main weather_df traffic_df st = ((weather_df, traffic_df), st).
Proof.
  intros Hw Ht. split_and!.
  - by apply clean_weather_id.
  - by apply clean_traffic_id.
  - unfold main. rewrite run_bind, clean_weather_id by done. cbn [fst snd].
    by rewrite run_bind, clean_traffic_id by done.
Qed.

End cleaner_properties.

(** ** The cleaner on concrete frames *)

Section cleaner_runs.
Import Pandas Frame NumpyRandom Cleaning.

Lemma sample_weather_clean : Domain.weather_clean [Samples.weather_fixed].
Proof.
  split.
  - apply (bool_decide_unpack _). by vm_compute.
  - repeat constructor.
Qed.

Lemma sample_traffic_clean :
  Domain.traffic_clean [Samples.traffic_fixed; Samples.traffic_later].
Proof.
  split.
  - apply (bool_decide_unpack _). by vm_compute.
  - repeat constructor.
Qed.

(** The no-op of C7 on a clean weather frame of one row and a clean
    traffic frame of two rows. *)
Lemma cleaner_is_noop_on_clean_frames_witness :
  Domain.weather_clean [Samples.weather_fixed]
  ∧ Domain.traffic_clean [Samples.traffic_fixed; Samples.traffic_later]
  ∧ clean_weather (P:=Reader.parsers) [Samples.weather_fixed] Samples.counting
    = ([Samples.weather_fixed], Samples.counting)
  ∧ clean_traffic (P:=Reader.parsers)
      [Samples.traffic_fixed; Samples.traffic_later] Samples.counting
    = ([Samples.traffic_fixed; Samples.traffic_later], Samples.counting)
  ∧ main (P:=Reader.parsers) [Samples.weather_fixed]
      [Samples.traffic_fixed; Samples.traffic_later] Samples.counting
    = (([Samples.weather_fixed],
        [Samples.traffic_fixed; Samples.traffic_later]), Samples.counting).
Proof.
  exact (conj sample_weather_clean
           (conj sample_traffic_clean
              (cleaner_is_noop_on_clean_frames (P:=Reader.parsers)
                 [Samples.weather_fixed]
                 [Samples.traffic_fixed; Samples.traffic_later]
                 Samples.counting sample_weather_clean sample_traffic_clean))).
Defined.

(** C9 on a frame of three rows, one without area and one without a
    vehicle count: the row without area is kept, with a drawn area. *)
Lemma traffic_rows_dropped_for_timestamp_or_count_only_witness :
  (clean_traffic (P:=Reader.parsers)
     [Samples.traffic_backwards; Samples.traffic_uncounted;
      Samples.traffic_backwards] Samples.zeros).1
  = filter (λ r, get Traffic.date_time r ≠ NA
                 ∧ get Traffic.vehicle_count r ≠ NA)
      (repair_traffic (P:=Reader.parsers)
         [Samples.traffic_backwards; Samples.traffic_uncounted;
          Samples.traffic_backwards] Samples.zeros).1.
Proof.
  exact (proj2 (proj2 (proj2 (proj2
           (traffic_rows_dropped_for_timestamp_or_count_only
              (P:=Reader.parsers)
              [Samples.traffic_backwards; Samples.traffic_uncounted;
               Samples.traffic_backwards] Samples.zeros))))).
Defined.

Example clean_traffic_keeps_row_without_area :
  (clean_traffic (P:=Reader.parsers)
     [Samples.traffic_backwards; Samples.traffic_uncounted;
      Samples.traffic_backwards] Samples.zeros).1
  = [Samples.traffic_fixed].
Proof. apply (bool_decide_unpack _). by vm_compute. Qed.

Example clean_weather_drops_unknown_timestamp :
  (clean_weather (P:=Reader.parsers)
     [Samples.weather_unknown; Samples.weather_hot] Samples.zeros).1
  = [Samples.weather_fixed].
Proof. apply (bool_decide_unpack _). by vm_compute. Qed.

End cleaner_runs.

(** ** The merge *)

Section merge_facts.
Import Pandas DataFrame Merge.
Context `{P : Parsers} `{!ParsersLaws P}.

(** [pd.to_datetime] on a column that holds timestamps already. *)
Lemma to_datetime_typed (s : list cell) :
  Forall datetime_typed s → to_datetime s = Some s.
Proof.
  intros Hall. unfold to_datetime. rewrite parse_datetimes_typed by done.
  assert (existsb (λ co, unreadable co.1 co.2) (zip s (as_datetime <$> s))
          = false) as ->.
  { induction Hall as [|c s' Hc _ IH]; [done|].
    cbn [fmap list_fmap zip zip_with existsb]. rewrite IH.
    by destruct c. }
  f_equal. induction Hall as [|c s' Hc _ IH]; [done|].
  cbn [fmap list_fmap]. f_equal; [by destruct c|exact IH].
Qed.

(** The keys computed from two key columns are the keys of the rows. *)
Lemma key_rows_pair {A} (f g : A → cell) (l : list A) :
  key_rows [f <$> l; g <$> l] (length l) = (λ x, [f x; g x]) <$> l.
Proof.
  unfold key_rows. apply list_eq. intros i.
  rewrite !list_lookup_fmap.
  destruct (l !! i) as [x|] eqn:Hx; simpl.
  - rewrite lookup_seq_lt by (by eapply lookup_lt_Some). simpl.
    assert (∀ h : A → cell, nth i (h <$> l) NA = h x) as Hnth.
    { intros h. apply nth_lookup_Some. by rewrite list_lookup_fmap, Hx. }
    by rewrite !Hnth.
  - rewrite lookup_seq_ge; [done|]. by apply lookup_ge_None.
Qed.

Lemma standardize_load_weather tz w :
  Forall (λ r, datetime_typed (get Weather.date_time r)) w →
  standardize (load_weather tz w) = Some (load_weather tz w).
Proof.
  intros Hw. unfold standardize.
  change (getitem "date_time" (load_weather tz w))
    with (Some (Frame.series Weather.date_time w)).
  cbn [mbind option_bind].
  rewrite to_datetime_typed
    by (by apply (Forall_series datetime_typed)).
  cbn [mbind option_bind]. unfold setitem, aware_as_datetime.
  rewrite resize_all_alt by (by simpl; rewrite length_series).
  rewrite (decide_True (P:=Forall datetime_typed _))
    by (by apply (Forall_series datetime_typed)).
  by destruct tz.
Qed.

Lemma standardize_load_traffic tz t :
  Forall (λ r, datetime_typed (get Traffic.date_time r)) t →
  standardize (load_traffic tz t) = Some (load_traffic tz t).
Proof.
  intros Ht. unfold standardize.
  change (getitem "date_time" (load_traffic tz t))
    with (Some (Frame.series Traffic.date_time t)).
  cbn [mbind option_bind].
  rewrite to_datetime_typed
    by (by apply (Forall_series datetime_typed)).
  cbn [mbind option_bind]. unfold setitem, aware_as_datetime.
  rewrite resize_all_alt by (by simpl; rewrite length_series).
  rewrite (decide_True (P:=Forall datetime_typed _))
    by (by apply (Forall_series datetime_typed)).
  by destruct tz.
Qed.

Lemma add_hour_load_weather (tz : bool) w :
  add_hour (load_weather tz w)
  = Some (Frame (length w)
            (cols (load_weather tz w)
             ++ [("hour"%string,
                  dt_floor_H (Frame.series Weather.date_time w))])
            (if tz then ["date_time"; "hour"]%string else [])).
Proof.
  unfold add_hour.
  change (getitem "date_time" (load_weather tz w))
    with (Some (Frame.series Weather.date_time w)).
  cbn [mbind option_bind]. unfold setitem.
  rewrite resize_all_alt
    by (by unfold dt_floor_H; simpl; rewrite length_fmap, length_series).
  by destruct tz.
Qed.

Lemma add_hour_load_traffic (tz : bool) t :
  add_hour (load_traffic tz t)
  = Some (Frame (length t)
            (cols (load_traffic tz t)
             ++ [("hour"%string,
                  dt_floor_H (Frame.series Traffic.date_time t))])
            (if tz then ["date_time"; "hour"]%string else [])).
Proof.
  unfold add_hour.
  change (getitem "date_time" (load_traffic tz t))
    with (Some (Frame.series Traffic.date_time t)).
  cbn [mbind option_bind]. unfold setitem.
  rewrite resize_all_alt
    by (by unfold dt_floor_H; simpl; rewrite length_fmap, length_series).
  by destruct tz.
Qed.

(** The check of the keys of [pd.merge] on the two frames with their
    hour: it passes exactly on two files that can be merged. *)
Lemma keys_compatible_loaded (wz : bool) (w : list Weather.row) (tz : bool)
  (t : list Traffic.row) lc rc :
  keys_compatible
    (Frame (length w) lc (if wz then ["date_time"; "hour"]%string else []))
    (Frame (length t) rc (if tz then ["date_time"; "hour"]%string else []))
    ["hour"; "city"]%string
  = bool_decide (compatible wz w tz t).
Proof.
  unfold keys_compatible, one_is_empty, compatible. cbn [index].
  destruct w as [|rw w], t as [|rt t], wz, tz; cbn;
    symmetry; (apply bool_decide_eq_true_2 || apply bool_decide_eq_false_2);
    intuition congruence.
Qed.

(** Steps 3 and 4 of [main] on two cleaned frames: the result of
    [pd.merge] has one row per pair of rows with the same hour and city. *)
Lemma join_loaded wz w tz t :
  Forall (λ r, datetime_typed (get Weather.date_time r)) w →
  Forall (λ r, datetime_typed (get Traffic.date_time r)) t →
  let pairs := join_pairs (weather_keys w) (traffic_keys t) in
  join (load_weather wz w) (load_traffic tz t)
  = if bool_decide (compatible wz w tz t)
    then Some (Expected.merged (length pairs) wz tz
                 (λ c, take_rows pairs.*1 (Frame.series c w))
                 (take_rows pairs.*1
                    (dt_floor_H (Frame.series Weather.date_time w)))
                 (λ c, take_rows pairs.*2 (Frame.series c t)))
    else None.
Proof.
  intros Hw Ht pairs. unfold join.
  rewrite standardize_load_weather, standardize_load_traffic by done.
  cbn [mbind option_bind].
  rewrite add_hour_load_weather, add_hour_load_traffic.
  cbn [mbind option_bind].
  unfold merge.
  match goal with
  | |- context [mapM ?f ?l ≫= _] =>
      change (mapM f l)
        with (Some [dt_floor_H (Frame.series Weather.date_time w);
                    Frame.series Weather.city w])
  end.
  cbn [mbind option_bind].
  match goal with
  | |- context [mapM ?f ?l ≫= _] =>
      change (mapM f l)
        with (Some [dt_floor_H (Frame.series Traffic.date_time t);
                    Frame.series Traffic.city t])
  end.
  cbn [mbind option_bind index].
  rewrite keys_compatible_loaded.
  destruct (bool_decide (compatible wz w tz t)); [|done].
  unfold dt_floor_H, Frame.series.
  rewrite <- !list_fmap_compose.
  rewrite (key_rows_pair _ _ w), (key_rows_pair _ _ t).
  by destruct wz, tz.
Qed.

Lemma join_loaded_ready wz w tz t :
  weather_ready w → traffic_ready t → compatible wz w tz t →
  join (load_weather wz w) (load_traffic tz t)
  = Some (Expected.merged
            (length (join_pairs (weather_keys w) (traffic_keys t))) wz tz
            (λ c, take_rows (join_pairs (weather_keys w) (traffic_keys t)).*1
                    (Frame.series c w))
            (take_rows (join_pairs (weather_keys w) (traffic_keys t)).*1
               (dt_floor_H (Frame.series Weather.date_time w)))
            (λ c, take_rows (join_pairs (weather_keys w) (traffic_keys t)).*2
                    (Frame.series c t))).
Proof.
  intros Hw Ht Hc. rewrite join_loaded by done.
  by rewrite bool_decide_eq_true_2.
Qed.

(** [main] on two cleaned frames that can be merged returns the final
    frame. *)
Lemma main_loaded wz w tz t :
  weather_ready w → traffic_ready t → compatible wz w tz t →
  main wz w tz t
  = Some (Expected.final
            (length (join_pairs (weather_keys w) (traffic_keys t))) wz
            (λ c, take_rows (join_pairs (weather_keys w) (traffic_keys t)).*1
                    (Frame.series c w))
            (λ c, take_rows (join_pairs (weather_keys w) (traffic_keys t)).*2
                    (Frame.series c t))).
Proof.
  intros Hw Ht Hc. unfold main, merge_datasets.
  rewrite join_loaded_ready by done. by destruct wz, tz.
Qed.

(** On two files that cannot be merged [pd.merge] raises, and [main]
    with it. *)
Lemma main_incompatible wz w tz t :
  weather_ready w → traffic_ready t → ¬ compatible wz w tz t →
  main wz w tz t = None.
Proof.
  intros Hw Ht Hc. unfold main, merge_datasets.
  rewrite join_loaded by done. by rewrite bool_decide_eq_false_2.
Qed.

End merge_facts.

(** *** Counting the rows of the join *)

Section join_count.
Import Pandas DataFrame Merge.
Implicit Types (k : list cell) (l r : list (list cell)).

Lemma length_matches k j r : length (matches k j r) = occurrences k r.
Proof.
  unfold occurrences. revert j; induction r as [|k' r IH]; intros j; [done|].
  cbn [matches]. rewrite filter_cons.
  destruct (decide (k = k')); simpl; by rewrite IH.
Qed.

Lemma length_join_from i l r :
  length (join_from i l r) = sum_list ((λ k, occurrences k r) <$> l).
Proof.
  revert i; induction l as [|k l IH]; intros i; [done|].
  cbn [join_from fmap list_fmap sum_list sum_list_with id].
  by rewrite length_app, length_fmap, length_matches, IH.
Qed.

Lemma occurrences_cons k k' l :
  occurrences k (k' :: l)
  = ((if decide (k = k') then 1 else 0) + occurrences k l)%nat.
Proof. unfold occurrences. rewrite filter_cons. by destruct (decide (k = k')). Qed.

Lemma occurrences_not_elem_of k l : k ∉ l → occurrences k l = 0%nat.
Proof.
  induction l as [|k' l IH]; [done|]. rewrite not_elem_of_cons.
  intros [Hne Hnin]. rewrite occurrences_cons, decide_False by done.
  by rewrite IH.
Qed.

Lemma occurrences_NoDup k l : NoDup l → k ∈ l → occurrences k l = 1%nat.
Proof.
  induction 1 as [|k' l Hnin Hnd IH]; [by intros ?%elem_of_nil|].
  rewrite elem_of_cons, occurrences_cons. intros [->|Hin].
  - by rewrite decide_True, occurrences_not_elem_of.
  - rewrite decide_False, IH by (done || by intros ->). done.
Qed.

(** A sum over a list with one term that matters. *)
Lemma sum_list_indicator (f : list cell → nat) k l :
  NoDup l →
  sum_list ((λ k', (if decide (k' = k) then 1 else 0) * f k') <$> l)%nat
  = if decide (k ∈ l) then f k else 0%nat.
Proof.
  induction 1 as [|k' l Hnin Hnd IH]; [done|].
  cbn [fmap list_fmap sum_list sum_list_with id]. rewrite IH.
  destruct (decide (k' = k)) as [->|Hne].
  - rewrite (decide_True (P:=k ∈ k :: l)) by left.
    rewrite (decide_False (P:=k ∈ l)) by done. unfold id. lia.
  - destruct (decide (k ∈ l)) as [Hin|Hout].
    + rewrite (decide_True (P:=k ∈ k' :: l)) by (by right). unfold id. lia.
    + rewrite (decide_False (P:=k ∈ k' :: l)); [unfold id; lia|].
      rewrite not_elem_of_cons. by split; [intros ->|].
Qed.

(** A sum over the rows is a sum over the distinct keys, each weighted
    by the number of its rows. *)
Lemma sum_list_by_key (f : list cell → nat) l :
  sum_list (f <$> l)
  = sum_list ((λ k, occurrences k l * f k)%nat <$> remove_dups l).
Proof.
  induction l as [|k l IH]; [done|].
  cbn [fmap list_fmap sum_list sum_list_with remove_dups id]. rewrite IH.
  assert (sum_list ((λ k', occurrences k' (k :: l) * f k')%nat <$> remove_dups l)
          = ((if decide (k ∈ l) then f k else 0)
             + sum_list ((λ k', occurrences k' l * f k')%nat <$> remove_dups l))%nat)
    as Hsplit.
  { rewrite (decide_ext (k ∈ l) (k ∈ remove_dups l))
      by (symmetry; apply elem_of_remove_dups).
    rewrite <- (sum_list_indicator f k (remove_dups l))
      by apply NoDup_remove_dups.
    generalize (remove_dups l). intros l'.
    induction l' as [|k' l' IH']; [done|].
    cbn [fmap list_fmap sum_list sum_list_with id].
    rewrite IH', occurrences_cons. lia. }
  destruct (decide_rel elem_of k l) as [Hin|Hnin].
  - rewrite Hsplit, decide_True by done. done.
  - cbn [fmap list_fmap sum_list sum_list_with id].
    rewrite Hsplit, decide_False by done.
    rewrite occurrences_cons, decide_True, occurrences_not_elem_of by done.
    lia.
Qed.

Lemma sum_list_filter_zero (g : list cell → nat) (Q : list cell → Prop)
  `{∀ k, Decision (Q k)} l :
  (∀ k, ¬ Q k → g k = 0%nat) →
  sum_list (g <$> l) = sum_list (g <$> filter Q l).
Proof.
  intros Hzero. induction l as [|k l IH]; [done|].
  rewrite filter_cons. cbn [fmap list_fmap sum_list sum_list_with id].
  destruct (decide (Q k)) as [HQ|HQ].
  - cbn [fmap list_fmap sum_list sum_list_with id]. by rewrite IH.
  - by rewrite Hzero, IH.
Qed.

(** The number of rows of the inner join. *)
Lemma length_join_pairs l r :
  length (join_pairs l r)
  = sum_list ((λ k, occurrences k l * occurrences k r)%nat
                <$> common_keys l r).
Proof.
  unfold join_pairs, common_keys.
  rewrite length_join_from, sum_list_by_key.
  apply sum_list_filter_zero.
  intros k Hk. rewrite (occurrences_not_elem_of k r) by done. lia.
Qed.

Lemma length_join_pairs_NoDup l r :
  NoDup l → NoDup r → length (join_pairs l r) = length (common_keys l r).
Proof.
  intros Hl Hr. rewrite length_join_pairs. unfold common_keys.
  assert (∀ k, k ∈ filter (λ k, k ∈ r) (remove_dups l) →
               (occurrences k l * occurrences k r)%nat = 1%nat) as Hone.
  { intros k [Hkr Hkl]%list_elem_of_filter.
    rewrite elem_of_remove_dups in Hkl.
    rewrite (occurrences_NoDup k l), (occurrences_NoDup k r); done. }
  revert Hone. generalize (filter (λ k, k ∈ r) (remove_dups l)).
  intros l' Hone. induction l' as [|k l' IH]; [done|].
  cbn [fmap list_fmap sum_list sum_list_with length id].
  rewrite Hone by left. rewrite IH; [done|].
  intros k' Hk'. apply Hone. by right.
Qed.

Lemma common_keys_disjoint l r :
  (∀ k, k ∈ l → k ∉ r) → common_keys l r = [].
Proof.
  intros Hdisj. unfold common_keys.
  assert (Forall (λ k, k ∉ r) (remove_dups l)) as Hall.
  { apply Forall_forall. intros k Hk. by apply Hdisj, elem_of_remove_dups. }
  induction Hall as [|k l' Hk _ IH]; [done|].
  by rewrite filter_cons_False.
Qed.

Lemma join_pairs_disjoint l r :
  (∀ k, k ∈ l → k ∉ r) → join_pairs l r = [].
Proof.
  intros Hdisj. apply length_zero_iff_nil.
  by rewrite length_join_pairs, common_keys_disjoint.
Qed.

End join_count.

(** ** Properties of the merge *)

Section merge_properties.
Import Pandas DataFrame Merge.

(** What the cleaner writes is what the merge expects to read. *)
Lemma clean_weather_ready `{P : Parsers} raw st :
  weather_ready (Cleaning.clean_weather raw st).1.
Proof.
  unfold weather_ready. rewrite clean_weather_dropna. apply Forall_dropna.
  apply (Forall_series datetime_typed). rewrite repair_weather_date_time.
  apply to_datetime_coerce_typed.
Qed.

Lemma clean_traffic_ready `{P : Parsers} raw st :
  traffic_ready (Cleaning.clean_traffic raw st).1.
Proof.
  unfold traffic_ready. rewrite clean_traffic_dropna. apply Forall_dropna.
  apply (Forall_series datetime_typed). rewrite repair_traffic_date_time.
  apply to_datetime_coerce_typed.
Qed.

Lemma length_take_rows positions v : length (take_rows positions v) = length positions.
Proof. unfold take_rows. by rewrite length_fmap. Qed.

Lemma final_schema_NoDup : NoDup final_schema.
Proof. apply (bool_decide_unpack _). by vm_compute. Qed.

Lemma expected_final_columns n wz wd td :
  columns (Expected.final n wz wd td) = final_schema.
Proof. reflexivity. Qed.

(** Every column of the final frame has one value per row. *)
Lemma expected_final_lengths n wz wd td :
  (∀ c, length (wd c) = n) → (∀ c, length (td c) = n) →
  Forall (λ nv, length nv.2 = n) (cols (Expected.final n wz wd td)).
Proof.
  intros Hw Ht. unfold Expected.final. cbn [cols].
  rewrite !Forall_app, !Forall_fmap. split_and!.
  - apply Forall_true. intros c. apply Hw.
  - apply Forall_true. intros c. apply Ht.
  - repeat constructor. cbn. by rewrite length_resize.
Qed.

Lemma occurrences_elem_of (k : list cell) l :
  k ∈ l → (0 < occurrences k l)%nat.
Proof.
  intros (l1 & l2 & ->)%list_elem_of_split. unfold occurrences.
  rewrite filter_app, filter_cons_True, length_app by done. simpl. lia.
Qed.

Lemma overlapping_compatible wz w tz t :
  overlapping wz w tz t → compatible wz w tz t.
Proof. intros [Heq _]. by left. Qed.

(** C2: on two cleaned frames that overlap (a key, an hour of the same
    kind with the city, is present in both, so that neither is empty)
    [main] returns a frame whose columns are exactly the sixteen names
    of the final schema, in that order and without a repeated name, and
    whose [visibility_m] column holds, row by row, the visibility of the
    weather row of the joined pair. *)
Theorem merge_final_schema `{P : Parsers} `{!ParsersLaws P}
  (wz : bool) (w : list Weather.row) (tz : bool) (t : list Traffic.row) :
  weather_ready w → traffic_ready t → overlapping wz w tz t →
  ∃ final_df,
    main wz w tz t = Some final_df
    ∧ columns final_df = final_schema
    ∧ columns final_df
      = ["date_time"; "city"; "season"; "temperature_c"; "humidity";
         "rain_mm"; "wind_speed_kmh"; "weather_condition";
         "air_pressure_hpa"; "area"; "vehicle_count"; "avg_speed_kmh";
         "accident_count"; "congestion_level"; "road_condition";
         "visibility_m"]%string
    ∧ NoDup (columns final_df)
    ∧ length (columns final_df) = 16%nat
    ∧ getitem "visibility_m" final_df
      = Some (take_rows (join_pairs (weather_keys w) (traffic_keys t)).*1
                (Frame.series Weather.visibility_m w))
    ∧ (0 < index final_df)%nat.
Proof.
  intros Hw Ht Hover. eexists.
  split; [by apply main_loaded, overlapping_compatible|].
  rewrite expected_final_columns. split_and!; try done.
  - apply final_schema_NoDup.
  - change (getitem "visibility_m" (Expected.final ?n ?wz ?wd ?td))
      with (Some (resize n NA (wd Weather.visibility_m))).
    f_equal. apply resize_all_alt.
    by rewrite length_take_rows, length_fmap.
  - cbn [index Expected.final].
    destruct Hover as (_ & k & Hkw & Hkt).
    destruct (join_pairs (weather_keys w) (traffic_keys t)) eqn:Hpairs;
      [|simpl; lia].
    exfalso. apply (f_equal length) in Hpairs.
    rewrite length_join_pairs in Hpairs. cbn [length] in Hpairs.
    assert (k ∈ common_keys (weather_keys w) (traffic_keys t)) as Hk.
    { unfold common_keys. apply list_elem_of_filter.
      split; [done|by apply elem_of_remove_dups]. }
    apply list_elem_of_split in Hk as (l1 & l2 & Hk).
    rewrite Hk, fmap_app, fmap_cons, sum_list_with_app in Hpairs.
    cbn [sum_list_with] in Hpairs.
    pose proof (occurrences_elem_of k _ Hkw).
    pose proof (occurrences_elem_of k _ Hkt).
    unfold id in Hpairs. nia.
Qed.

(** The row count of the merge can exceed the number of distinct keys
    present in both inputs: one weather row at 08:00 and two traffic rows
    of that hour give two merged rows for a single common key. *)
Lemma merge_rows_can_exceed_common_keys :
  ¬ (∀ final_df,
       main (P:=Reader.parsers) false [Samples.weather_eight]
         false [Samples.traffic_fixed; Samples.traffic_later]
       = Some final_df →
       (index final_df
        ≤ length (common_keys (weather_keys [Samples.weather_eight])
                    (traffic_keys [Samples.traffic_fixed;
                                   Samples.traffic_later])))%nat).
Proof.
  intros Hclaim.
  destruct (main (P:=Reader.parsers) false [Samples.weather_eight]
              false [Samples.traffic_fixed; Samples.traffic_later])
    as [final_df|] eqn:Hmain; [|by vm_compute in Hmain].
  specialize (Hclaim final_df eq_refl).
  assert (index final_df = 2%nat) as Hrows.
  { vm_compute in Hmain. by injection Hmain as <-. }
  rewrite Hrows in Hclaim. vm_compute in Hclaim. lia.
Qed.

(** C6 (as the code has it): on two cleaned files that can be merged
    (both [date_time] columns time zone aware or both naive, or exactly
    one file empty) the merge has one row per pair of a weather row and
    a traffic row with the same (hour, city) key, that is, the sum over
    the distinct common keys of the number of weather rows times the
    number of traffic rows with that key.  When no key is repeated
    within an input this is the number of distinct common keys; when
    the key sets are disjoint it is 0.  On any other pair of cleaned
    files [pd.merge] raises. *)
Theorem merge_row_count `{P : Parsers} `{!ParsersLaws P}
  (wz : bool) (w : list Weather.row) (tz : bool) (t : list Traffic.row) :
  weather_ready w → traffic_ready t →
  (compatible wz w tz t →
   ∃ final_df,
     main wz w tz t = Some final_df
     ∧ index final_df
       = sum_list ((λ k, occurrences k (weather_keys w)
                         * occurrences k (traffic_keys t))%nat
                     <$> common_keys (weather_keys w) (traffic_keys t))
     ∧ Forall (λ nv, length nv.2 = index final_df) (cols final_df)
     ∧ (NoDup (weather_keys w) → NoDup (traffic_keys t) →
        index final_df
        = length (common_keys (weather_keys w) (traffic_keys t)))
     ∧ ((∀ k, k ∈ weather_keys w → k ∉ traffic_keys t) →
        index final_df = 0%nat))
  ∧ (¬ compatible wz w tz t → main wz w tz t = None).
Proof.
  intros Hw Ht. split; [|by apply main_incompatible].
  intros Hc. eexists. split; [by apply main_loaded|].
  cbn [index Expected.final]. split_and!.
  - apply length_join_pairs.
  - apply expected_final_lengths; intros c;
      by rewrite length_take_rows, length_fmap.
  - apply length_join_pairs_NoDup.
  - intros Hdisj. by rewrite join_pairs_disjoint.
Qed.

Lemma sample_weather_ready : weather_ready [Samples.weather_eight].
Proof. unfold weather_ready. repeat constructor; by vm_compute. Qed.

Lemma sample_traffic_ready :
  traffic_ready [Samples.traffic_fixed; Samples.traffic_later].
Proof. unfold traffic_ready. repeat constructor; by vm_compute. Qed.

Lemma sample_weather_midnight_ready : weather_ready [Samples.weather_fixed].
Proof. unfold weather_ready. repeat constructor; by vm_compute. Qed.

Lemma sample_keys_disjoint :
  ∀ k, k ∈ weather_keys [Samples.weather_fixed] →
       k ∉ traffic_keys [Samples.traffic_fixed; Samples.traffic_later].
Proof.
  intros k Hk Hk'. vm_compute in Hk, Hk'.
  apply elem_of_cons in Hk as [->|Hk]; [|by apply elem_of_nil in Hk].
  repeat (apply elem_of_cons in Hk' as [Hk'|Hk']; [discriminate Hk'|]).
  by apply elem_of_nil in Hk'.
Qed.

Lemma sample_overlapping :
  overlapping false [Samples.weather_eight]
    false [Samples.traffic_fixed; Samples.traffic_later].
Proof.
  split; [done|].
  exists [Time Samples.eight; Str "London"]. split.
  - vm_compute. by left.
  - vm_compute. by left.
Qed.

Lemma sample_compatible_empty :
  compatible true [Samples.weather_eight] false [].
Proof. right. left. by split. Qed.

(** A cleaned weather file with time zone aware timestamps at midnight
    and a cleaned traffic file with naive timestamps at 08:00: both have
    rows, no key is present in both, and [main] raises. *)
Lemma merge_raises_on_mixed_time_zones :
  weather_ready [Samples.weather_fixed]
  ∧ traffic_ready [Samples.traffic_fixed; Samples.traffic_later]
  ∧ (∀ k, k ∈ weather_keys [Samples.weather_fixed] →
          k ∉ traffic_keys [Samples.traffic_fixed; Samples.traffic_later])
  ∧ ¬ (∃ final_df,
         main (P:=Reader.parsers) true [Samples.weather_fixed]
           false [Samples.traffic_fixed; Samples.traffic_later]
         = Some final_df).
Proof.
  split_and!.
  - apply sample_weather_midnight_ready.
  - apply sample_traffic_ready.
  - apply sample_keys_disjoint.
  - intros [final_df Hmain]. by vm_compute in Hmain.
Qed.

(** C8 (as the code has it): when either cleaned input is empty, or no
    (hour, city) key is present in both, and the two files can be merged
    (both [date_time] columns time zone aware or both naive, or exactly
    one file empty), [main] does not raise and returns a frame with the
    final schema and no row.  When they cannot, one column being aware
    and the other naive, [pd.merge] raises. *)
Theorem merge_empty_or_disjoint `{P : Parsers} `{!ParsersLaws P}
  (wz : bool) (w : list Weather.row) (tz : bool) (t : list Traffic.row) :
  weather_ready w → traffic_ready t →
  w = [] ∨ t = [] ∨ (∀ k, k ∈ weather_keys w → k ∉ traffic_keys t) →
  (compatible wz w tz t →
   ∃ final_df,
     main wz w tz t = Some final_df
     ∧ index final_df = 0%nat
     ∧ columns final_df = final_schema
     ∧ Forall (λ nv, nv.2 = []) (cols final_df))
  ∧ (¬ compatible wz w tz t → main wz w tz t = None).
Proof.
  intros Hw Ht Hcase. split; [|by apply main_incompatible].
  intros Hc.
  assert (join_pairs (weather_keys w) (traffic_keys t) = []) as Hpairs.
  { apply join_pairs_disjoint.
    destruct Hcase as [->|[->|Hdisj]]; [| |done].
    - by intros k ?%elem_of_nil.
    - intros k _. apply not_elem_of_nil. }
  eexists. split; [by apply main_loaded|].
  rewrite Hpairs. split_and!; try done.
  repeat constructor.
Qed.

(** The schema theorem on one weather row and two traffic rows of the
    same hour. *)
Lemma merge_final_schema_witness :
  weather_ready [Samples.weather_eight]
  ∧ traffic_ready [Samples.traffic_fixed; Samples.traffic_later]
  ∧ overlapping false [Samples.weather_eight]
      false [Samples.traffic_fixed; Samples.traffic_later]
  ∧ ∃ final_df,
      main (P:=Reader.parsers) false [Samples.weather_eight]
        false [Samples.traffic_fixed; Samples.traffic_later] = Some final_df
      ∧ columns final_df = final_schema.
Proof.
  refine (conj sample_weather_ready
            (conj sample_traffic_ready (conj sample_overlapping _))).
  destruct (merge_final_schema (P:=Reader.parsers) false
              [Samples.weather_eight]
              false [Samples.traffic_fixed; Samples.traffic_later]
              sample_weather_ready sample_traffic_ready sample_overlapping)
    as (final_df & Hmain & Hcols & _).
  exact (ex_intro _ final_df (conj Hmain Hcols)).
Defined.

(** The row count theorem on the same frames: one common key, 1 × 2
    rows. *)
Lemma merge_row_count_witness :
  weather_ready [Samples.weather_eight]
  ∧ traffic_ready [Samples.traffic_fixed; Samples.traffic_later]
  ∧ ∃ final_df,
      main (P:=Reader.parsers) false [Samples.weather_eight]
        false [Samples.traffic_fixed; Samples.traffic_later] = Some final_df
      ∧ index final_df = 2%nat.
Proof.
  refine (conj sample_weather_ready (conj sample_traffic_ready _)).
  destruct (proj1 (merge_row_count (P:=Reader.parsers) false
                     [Samples.weather_eight]
                     false [Samples.traffic_fixed; Samples.traffic_later]
                     sample_weather_ready sample_traffic_ready)
              (or_introl eq_refl))
    as (final_df & Hmain & Hrows & _).
  refine (ex_intro _ final_df (conj Hmain _)).
  rewrite Hrows. by vm_compute.
Defined.

(** The theorem on a weather row at midnight and two traffic rows at
    08:00, both files naive, and on an aware weather file against an
    empty traffic file. *)
Lemma merge_empty_or_disjoint_witness :
  (∃ final_df,
     main (P:=Reader.parsers) false [Samples.weather_fixed]
       false [Samples.traffic_fixed; Samples.traffic_later] = Some final_df
     ∧ index final_df = 0%nat)
  ∧ (∃ final_df,
       main (P:=Reader.parsers) true [Samples.weather_eight] false []
       = Some final_df
       ∧ index final_df = 0%nat).
Proof.
  split.
  - destruct (proj1 (merge_empty_or_disjoint (P:=Reader.parsers)
                       false [Samples.weather_fixed]
                       false [Samples.traffic_fixed; Samples.traffic_later]
                       sample_weather_midnight_ready sample_traffic_ready
                       (or_intror (or_intror sample_keys_disjoint)))
                (or_introl eq_refl))
      as (final_df & Hmain & Hrows & _).
    exact (ex_intro _ final_df (conj Hmain Hrows)).
  - destruct (proj1 (merge_empty_or_disjoint (P:=Reader.parsers)
                       true [Samples.weather_eight] false []
                       sample_weather_ready (Forall_nil_2 _)
                       (or_intror (or_introl eq_refl)))
                sample_compatible_empty)
      as (final_df & Hmain & Hrows & _).
    exact (ex_intro _ final_df (conj Hmain Hrows)).
Defined.

End merge_properties.

(** ** Floating-point multiplication by [0.05] *)

Section float_facts.
Import Py.

Lemma digits2_pos_size p : digits2_pos p = Pos.size p.
Proof. induction p as [p IH|p IH|]; simpl; by rewrite ?IH. Qed.

(** A positive number of [d] digits lies between [2^(d-1)] and [2^d]. *)
Lemma digits2_pos_bounds p :
  2 ^ (Zpos (digits2_pos p) - 1) ≤ Zpos p < 2 ^ Zpos (digits2_pos p).
Proof.
  rewrite digits2_pos_size. split.
  - pose proof (Pos.size_le p) as Hle.
    assert (2 ^ Zpos (Pos.size p) ≤ 2 * Zpos p) as Hle'.
    { rewrite <- Pos2Z.inj_pow. change (2 * Zpos p) with (Zpos p~0). lia. }
    replace (Zpos (Pos.size p)) with (Zpos (Pos.size p) - 1 + 1) in Hle' by lia.
    rewrite Z.pow_add_r in Hle' by lia. lia.
  - pose proof (Pos.size_gt p) as Hgt. rewrite <- Pos2Z.inj_pow. lia.
Qed.

(** Conversely the bounds fix the number of digits. *)
Lemma digits2_pos_unique p d :
  2 ^ (d - 1) ≤ Zpos p < 2 ^ d → Zpos (digits2_pos p) = d.
Proof.
  intros [Hlo Hhi]. pose proof (digits2_pos_bounds p) as [Hlo' Hhi'].
  assert (0 < d) as Hd.
  { destruct (Z.lt_ge_cases 0 d); [done|].
    rewrite (Z.pow_neg_r 2 (d - 1)) in Hlo by lia.
    assert (2 ^ d ≤ 1); [|lia].
    destruct (Z.eq_dec d 0) as [->|]; [done|].
    rewrite Z.pow_neg_r by lia. lia. }
  destruct (Z.lt_trichotomy (Zpos (digits2_pos p)) d) as [Hlt|[Heq|Hgt]];
    [|done|]; exfalso.
  - assert (2 ^ Zpos (digits2_pos p) ≤ 2 ^ (d - 1))
      by (apply Z.pow_le_mono_r; lia). lia.
  - assert (2 ^ d ≤ 2 ^ (Zpos (digits2_pos p) - 1))
      by (apply Z.pow_le_mono_r; lia). lia.
Qed.

Lemma pos_iter_xO p k : Zpos (Pos.iter xO p k) = Zpos p * 2 ^ Zpos k.
Proof.
  induction k as [|k IH] using Pos.peano_ind.
  - simpl. lia.
  - rewrite Pos.iter_succ, Pos2Z.inj_xO, IH, Pos2Z.inj_succ, Z.pow_succ_r by lia.
    lia.
Qed.

(** Shifting a mantissa to the right divides it by a power of two. *)
Lemma shr_m_shr_1 mrs : 0 ≤ shr_m mrs → shr_m (shr_1 mrs) = shr_m mrs / 2.
Proof.
  destruct mrs as [m r s]. cbn [shr_m]. intros Hm.
  destruct m as [|p|p]; [done| |lia].
  destruct p as [p|p|]; cbn [shr_1 shr_m].
  - apply (Z.div_unique (Zpos p~1) 2 (Zpos p) 1); lia.
  - apply (Z.div_unique (Zpos p~0) 2 (Zpos p) 0); lia.
  - done.
Qed.

Lemma shr_m_iter_pos n mrs :
  0 ≤ shr_m mrs →
  0 ≤ shr_m (SpecFloat.iter_pos shr_1 n mrs)
  ∧ shr_m (SpecFloat.iter_pos shr_1 n mrs) = shr_m mrs / 2 ^ Zpos n.
Proof.
  assert (∀ x, 0 ≤ shr_m x → 0 ≤ shr_m (shr_1 x)) as Hnonneg.
  { intros x Hx. rewrite shr_m_shr_1 by done. apply Z.div_pos; lia. }
  revert mrs; induction n as [n IH|n IH|]; intros mrs Hm; cbn [SpecFloat.iter_pos].
  - destruct (IH (shr_1 mrs) (Hnonneg _ Hm)) as [H1 E1].
    destruct (IH _ H1) as [H2 E2]. split; [done|].
    rewrite E2, E1, shr_m_shr_1 by done.
    rewrite !Z.div_div by lia. f_equal.
    replace (Zpos n~1) with (1 + Zpos n + Zpos n) by lia.
    rewrite !Z.pow_add_r by lia. change (2 ^ 1) with 2. ring.
  - destruct (IH mrs Hm) as [H1 E1].
    destruct (IH _ H1) as [H2 E2]. split; [done|].
    rewrite E2, E1. rewrite !Z.div_div by lia. f_equal.
    replace (Zpos n~0) with (Zpos n + Zpos n) by lia.
    rewrite !Z.pow_add_r by lia. ring.
  - split; [by apply Hnonneg|]. by rewrite shr_m_shr_1.
Qed.

(** A mantissa of 53 digits with an exponent in range is a float as it
    is. *)
Lemma binary_round_aux_normal (m : positive) e :
  Zpos (digits2_pos m) = 53 → -1074 ≤ e ≤ 971 →
  binary_round_aux F.prec F.emax false (Zpos m) e loc_Exact
  = S754_finite false m e.
Proof.
  intros Hd He. unfold binary_round_aux, shr_fexp, fexp, emin, F.prec, F.emax.
  cbn [Zdigits2 shr_record_of_loc]. rewrite Hd.
  replace (Z.max (53 + e - 53) (3 - 1024 - 53) - e) with 0 by lia.
  cbn [shr shr_m loc_of_shr_record round_nearest_even Zdigits2
       shr_record_of_loc].
  rewrite Hd.
  replace (Z.max (53 + e - 53) (3 - 1024 - 53) - e) with 0 by lia.
  cbn [shr shr_m].
  destruct (Z.leb_spec e (1024 - 53)); [done|lia].
Qed.

(** The float of a positive integer of at most 53 digits is the integer
    itself, with a mantissa of 53 digits. *)
Lemma of_Z_pos (p : positive) :
  Zpos (digits2_pos p) ≤ 53 →
  ∃ mx, F.of_Z (Zpos p) = S754_finite false mx (Zpos (digits2_pos p) - 53)
        ∧ Zpos mx = Zpos p * 2 ^ (53 - Zpos (digits2_pos p))
        ∧ Zpos (digits2_pos mx) = 53.
Proof.
  intros Hd. pose proof (digits2_pos_bounds p) as Hp.
  unfold F.of_Z, binary_normalize, binary_round, shl_align, fexp, emin,
    F.prec, F.emax.
  replace (Z.max (Zpos (digits2_pos p) + 0 - 53) (3 - 1024 - 53) - 0)
    with (Zpos (digits2_pos p) - 53) by lia.
  replace (Z.max (Zpos (digits2_pos p) + 0 - 53) (3 - 1024 - 53))
    with (Zpos (digits2_pos p) - 53) by lia.
  destruct (Zpos (digits2_pos p) - 53) as [|k|k] eqn:Hk; [|lia|].
  - assert (Zpos (digits2_pos p) = 53) as Hd' by lia.
    exists p. rewrite Hd'. split_and!; [|lia|done].
    by apply (binary_round_aux_normal p 0).
  - assert (Zpos k = 53 - Zpos (digits2_pos p)) as Hk' by lia.
    exists (Pos.iter xO p k).
    assert (Zpos (Pos.iter xO p k) = Zpos p * 2 ^ (53 - Zpos (digits2_pos p)))
      as Hm by (by rewrite pos_iter_xO, Hk').
    assert (Zpos (digits2_pos (Pos.iter xO p k)) = 53) as Hd'.
    { apply digits2_pos_unique. rewrite Hm.
      assert (2 ^ (53 - 1)
              = 2 ^ (Zpos (digits2_pos p) - 1)
                * 2 ^ (53 - Zpos (digits2_pos p))) as ->.
      { rewrite <- Z.pow_add_r by lia. f_equal. lia. }
      assert (2 ^ 53
              = 2 ^ Zpos (digits2_pos p) * 2 ^ (53 - Zpos (digits2_pos p)))
        as ->.
      { rewrite <- Z.pow_add_r by lia. f_equal. lia. }
      assert (0 < 2 ^ (53 - Zpos (digits2_pos p)))
        by (apply Z.pow_pos_nonneg; lia).
      split; [apply Z.mul_le_mono_nonneg_r; lia
             |apply Z.mul_lt_mono_pos_r; lia]. }
    split_and!; [|done|done].
    apply binary_round_aux_normal; [done|lia].
Qed.

Lemma to_int_finite_neg (m : positive) e :
  e < 0 → F.to_int (S754_finite false m e) = Some (Zpos m / 2 ^ (- e)).
Proof. intros He. destruct e as [|k|k]; try lia. done. Qed.

Lemma round_nearest_even_bounds m l :
  m ≤ round_nearest_even m l ≤ m + 1.
Proof.
  destruct l as [|[| |]]; cbn [round_nearest_even]; try lia.
  destruct (Z.even m); lia.
Qed.

(** The integer part of the product of two floats with mantissas of 53
    digits: the product of the mantissas is shifted to the right by [n]
    digits, rounded up or down, and scaled. *)
Lemma mul_to_int (mx my : positive) ex ey :
  Zpos (digits2_pos mx) = 53 → Zpos (digits2_pos my) = 53 →
  -1000 ≤ ex + ey → ex + ey + 53 ≤ -2 →
  ∃ n q',
    52 ≤ n ≤ 53
    ∧ Zpos mx * Zpos my / 2 ^ n ≤ q' ≤ Zpos mx * Zpos my / 2 ^ n + 1
    ∧ F.to_int (F.mul (S754_finite false mx ex) (S754_finite false my ey))
      = Some (q' / 2 ^ (- (ex + ey + n))).
Proof.
  intros Hdx Hdy Hlo Hhi.
  pose proof (digits2_pos_bounds mx) as Hx. rewrite Hdx in Hx.
  pose proof (digits2_pos_bounds my) as Hy. rewrite Hdy in Hy.
  change (53 - 1) with 52 in Hx, Hy.
  set (m := (mx * my)%positive).
  assert (2 ^ 104 ≤ Zpos m < 2 ^ 106) as Hm.
  { unfold m. rewrite Pos2Z.inj_mul.
    change (2 ^ 104) with (2 ^ 52 * 2 ^ 52).
    change (2 ^ 106) with (2 ^ 53 * 2 ^ 53).
    split; [apply Z.mul_le_mono_nonneg; lia|apply Z.mul_lt_mono_nonneg; lia]. }
  pose proof (digits2_pos_bounds m) as HD.
  set (D := Zpos (digits2_pos m)) in *.
  assert (105 ≤ D ≤ 106) as HDr.
  { split.
    - destruct (Z.lt_ge_cases D 105); [|done].
      assert (2 ^ D ≤ 2 ^ 104) by (apply Z.pow_le_mono_r; lia). lia.
    - destruct (Z.lt_ge_cases 106 D); [|done].
      assert (2 ^ 106 ≤ 2 ^ (D - 1)) by (apply Z.pow_le_mono_r; lia). lia. }
  set (n := D - 53).
  set (q := Zpos m / 2 ^ n).
  assert (2 ^ 52 ≤ q < 2 ^ 53) as Hq.
  { assert (2 ^ (D - 1) = 2 ^ 52 * 2 ^ n) as E1
      by (unfold n; rewrite <- Z.pow_add_r by lia; f_equal; lia).
    assert (2 ^ D = 2 ^ 53 * 2 ^ n) as E2
      by (unfold n; rewrite <- Z.pow_add_r by lia; f_equal; lia).
    assert (0 < 2 ^ n) by (apply Z.pow_pos_nonneg; lia).
    unfold q. split.
    - apply Z.div_le_lower_bound; lia.
    - apply Z.div_lt_upper_bound; lia. }
  unfold F.mul, SFmul. cbn [xorb]. fold m.
  unfold binary_round_aux, shr_fexp, fexp, emin, F.prec, F.emax.
  cbn [Zdigits2]. fold D.
  replace (Z.max (D + (ex + ey) - 53) (3 - 1024 - 53) - (ex + ey))
    with n by (unfold n; lia).
  destruct n as [|pn|pn] eqn:Hn; try lia.
  cbn [shr].
  destruct (shr_m_iter_pos pn (shr_record_of_loc (Zpos m) loc_Exact))
    as [_ Hshift]; [by cbn|].
  destruct (SpecFloat.iter_pos shr_1 pn (shr_record_of_loc (Zpos m) loc_Exact))
    as [m1 r1 s1] eqn:Hrec.
  cbn [shr_record_of_loc shr_m] in Hshift. fold q in Hshift.
  subst m1. cbn [shr_m].
  pose proof (round_nearest_even_bounds q
                (loc_of_shr_record {| shr_m := q; shr_r := r1; shr_s := s1 |}))
    as Hq'.
  set (q' := round_nearest_even q _) in *.
  exists (Zpos pn), q'. split; [lia|]. split; [done|].
  destruct q' as [|pq'|pq'] eqn:Eq'; try lia.
  cbn [Zdigits2 shr_record_of_loc].
  pose proof (digits2_pos_bounds pq') as Hdq.
  destruct (Z.eq_dec (Zpos pq') (2 ^ 53)) as [Hfull|Hnotfull].
  - assert (Zpos (digits2_pos pq') = 54) as ->
      by (apply digits2_pos_unique; rewrite Hfull; done).
    replace (Z.max (54 + (ex + ey + Zpos pn) - 53) (3 - 1024 - 53)
             - (ex + ey + Zpos pn)) with 1 by lia.
    cbn [shr SpecFloat.iter_pos].
    assert (shr_m (shr_1 {| shr_m := Zpos pq'; shr_r := false; shr_s := false |})
            = 2 ^ 52) as Hhalf.
    { rewrite shr_m_shr_1 by (cbn; lia). cbn [shr_m]. by rewrite Hfull. }
    destruct (shr_1 _) as [m2 r2 s2]. cbn [shr_m] in Hhalf. subst m2.
    cbn [shr_m]. change (2 ^ 52) with (Zpos (2 ^ 52)%positive) at 1.
    cbv iota beta.
    destruct (Z.leb_spec (ex + ey + Zpos pn + 1) (1024 - 53)); [|lia].
    rewrite to_int_finite_neg by lia. f_equal.
    rewrite Hfull.
    replace (- (ex + ey + Zpos pn)) with (1 + - (ex + ey + Zpos pn + 1)) by lia.
    rewrite Z.pow_add_r by lia. change (2 ^ 1) with 2.
    change (2 ^ 53) with (2 * 2 ^ 52).
    rewrite Z.div_mul_cancel_l; [done| |lia].
    apply Z.pow_nonzero; lia.
  - assert (Zpos (digits2_pos pq') = 53) as ->
      by (apply digits2_pos_unique; change (53 - 1) with 52; lia).
    replace (Z.max (53 + (ex + ey + Zpos pn) - 53) (3 - 1024 - 53)
             - (ex + ey + Zpos pn)) with 0 by lia.
    cbn [shr shr_m].
    destruct (Z.leb_spec (ex + ey + Zpos pn) (1024 - 53)); [|lia].
    by rewrite to_int_finite_neg by lia.
Qed.

(** [int(n * 0.05)] is [n // 20] for every count of records below
    [2^27]. *)
Lemma num_duplicates_floor (num_records : nat) :
  Z.of_nat num_records < 2 ^ 27 →
  Generator.num_duplicates num_records = Some (Z.of_nat num_records / 20).
Proof.
  intros Hn. unfold Generator.num_duplicates.
  destruct (Z.of_nat num_records) as [|p|p] eqn:HN; [done| |lia].
  pose proof (digits2_pos_bounds p) as Hp.
  set (d := Zpos (digits2_pos p)) in *.
  assert (1 ≤ d ≤ 27) as Hd.
  { split; [unfold d; lia|].
    destruct (Z.lt_ge_cases 27 d); [|done].
    assert (2 ^ 27 ≤ 2 ^ (d - 1)) by (apply Z.pow_le_mono_r; lia). lia. }
  destruct (of_Z_pos p) as (mx & -> & Hmx & Hdx); [fold d; lia|]. fold d in Hmx |- *.
  change (F.dec 5 2) with (S754_finite false 7205759403792794 (-57)).
  destruct (mul_to_int mx 7205759403792794 (d - 53) (-57))
    as (n & q' & Hnr & Hq' & ->); [done|done|lia|lia|].
  f_equal.
  set (T := 2 ^ (53 - d)) in *.
  assert (2 ^ 26 ≤ T) as HT by (apply Z.pow_le_mono_r; lia).
  set (S := 2 ^ (- (d - 53 + -57 + n))).
  assert (0 < S) as HS by (apply Z.pow_pos_nonneg; lia).
  assert (0 < 2 ^ n) as Hpn by (apply Z.pow_pos_nonneg; lia).
  assert (2 ^ n ≤ 2 ^ 53) as Hpn' by (apply Z.pow_le_mono_r; lia).
  assert (2 ^ n * S = T * 2 ^ 57) as HnS.
  { unfold S, T. rewrite <- !Z.pow_add_r by lia. f_equal. lia. }
  set (k := Zpos p / 20).
  assert (20 * k ≤ Zpos p < 20 * k + 20) as Hk.
  { unfold k. pose proof (Z.div_mod (Zpos p) 20 ltac:(lia)).
    pose proof (Z.mod_pos_bound (Zpos p) 20 ltac:(lia)). lia. }
  set (q := Zpos mx * 7205759403792794 / 2 ^ n) in *.
  assert (2 ^ n * q ≤ Zpos mx * 7205759403792794 < 2 ^ n * (q + 1)) as Hqb.
  { unfold q. split.
    - apply Z.mul_div_le. lia.
    - rewrite Z.mul_add_distr_l, Z.mul_1_r.
      pose proof (Z.mul_succ_div_gt (Zpos mx * 7205759403792794) (2 ^ n) Hpn).
      lia. }
  rewrite Hmx in Hqb.
  change (q' / S = k). apply Z.le_antisymm.
  - (* the quotient is at most [k] *)
    apply Z.lt_succ_r, Z.div_lt_upper_bound; [done|].
    apply Z.le_lt_trans with (q + 1); [lia|].
    apply (Z.mul_lt_mono_pos_l (2 ^ n)); [done|].
    rewrite (Z.mul_assoc (2 ^ n) S), HnS.
    assert (T * (Zpos p * 7205759403792794 + 2 ^ 28)
            ≤ T * (2 ^ 57 * Z.succ k)) as Hmain.
    { apply Z.mul_le_mono_nonneg_l; [lia|]. change (2 ^ 57) with 144115188075855872.
      change (2 ^ 28) with 268435456. lia. }
    assert (2 * 2 ^ n ≤ T * 2 ^ 28) as Hsmall.
    { apply Z.le_trans with (2 ^ 26 * 2 ^ 28); [change (2 ^ 26 * 2 ^ 28) with (2 * 2 ^ 53); lia|].
      apply Z.mul_le_mono_nonneg_r; lia. }
    lia.
  - (* the quotient is at least [k] *)
    apply Z.div_le_lower_bound; [done|].
    apply Z.le_trans with q; [|lia].
    unfold q. apply Z.div_le_lower_bound; [done|].
    rewrite Hmx, (Z.mul_assoc (2 ^ n) S), HnS.
    assert (T * (2 ^ 57 * k) ≤ T * (Zpos p * 7205759403792794)) as Hmain.
    { apply Z.mul_le_mono_nonneg_l; [lia|]. change (2 ^ 57) with 144115188075855872.
      lia. }
    lia.
Qed.

End float_facts.

(** ** Generators: what they return *)

Section returns_facts.
Import Py Random Run.

Lemma returns_gret {A} (a : A) (Q : A → Prop) : Q a → returns (gret a) Q.
Proof. intros Ha g. by exists a, g. Qed.

Lemma returns_gbind {A B} (m : Gen A) (k : A → Gen B) Q R :
  returns m Q → (∀ a, Q a → returns (k a) R) → returns (gbind m k) R.
Proof.
  intros Hm Hk g. destruct (Hm g) as (a & g' & Hrun & Ha).
  destruct (Hk a Ha g') as (b & g'' & Hrun' & Hb).
  exists b, g''. unfold gbind. by rewrite Hrun.
Qed.

Lemma returns_weaken {A} (m : Gen A) (Q R : A → Prop) :
  returns m Q → (∀ a, Q a → R a) → returns m R.
Proof.
  intros Hm HQR g. destruct (Hm g) as (a & g' & Hrun & Ha).
  exists a, g'. auto.
Qed.

Lemma returns_of_option {A} (o : option A) a (Q : A → Prop) :
  o = Some a → Q a → returns (of_option o) Q.
Proof. intros -> Ha. by apply returns_gret. Qed.

Lemma returns_draw : returns draw (λ _, True).
Proof. intros g. by eexists _, _. Qed.

Lemma returns_np_draw : returns np_draw (λ _, True).
Proof. intros g. by eexists _, _. Qed.

Lemma returns_randbelow n :
  0 < n → returns (randbelow n) (λ k, 0 ≤ k < n).
Proof.
  intros Hn. unfold randbelow. eapply returns_gbind; [apply returns_draw|].
  intros k _. apply returns_gret. by apply Z.mod_pos_bound.
Qed.

Lemma returns_randint a b :
  a ≤ b → returns (randint a b) (λ k, a ≤ k ≤ b).
Proof.
  intros Hab. unfold randint.
  destruct (Z.leb_spec (b - a + 1) 0); [lia|].
  eapply returns_gbind; [apply returns_randbelow; lia|].
  intros k Hk. cbn beta in Hk. apply returns_gret. lia.
Qed.

Lemma succeeds_gret {A} (a : A) : succeeds (gret a).
Proof. by apply returns_gret. Qed.

Lemma succeeds_gbind {A B} (m : Gen A) (k : A → Gen B) :
  succeeds m → (∀ a, succeeds (k a)) → succeeds (gbind m k).
Proof. intros Hm Hk. eapply returns_gbind; [exact Hm|]. intros a _. apply Hk. Qed.

Lemma succeeds_returns {A} (m : Gen A) Q : returns m Q → succeeds m.
Proof. intros Hm. by eapply returns_weaken. Qed.

Lemma succeeds_random : succeeds random.
Proof.
  unfold random. apply succeeds_gbind; [apply returns_draw|].
  intros k. apply succeeds_gret.
Qed.

Lemma succeeds_randint a b : a ≤ b → succeeds (randint a b).
Proof. intros Hab. eapply succeeds_returns. by apply returns_randint. Qed.

Lemma succeeds_choice {A} (x : A) (l : list A) : succeeds (choice (x :: l)).
Proof.
  unfold choice. apply succeeds_gbind.
  - eapply succeeds_returns, returns_randbelow. simpl. lia.
  - intros k. apply succeeds_gret.
Qed.

Lemma succeeds_uniform a b : succeeds (uniform a b).
Proof.
  unfold uniform. apply succeeds_gbind; [apply succeeds_random|].
  intros r. apply succeeds_gret.
Qed.

Lemma succeeds_np_choice {A} (d : A) a p : succeeds (np_choice d a p).
Proof.
  unfold np_choice. apply succeeds_gbind; [apply returns_np_draw|].
  intros k. apply succeeds_gret.
Qed.

Lemma succeeds_issue has_issues p : succeeds (issue has_issues p).
Proof.
  unfold issue. destruct has_issues; [|apply succeeds_gret].
  apply succeeds_gbind; [apply succeeds_random|].
  intros r. apply succeeds_gret.
Qed.

Lemma succeeds_bind_randint {B} a b (k : Z → Gen B) :
  a ≤ b → (∀ v, a ≤ v ≤ b → succeeds (k v)) → succeeds (gbind (randint a b) k).
Proof. intros Hab Hk. eapply returns_gbind; [by apply returns_randint|]. done. Qed.

Lemma succeeds_bind_of_option {A B} (o : option A) a (k : A → Gen B) :
  o = Some a → succeeds (k a) → succeeds (gbind (of_option o) k).
Proof.
  intros Ho Hk. eapply returns_gbind; [by eapply (returns_of_option _ _ (λ x, x = a))|].
  by intros ? ->.
Qed.

(** [random.sample] returns as many positions as it is asked for. *)
Lemma returns_sample_from pool k :
  (k ≤ length pool)%nat →
  returns (sample_from pool k) (λ l, length l = k).
Proof.
  revert pool; induction k as [|k IH]; intros pool Hk; cbn [sample_from].
  - by apply returns_gret.
  - eapply returns_gbind; [apply returns_randbelow; lia|].
    intros j Hj. cbn beta in Hj. cbv zeta.
    eapply returns_gbind.
    + apply IH. rewrite length_take, length_insert. lia.
    + intros rest Hrest. cbn beta in Hrest. apply returns_gret. simpl.
      by rewrite Hrest.
Qed.

(** The loop of the second branch does not raise, and a position it
    returns is one below [n] that was not selected before. *)
Lemma returns_fresh_below fuel n selected :
  0 < n →
  returns (fresh_below fuel n selected)
    (λ o, ∀ j, o = Some j → Z.of_nat j < n ∧ j ∉ selected).
Proof.
  intros Hn. induction fuel as [|fuel IH]; cbn [fresh_below].
  - by apply returns_gret.
  - eapply returns_gbind; [by apply returns_randbelow|].
    intros j Hj. cbn beta in Hj. cbv zeta.
    case_bool_decide as Hin; [exact IH|].
    apply returns_gret. intros j' [= <-]. split; [lia|done].
Qed.

Lemma returns_sample_set fuel n selected k :
  0 < n →
  returns (sample_set fuel n selected k)
    (λ o, ∀ l, o = Some l →
               length l = k ∧ NoDup l
               ∧ Forall (λ j, Z.of_nat j < n ∧ j ∉ selected) l).
Proof.
  intros Hn. revert selected; induction k as [|k IH]; intros selected;
    cbn [sample_set].
  - apply returns_gret. intros l [= <-]. by split_and!; constructor.
  - eapply returns_gbind; [by apply returns_fresh_below|].
    intros [j|] Hj; [|by apply returns_gret].
    destruct (Hj j eq_refl) as [Hlt Hnin].
    eapply returns_gbind; [apply IH|].
    intros [rest|] Hrest; apply returns_gret; [|done].
    intros l [= <-]. destruct (Hrest rest eq_refl) as (Hlen & Hnd & Hall).
    split_and!.
    + simpl. by rewrite Hlen.
    + constructor; [|done]. intros Hin.
      rewrite Forall_forall in Hall. destruct (Hall j Hin) as [_ Hj'].
      apply Hj'. by left.
    + constructor; [done|]. eapply Forall_impl; [exact Hall|].
      intros j' [? Hj']. split; [done|]. intros ?. apply Hj'. by right.
Qed.

Lemma setsize_ge k : 21 ≤ setsize k.
Proof.
  unfold setsize. destruct (5 <? k)%nat; [|done].
  pose proof (Z.pow_nonneg 4 (ceil_log4 (Z.of_nat k * 3)) ltac:(lia)). lia.
Qed.

(** [random.sample] does not raise when it is asked for no more
    positions than there are, and it returns as many as it is asked
    for. *)
Lemma returns_sample_range fuel n k :
  (k ≤ n)%nat →
  returns (sample_range fuel n k) (λ o, ∀ l, o = Some l → length l = k).
Proof.
  intros Hk. unfold sample_range.
  destruct (Nat.ltb_spec n k); [lia|].
  destruct (Z.leb_spec (Z.of_nat n) (setsize k)) as [Hpool|Hset].
  - eapply returns_gbind;
      [apply returns_sample_from; by rewrite length_seq|].
    intros l Hl. apply returns_gret. by intros ? [= <-].
  - pose proof (setsize_ge k).
    eapply returns_weaken; [apply returns_sample_set; lia|].
    intros o Ho l Hl. by destruct (Ho l Hl).
Qed.

End returns_facts.

(** ** The loops of [random.sample] that end *)

Section sample_ends.
Import Py Random Run.

Lemma covers_tape bound n g g' :
  tape (random_state g') = tape (random_state g) →
  covers bound n g → covers bound n g'.
Proof. intros Heq Hc p j Hj. rewrite Heq. by apply Hc. Qed.

Lemma reads_on_gret {A} (a : A) : reads_on (gret a).
Proof. by intros g a' g' [= _ <-]. Qed.

Lemma reads_on_gbind {A B} (m : Gen A) (k : A → Gen B) :
  reads_on m → (∀ a, reads_on (k a)) → reads_on (gbind m k).
Proof.
  intros Hm Hk g b g'. unfold gbind.
  destruct (m g) as [[a g1]|] eqn:Hrun; [|done].
  intros Hrun'. rewrite (Hk a g1 b g' Hrun'). by eapply Hm.
Qed.

Lemma reads_on_raise {A} : reads_on (@raise A).
Proof. by intros g a g'. Qed.

Lemma reads_on_of_option {A} (o : option A) : reads_on (of_option o).
Proof. destruct o; [apply reads_on_gret|apply reads_on_raise]. Qed.

Lemma reads_on_draw : reads_on draw.
Proof. by intros g a g' [= _ <-]. Qed.

Lemma reads_on_np_draw : reads_on np_draw.
Proof. by intros g a g' [= _ <-]. Qed.

Lemma reads_on_random : reads_on random.
Proof.
  apply reads_on_gbind; [apply reads_on_draw|]. intros k. apply reads_on_gret.
Qed.

Lemma reads_on_randbelow n : reads_on (randbelow n).
Proof.
  apply reads_on_gbind; [apply reads_on_draw|]. intros k. apply reads_on_gret.
Qed.

Lemma reads_on_randint a b : reads_on (randint a b).
Proof.
  unfold randint. destruct (b - a + 1 <=? 0); [apply reads_on_raise|].
  apply reads_on_gbind; [apply reads_on_randbelow|].
  intros k. apply reads_on_gret.
Qed.

Lemma reads_on_choice {A} (seq : list A) : reads_on (choice seq).
Proof.
  destruct seq as [|x seq]; [apply reads_on_raise|].
  apply reads_on_gbind; [apply reads_on_randbelow|].
  intros k. apply reads_on_gret.
Qed.

Lemma reads_on_uniform a b : reads_on (uniform a b).
Proof.
  apply reads_on_gbind; [apply reads_on_random|]. intros r. apply reads_on_gret.
Qed.

Lemma reads_on_np_choice {A} (d : A) a p : reads_on (np_choice d a p).
Proof.
  apply reads_on_gbind; [apply reads_on_np_draw|].
  intros k. apply reads_on_gret.
Qed.

Lemma reads_on_issue has_issues p : reads_on (issue has_issues p).
Proof.
  destruct has_issues; [|apply reads_on_gret].
  apply reads_on_gbind; [apply reads_on_random|]. intros r. apply reads_on_gret.
Qed.

(** A position that was not selected is below the next draws: the loop
    ends with it, or with one before. *)
Lemma fresh_below_ends fuel n selected g :
  (∃ q, (q < fuel)%nat
        ∧ Z.to_nat (Z.of_N (tape (random_state g) (pos (random_state g) + q))
                    mod n) ∉ selected) →
  ∃ j g', fresh_below fuel n selected g = Some (Some j, g')
          ∧ tape (random_state g') = tape (random_state g).
Proof.
  revert g; induction fuel as [|fuel IH]; intros g (q & Hq & Hfresh); [lia|].
  cbn [fresh_below]. unfold gbind at 1, randbelow, gbind, draw, gret.
  cbv zeta. case_bool_decide as Hin.
  - destruct q as [|q]; [by rewrite Nat.add_0_r in Hfresh|].
    destruct (IH {| random_state :=
                      {| tape := tape (random_state g);
                         pos := S (pos (random_state g)) |};
                    numpy_state := numpy_state g |}) as (j & g' & Hrun & Ht).
    { exists q. split; [lia|]. cbn [random_state tape pos].
      by rewrite Nat.add_succ_comm. }
    exists j, g'. by split.
  - by eexists _, _.
Qed.

(** Fewer than [n] positions leave a position below [n]. *)
Lemma position_left (n : nat) (selected : list nat) :
  (length selected < n)%nat → ∃ j, (j < n)%nat ∧ j ∉ selected.
Proof.
  intros Hlen.
  destruct (decide (Forall (λ j, j ∈ selected) (seq 0 n))) as [Hall|Hnot].
  - exfalso. rewrite Forall_forall in Hall.
    assert (seq 0 n ⊆+ selected) as Hsub
      by (apply NoDup_submseteq; [apply NoDup_seq|done]).
    apply submseteq_length in Hsub. rewrite length_seq in Hsub. lia.
  - apply not_Forall_Exists in Hnot; [|apply _].
    apply Exists_exists in Hnot as (j & Hj & Hnin).
    exists j. split; [|done]. apply elem_of_seq in Hj. lia.
Qed.

Lemma fresh_below_covers fuel (n : nat) selected g :
  covers fuel n g → (length selected < n)%nat →
  ∃ j g', fresh_below fuel (Z.of_nat n) selected g = Some (Some j, g')
          ∧ tape (random_state g') = tape (random_state g).
Proof.
  intros Hc Hlen. apply fresh_below_ends.
  destruct (position_left n selected Hlen) as (j & Hj & Hnin).
  destruct (Hc (pos (random_state g)) j Hj) as (q & Hq & Heq).
  exists q. split; [done|]. by rewrite Heq, Nat2Z.id.
Qed.

Lemma sample_set_covers fuel (n : nat) selected k g :
  covers fuel n g → (length selected + k ≤ n)%nat →
  ∃ l g', sample_set fuel (Z.of_nat n) selected k g = Some (Some l, g')
          ∧ tape (random_state g') = tape (random_state g).
Proof.
  revert selected g; induction k as [|k IH]; intros selected g Hc Hlen;
    cbn [sample_set].
  - by eexists _, _.
  - destruct (fresh_below_covers fuel n selected g Hc ltac:(lia))
      as (j & g1 & Hrun & Ht1).
    unfold gbind at 1. rewrite Hrun.
    destruct (IH (j :: selected) g1) as (l & g2 & Hrun2 & Ht2).
    { by eapply covers_tape. }
    { simpl. lia. }
    unfold gbind. rewrite Hrun2. eexists _, _. split; [done|].
    by rewrite Ht2.
Qed.

(** [random.sample] ends when it takes its first branch, and on a
    stream that covers the positions when it takes the second. *)
Lemma sample_range_ends fuel n k g :
  (k ≤ n)%nat → (n ≤ 21)%nat ∨ covers fuel n g →
  ∃ l g', sample_range fuel n k g = Some (Some l, g').
Proof.
  intros Hk Hends. unfold sample_range.
  destruct (Nat.ltb_spec n k); [lia|].
  destruct (Z.leb_spec (Z.of_nat n) (setsize k)) as [Hpool|Hset].
  - destruct (returns_sample_from (seq 0 n) k) with (g := g)
      as (l & g' & Hrun & _); [by rewrite length_seq|].
    unfold gbind. rewrite Hrun. by eexists _, _.
  - destruct Hends as [Hsmall|Hc].
    + pose proof (setsize_ge k). lia.
    + destruct (sample_set_covers fuel n [] k g Hc) as (l & g' & Hrun & _);
        [simpl; lia|].
      by eexists _, _.
Qed.

End sample_ends.

Section generator_returns.
Import Py Random Run Generator.

Lemma returns_for_range i n body :
  (∀ j, (i ≤ j < i + n)%nat → succeeds (body j)) →
  returns (for_range i n body) (λ rows, length rows = n).
Proof.
  revert i; induction n as [|n IH]; intros i Hbody; cbn [for_range].
  - by apply returns_gret.
  - eapply returns_gbind; [apply Hbody; lia|]. intros row _.
    eapply returns_gbind; [apply IH; intros j Hj; apply Hbody; lia|].
    intros rows Hrows. cbn beta in Hrows. apply returns_gret. simpl.
    by rewrite Hrows.
Qed.

Lemma reads_on_for_range i n body :
  (∀ j, reads_on (body j)) → reads_on (for_range i n body).
Proof.
  intros Hbody. revert i; induction n as [|n IH]; intros i; cbn [for_range].
  - apply reads_on_gret.
  - apply reads_on_gbind; [apply Hbody|]. intros row.
    apply reads_on_gbind; [apply IH|]. intros rows. apply reads_on_gret.
Qed.

Lemma returns_modify_duplicates ids duplicates :
  duplicates = [] ∨ ids ≠ [] →
  returns (modify_duplicates ids duplicates)
    (λ rows, length rows = length duplicates).
Proof.
  intros Hids. induction duplicates as [|row duplicates IH];
    cbn [modify_duplicates].
  - by apply returns_gret.
  - destruct Hids as [?|Hids]; [done|].
    eapply returns_gbind; [apply succeeds_random|]. intros r _.
    eapply returns_gbind.
    + instantiate (1 := λ _, True).
      destruct (F.ltb r (F.dec 5 1)); [|by apply returns_gret].
      apply succeeds_gbind; [|intros; apply succeeds_gret].
      destruct ids as [|id ids]; [done|]. apply succeeds_choice.
    + intros row' _. eapply returns_gbind; [apply IH; by right|].
      intros rows Hrows. cbn beta in Hrows. apply returns_gret. simpl.
      by rewrite Hrows.
Qed.

Lemma length_iloc df positions : length (iloc df positions) = length positions.
Proof. unfold iloc. by rewrite length_fmap. Qed.

Lemma length_permutation `{S : Shuffle} `{!ShuffleLaws S} seed n :
  length (permutation seed n) = n.
Proof. by rewrite permutation_Permutation, length_seq. Qed.

Lemma modify_duplicates_ids k (positions : list nat) (df : frame) (n : nat) :
  length positions = k → (k ≤ n)%nat → length df = n →
  iloc df positions = [] ∨ (λ row, nth 0 row VNone) <$> df ≠ [].
Proof.
  intros Hpos Hkn Hdf. destruct k as [|k]; [left|right].
  - by destruct positions.
  - destruct df as [|row df]; [simpl in Hdf; lia|]. done.
Qed.

(** The end of a generator does not raise, and it adds [k] rows to a
    frame of [n] rows, when [int(n * 0.05)] is [k] and [k] does not
    exceed [n]. *)
Lemma returns_add_duplicates_and_shuffle `{S : Shuffle} `{!ShuffleLaws S}
  fuel n k df :
  num_duplicates n = Some (Z.of_nat k) → (k ≤ n)%nat → length df = n →
  returns (add_duplicates_and_shuffle fuel n df)
    (λ o, ∀ out, o = Some out → length out = (n + k)%nat).
Proof.
  intros Hk Hkn Hdf. unfold add_duplicates_and_shuffle.
  eapply returns_gbind.
  { apply (returns_of_option _ _ (λ v, v = Z.of_nat k) Hk). done. }
  intros ? ->. rewrite Nat2Z.id.
  eapply returns_gbind; [by apply returns_sample_range|].
  intros [positions|] Hpos; [|by apply returns_gret].
  specialize (Hpos positions eq_refl). cbv zeta.
  eapply returns_gbind.
  { apply returns_modify_duplicates. by eapply modify_duplicates_ids. }
  intros duplicates Hdup. cbn beta in Hdup. apply returns_gret.
  intros out [= <-].
  rewrite length_iloc, length_permutation, length_app, Hdup, length_iloc.
  lia.
Qed.

(** It ends when [random.sample] does. *)
Lemma add_duplicates_and_shuffle_ends `{S : Shuffle} `{!ShuffleLaws S}
  fuel n k df g :
  num_duplicates n = Some (Z.of_nat k) → (k ≤ n)%nat → length df = n →
  (n ≤ 21)%nat ∨ covers fuel n g →
  ∃ out g', add_duplicates_and_shuffle fuel n df g = Some (Some out, g').
Proof.
  intros Hk Hkn Hdf Hends. unfold add_duplicates_and_shuffle.
  rewrite Hk. unfold of_option, gbind at 1, gret. rewrite Nat2Z.id.
  destruct (sample_range_ends fuel n k g Hkn Hends)
    as (positions & g1 & Hrun).
  unfold gbind at 1. rewrite Hrun. cbv zeta.
  destruct (returns_sample_range fuel n k Hkn g)
    as (o & g1' & Hrun' & Hpos).
  rewrite Hrun in Hrun'. injection Hrun' as <- <-.
  specialize (Hpos positions eq_refl).
  destruct (returns_modify_duplicates ((λ row, nth 0 row VNone) <$> df)
              (iloc df positions)) with (g := g1)
    as (duplicates & g2 & Hrun2 & _).
  { by eapply modify_duplicates_ids. }
  unfold gbind. rewrite Hrun2. by eexists _, _.
Qed.

(** The timestamps of the records still fit [datetime]. *)
Lemma datetime_add_start (i : nat) m :
  Z.of_nat i < max_records → 0 ≤ m ≤ 59 →
  Datetime.add start_date (Z.of_nat i) m
  = Some (start_date + 60 * Z.of_nat i + m).
Proof.
  intros Hi Hm. unfold Datetime.add.
  change Datetime.limit with 4223371680.
  change start_date with 28401120 at 1.
  unfold max_records in Hi.
  destruct (Z.ltb_spec (28401120 + 60 * Z.of_nat i + m) 4223371680); [done|lia].
Qed.

End generator_returns.

(** A generator built from the functions of [random] does not raise. *)
Ltac succeeds_step :=
  lazymatch goal with
  | |- Run.succeeds (Py.gret _) => apply succeeds_gret
  | |- Run.succeeds Random.random => apply succeeds_random
  | |- Run.succeeds (Random.issue _ _) => apply succeeds_issue
  | |- Run.succeeds (Random.uniform _ _) => apply succeeds_uniform
  | |- Run.succeeds (Random.np_choice _ _ _) => apply succeeds_np_choice
  | |- Run.succeeds (Random.choice _) => apply succeeds_choice
  | |- Run.succeeds (Random.randint _ _) => apply succeeds_randint; lia
  | |- Run.succeeds (Py.gbind (Py.of_option _) _) =>
      eapply succeeds_bind_of_option;
      [apply datetime_add_start; [assumption|lia]|]
  | |- Run.succeeds (Py.gbind (Random.randint _ _) _) =>
      apply succeeds_bind_randint; [lia|intros ? ?]
  | |- Run.succeeds (Py.gbind _ _) => apply succeeds_gbind; [|intros ?]
  | |- Run.succeeds (if ?b then _ else _) => destruct b
  end.

(** A generator built from the functions of [random] leaves the stream
    as it is, but for its position. *)
Ltac reads_on_step :=
  lazymatch goal with
  | |- Run.reads_on (Py.gret _) => apply reads_on_gret
  | |- Run.reads_on Random.random => apply reads_on_random
  | |- Run.reads_on (Random.issue _ _) => apply reads_on_issue
  | |- Run.reads_on (Random.uniform _ _) => apply reads_on_uniform
  | |- Run.reads_on (Random.np_choice _ _ _) => apply reads_on_np_choice
  | |- Run.reads_on (Random.choice _) => apply reads_on_choice
  | |- Run.reads_on (Random.randint _ _) => apply reads_on_randint
  | |- Run.reads_on (Py.of_option _) => apply reads_on_of_option
  | |- Run.reads_on (Py.gbind _ _) => apply reads_on_gbind; [|intros ?]
  | |- Run.reads_on (if ?b then _ else _) => destruct b
  end.

Section records_return.
Import Py Random Run Generator.

Lemma weather_record_succeeds (i : nat) :
  Z.of_nat i < max_records → succeeds (WeatherGenerator.record i).
Proof.
  intros Hi. unfold WeatherGenerator.record. cbv zeta.
  repeat succeeds_step.
Qed.

Lemma traffic_record_succeeds (i : nat) :
  Z.of_nat i < max_records → succeeds (TrafficGenerator.record i).
Proof.
  intros Hi. unfold TrafficGenerator.record. cbv zeta.
  repeat succeeds_step.
Qed.

Lemma weather_record_reads_on (i : nat) : reads_on (WeatherGenerator.record i).
Proof. unfold WeatherGenerator.record. cbv zeta. repeat reads_on_step. Qed.

Lemma traffic_record_reads_on (i : nat) : reads_on (TrafficGenerator.record i).
Proof. unfold TrafficGenerator.record. cbv zeta. repeat reads_on_step. Qed.

End records_return.

(** ** Properties of the generators *)

Section generator_properties.
Import Py Random Run Generator.
Context `{S : Shuffle} `{!ShuffleLaws S}.

Lemma num_duplicates_records (n : nat) :
  Z.of_nat n ≤ max_records →
  num_duplicates n = Some (Z.of_nat (Z.to_nat (Z.of_nat n / 20)))
  ∧ (Z.to_nat (Z.of_nat n / 20) ≤ n)%nat.
Proof.
  intros Hn. unfold max_records in Hn. split.
  - rewrite Z2Nat.id by (apply Z.div_pos; lia).
    apply num_duplicates_floor. change (2 ^ 27) with 134217728. lia.
  - apply Nat2Z.inj_le. rewrite Z2Nat.id by (apply Z.div_pos; lia).
    apply Z.div_le_upper_bound; lia.
Qed.

(** A generator whose records do not raise does not raise, and the
    frame it returns has the records and the duplicates. *)
Lemma returns_generate (record : nat → Gen (list value)) (fuel n : nat) :
  Z.of_nat n ≤ max_records →
  (∀ i, Z.of_nat i < max_records → succeeds (record i)) →
  returns
    (gbind (for_range 0 n record) (add_duplicates_and_shuffle fuel n))
    (λ o, ∀ df, o = Some df →
                Z.of_nat (length df) = Z.of_nat n + Z.of_nat n / 20).
Proof.
  intros Hn Hrecord. destruct (num_duplicates_records n Hn) as [Hk Hkn].
  unfold max_records in *.
  eapply returns_gbind.
  { apply returns_for_range. intros j Hj. apply Hrecord. lia. }
  intros df Hdf. cbn beta in Hdf.
  eapply returns_weaken.
  - by apply (returns_add_duplicates_and_shuffle fuel n
                (Z.to_nat (Z.of_nat n / 20))).
  - intros o Ho out Hout. rewrite (Ho out Hout), Nat2Z.inj_add.
    rewrite Z2Nat.id by (apply Z.div_pos; lia). done.
Qed.

(** It ends when the loops of [random.sample] do: for at most 21
    records, and on a stream that covers the positions. *)
Lemma generate_ends (record : nat → Gen (list value)) (fuel n : nat) g :
  Z.of_nat n ≤ max_records →
  (∀ i, Z.of_nat i < max_records → succeeds (record i)) →
  (∀ i, reads_on (record i)) →
  (n ≤ 21)%nat ∨ covers fuel n g →
  ∃ df g',
    gbind (for_range 0 n record) (add_duplicates_and_shuffle fuel n) g
    = Some (Some df, g').
Proof.
  intros Hn Hrecord Hreads Hends.
  destruct (num_duplicates_records n Hn) as [Hk Hkn].
  destruct (returns_for_range 0 n record) with (g := g)
    as (df & g1 & Hrun & Hdf).
  { intros j Hj. apply Hrecord. unfold max_records in *. lia. }
  unfold gbind. rewrite Hrun.
  eapply add_duplicates_and_shuffle_ends; [done..|].
  destruct Hends as [?|Hc]; [by left|right].
  eapply covers_tape; [|exact Hc].
  by eapply (reads_on_for_range 0 n record).
Qed.

End generator_properties.

(** ** Generators: two runs that read the same draws *)

Section deterministic_facts.
Import Py Random Run Generator.

Lemma same_draws_refl g : same_draws g g.
Proof. by split. Qed.

Lemma deterministic_gret {A} (a : A) : deterministic (gret a).
Proof. intros g1 g2 Hg. by split. Qed.

Lemma deterministic_raise {A} : deterministic (@raise A).
Proof. by intros g1 g2 Hg. Qed.

Lemma deterministic_gbind {A B} (m : Gen A) (k : A → Gen B) :
  deterministic m → (∀ a, deterministic (k a)) → deterministic (gbind m k).
Proof.
  intros Hm Hk g1 g2 Hg. specialize (Hm g1 g2 Hg). unfold gbind.
  destruct (m g1) as [[a1 g1']|], (m g2) as [[a2 g2']|]; try done.
  destruct Hm as [-> Hg']. by apply Hk.
Qed.

Lemma deterministic_of_option {A} (o : option A) : deterministic (of_option o).
Proof. destruct o; [apply deterministic_gret|apply deterministic_raise]. Qed.

Lemma deterministic_draw : deterministic draw.
Proof.
  intros g1 g2 [Hpy Hnp]. unfold draw. cbn [same_outcome]. split.
  - specialize (Hpy 0%nat). by rewrite !Nat.add_0_r in Hpy.
  - split; cbn [random_state numpy_state tape pos]; [|done].
    intros k. specialize (Hpy (S k)). by rewrite !Nat.add_succ_r in Hpy.
Qed.

Lemma deterministic_np_draw : deterministic np_draw.
Proof.
  intros g1 g2 [Hpy Hnp]. unfold np_draw, NumpyRandom.draw.
  cbn [same_outcome]. split.
  - specialize (Hnp 0%nat). by rewrite !Nat.add_0_r in Hnp.
  - split; cbn [random_state numpy_state NumpyRandom.tape NumpyRandom.pos];
      [done|].
    intros k. specialize (Hnp (S k)). by rewrite !Nat.add_succ_r in Hnp.
Qed.

Lemma deterministic_random : deterministic random.
Proof.
  apply deterministic_gbind; [apply deterministic_draw|].
  intros k. apply deterministic_gret.
Qed.

Lemma deterministic_randbelow n : deterministic (randbelow n).
Proof.
  apply deterministic_gbind; [apply deterministic_draw|].
  intros k. apply deterministic_gret.
Qed.

Lemma deterministic_randint a b : deterministic (randint a b).
Proof.
  unfold randint. destruct (b - a + 1 <=? 0); [apply deterministic_raise|].
  apply deterministic_gbind; [apply deterministic_randbelow|].
  intros k. apply deterministic_gret.
Qed.

Lemma deterministic_choice {A} (seq : list A) : deterministic (choice seq).
Proof.
  destruct seq as [|x seq]; [apply deterministic_raise|].
  apply deterministic_gbind; [apply deterministic_randbelow|].
  intros k. apply deterministic_gret.
Qed.

Lemma deterministic_uniform a b : deterministic (uniform a b).
Proof.
  apply deterministic_gbind; [apply deterministic_random|].
  intros r. apply deterministic_gret.
Qed.

Lemma deterministic_np_choice {A} (d : A) a p : deterministic (np_choice d a p).
Proof.
  apply deterministic_gbind; [apply deterministic_np_draw|].
  intros k. apply deterministic_gret.
Qed.

Lemma deterministic_issue has_issues p : deterministic (issue has_issues p).
Proof.
  destruct has_issues; [|apply deterministic_gret].
  apply deterministic_gbind; [apply deterministic_random|].
  intros r. apply deterministic_gret.
Qed.

Lemma deterministic_sample_from pool k : deterministic (sample_from pool k).
Proof.
  revert pool; induction k as [|k IH]; intros pool; cbn [sample_from].
  - apply deterministic_gret.
  - apply deterministic_gbind; [apply deterministic_randbelow|].
    intros j. cbv zeta. apply deterministic_gbind; [apply IH|].
    intros rest. apply deterministic_gret.
Qed.

Lemma deterministic_for_range i n body :
  (∀ j, deterministic (body j)) → deterministic (for_range i n body).
Proof.
  intros Hbody. revert i; induction n as [|n IH]; intros i; cbn [for_range].
  - apply deterministic_gret.
  - apply deterministic_gbind; [apply Hbody|]. intros row.
    apply deterministic_gbind; [apply IH|]. intros rows.
    apply deterministic_gret.
Qed.

Lemma deterministic_modify_duplicates ids duplicates :
  deterministic (modify_duplicates ids duplicates).
Proof.
  induction duplicates as [|row duplicates IH]; cbn [modify_duplicates].
  - apply deterministic_gret.
  - apply deterministic_gbind; [apply deterministic_random|]. intros r.
    apply deterministic_gbind.
    + destruct (F.ltb r (F.dec 5 1)); [|apply deterministic_gret].
      apply deterministic_gbind; [apply deterministic_choice|].
      intros id. apply deterministic_gret.
    + intros row'. apply deterministic_gbind; [apply IH|].
      intros rows. apply deterministic_gret.
Qed.

End deterministic_facts.

(** A generator built from the functions of [random] reads nothing but
    the draws. *)
Ltac deterministic_step :=
  lazymatch goal with
  | |- Run.deterministic (Py.gret _) => apply deterministic_gret
  | |- Run.deterministic Random.random => apply deterministic_random
  | |- Run.deterministic (Random.issue _ _) => apply deterministic_issue
  | |- Run.deterministic (Random.uniform _ _) => apply deterministic_uniform
  | |- Run.deterministic (Random.np_choice _ _ _) => apply deterministic_np_choice
  | |- Run.deterministic (Random.choice _) => apply deterministic_choice
  | |- Run.deterministic (Random.randint _ _) => apply deterministic_randint
  | |- Run.deterministic (Py.of_option _) => apply deterministic_of_option
  | |- Run.deterministic (Py.gbind _ _) => apply deterministic_gbind; [|intros ?]
  | |- Run.deterministic (if ?b then _ else _) => destruct b
  end.

Section generators_deterministic.
Import Py Random Run Generator.

Lemma weather_record_deterministic i : deterministic (WeatherGenerator.record i).
Proof. unfold WeatherGenerator.record. cbv zeta. repeat deterministic_step. Qed.

Lemma traffic_record_deterministic i : deterministic (TrafficGenerator.record i).
Proof. unfold TrafficGenerator.record. cbv zeta. repeat deterministic_step. Qed.

End generators_deterministic.

(** ** Generators: runs with different amounts of fuel *)

Section agreeing_facts.
Import Py Random Run Generator.

Lemma agreeing_gret {A} (o : option A) : agreeing (gret o) (gret o).
Proof. intros g1 g2 Hg. by destruct o. Qed.

Lemma agreeing_running_l {A} (m : Gen (option A)) : agreeing (gret None) m.
Proof. by intros g1 g2 Hg. Qed.

Lemma agreeing_running_r {A} (m : Gen (option A)) : agreeing m (gret None).
Proof. intros g1 g2 Hg. cbn. by destruct (m g1) as [[[a|] g]|]. Qed.

(** After a step that has no loop. *)
Lemma agreeing_gbind {A B} (m : Gen A) (k1 k2 : A → Gen (option B)) :
  deterministic m → (∀ a, agreeing (k1 a) (k2 a)) →
  agreeing (gbind m k1) (gbind m k2).
Proof.
  intros Hm Hk g1 g2 Hg. specialize (Hm g1 g2 Hg). unfold gbind.
  destruct (m g1) as [[a1 g1']|], (m g2) as [[a2 g2']|]; try done.
  destruct Hm as [-> Hg']. by apply Hk.
Qed.

(** After a step with a loop: what follows is run when the loop has
    ended. *)
Lemma agreeing_after {A B} (m1 m2 : Gen (option A))
  (k1 k2 : A → Gen (option B)) :
  agreeing m1 m2 → (∀ a, agreeing (k1 a) (k2 a)) →
  agreeing
    (gbind m1 (λ o, match o with Some a => k1 a | None => gret None end))
    (gbind m2 (λ o, match o with Some a => k2 a | None => gret None end)).
Proof.
  intros Hm Hk g1 g2 Hg. specialize (Hm g1 g2 Hg). unfold gbind.
  destruct (m1 g1) as [[[a1|] g1']|], (m2 g2) as [[[a2|] g2']|];
    cbn in Hm |- *; try done.
  - destruct Hm as [-> Hg']. by apply Hk.
  - by destruct (k1 a1 g1') as [[[b|] g]|].
Qed.

Lemma agreeing_fmap {A B} (f : A → B) (m1 m2 : Gen (option A)) :
  agreeing m1 m2 →
  agreeing (gbind m1 (λ o, gret (f <$> o))) (gbind m2 (λ o, gret (f <$> o))).
Proof.
  intros Hm g1 g2 Hg. specialize (Hm g1 g2 Hg). unfold gbind, gret.
  destruct (m1 g1) as [[[a1|] g1']|], (m2 g2) as [[[a2|] g2']|];
    cbn in Hm |- *; try done.
  by destruct Hm as [-> Hg'].
Qed.

(** The loop of [random.sample] ends with the first position that was
    not selected, however much fuel is left. *)
Lemma fresh_below_agreeing fuel1 fuel2 n selected :
  agreeing (fresh_below fuel1 n selected) (fresh_below fuel2 n selected).
Proof.
  revert fuel2; induction fuel1 as [|fuel1 IH]; intros [|fuel2];
    cbn [fresh_below]; try apply agreeing_running_l;
    try apply agreeing_running_r.
  apply agreeing_gbind; [apply deterministic_randbelow|].
  intros j. cbv zeta. case_bool_decide; [apply IH|apply agreeing_gret].
Qed.

Lemma sample_set_agreeing fuel1 fuel2 n selected k :
  agreeing (sample_set fuel1 n selected k) (sample_set fuel2 n selected k).
Proof.
  revert selected; induction k as [|k IH]; intros selected; cbn [sample_set].
  - apply agreeing_gret.
  - apply (agreeing_after (fresh_below fuel1 n selected)
             (fresh_below fuel2 n selected)
             (λ j, gbind (sample_set fuel1 n (j :: selected) k)
                     (λ rest, gret (cons j <$> rest)))
             (λ j, gbind (sample_set fuel2 n (j :: selected) k)
                     (λ rest, gret (cons j <$> rest)))).
    + apply fresh_below_agreeing.
    + intros j. apply agreeing_fmap, IH.
Qed.

Lemma sample_range_agreeing fuel1 fuel2 n k :
  agreeing (sample_range fuel1 n k) (sample_range fuel2 n k).
Proof.
  unfold sample_range. destruct (n <? k)%nat; [by intros g1 g2 Hg|].
  destruct (Z.of_nat n <=? setsize k); [|apply sample_set_agreeing].
  apply agreeing_gbind; [apply deterministic_sample_from|].
  intros l. apply agreeing_gret.
Qed.

Lemma add_duplicates_and_shuffle_agreeing `{Shuffle} fuel1 fuel2 n df :
  agreeing (add_duplicates_and_shuffle fuel1 n df)
    (add_duplicates_and_shuffle fuel2 n df).
Proof.
  unfold add_duplicates_and_shuffle.
  apply agreeing_gbind; [apply deterministic_of_option|]. intros k.
  apply (agreeing_after (sample_range fuel1 n (Z.to_nat k))
           (sample_range fuel2 n (Z.to_nat k))
           (λ duplicate_indices,
              gbind (modify_duplicates ((λ row, nth 0 row VNone) <$> df)
                       (iloc df duplicate_indices))
                (λ duplicates,
                   gret (Some (iloc (df ++ duplicates)
                                 (permutation 42 (length (df ++ duplicates)))))))
           (λ duplicate_indices,
              gbind (modify_duplicates ((λ row, nth 0 row VNone) <$> df)
                       (iloc df duplicate_indices))
                (λ duplicates,
                   gret (Some (iloc (df ++ duplicates)
                                 (permutation 42 (length (df ++ duplicates)))))))).
  - apply sample_range_agreeing.
  - intros positions.
    apply agreeing_gbind; [apply deterministic_modify_duplicates|].
    intros duplicates. apply agreeing_gret.
Qed.

Lemma generate_weather_data_agreeing `{Shuffle} fuel1 fuel2 n :
  agreeing (WeatherGenerator.generate_weather_data fuel1 n)
    (WeatherGenerator.generate_weather_data fuel2 n).
Proof.
  apply agreeing_gbind.
  - apply deterministic_for_range, weather_record_deterministic.
  - intros df. apply add_duplicates_and_shuffle_agreeing.
Qed.

Lemma generate_traffic_data_agreeing `{Shuffle} fuel1 fuel2 n :
  agreeing (TrafficGenerator.generate_traffic_data fuel1 n)
    (TrafficGenerator.generate_traffic_data fuel2 n).
Proof.
  apply agreeing_gbind.
  - apply deterministic_for_range, traffic_record_deterministic.
  - intros df. apply add_duplicates_and_shuffle_agreeing.
Qed.

End agreeing_facts.

(** ** The generators past the range of [datetime] *)

Section generators_raise.
Import Py Random Run Generator.

Lemma raises_after {A B} (m : Gen A) (k : A → Gen B) :
  succeeds m → (∀ a g, k a g = None) → ∀ g, gbind m k g = None.
Proof.
  intros Hm Hk g. destruct (Hm g) as (a & g' & Hrun & _).
  unfold gbind. by rewrite Hrun.
Qed.

Lemma datetime_add_overflow (i : nat) m :
  max_records ≤ Z.of_nat i → 0 ≤ m → Datetime.add start_date (Z.of_nat i) m = None.
Proof.
  intros Hi Hm. unfold Datetime.add.
  change Datetime.limit with 4223371680.
  change start_date with 28401120.
  unfold max_records in Hi.
  destruct (Z.ltb_spec (28401120 + 60 * Z.of_nat i + m) 4223371680); [lia|done].
Qed.

Lemma weather_record_raises (i : nat) g :
  max_records ≤ Z.of_nat i → WeatherGenerator.record i g = None.
Proof.
  intros Hi. unfold WeatherGenerator.record. cbv zeta.
  apply raises_after; [apply succeeds_random|]. intros r g1.
  apply raises_after; [apply succeeds_issue|]. intros null_id g2.
  by rewrite datetime_add_overflow.
Qed.

Lemma traffic_record_raises (i : nat) g :
  max_records ≤ Z.of_nat i → TrafficGenerator.record i g = None.
Proof.
  intros Hi. unfold TrafficGenerator.record. cbv zeta.
  apply raises_after; [apply succeeds_random|]. intros r g1.
  apply raises_after; [apply succeeds_issue|]. intros null_id g2.
  destruct (returns_randint 0 59 ltac:(lia) g2) as (m & g3 & Hrun & Hm).
  unfold gbind at 1. rewrite Hrun.
  by rewrite datetime_add_overflow by lia.
Qed.

(** A loop with an iteration that raises, after iterations that do not,
    raises. *)
Lemma for_range_raises i n body (j : nat) :
  (i ≤ j < i + n)%nat →
  (∀ j', (i ≤ j' < j)%nat → succeeds (body j')) →
  (∀ g, body j g = None) →
  ∀ g, for_range i n body g = None.
Proof.
  revert i; induction n as [|n IH]; intros i Hj Hbefore Hraise g; [lia|].
  cbn [for_range]. destruct (decide (i = j)) as [->|Hne].
  - unfold gbind at 1. by rewrite Hraise.
  - apply raises_after; [apply Hbefore; lia|]. intros row g1.
    unfold gbind at 1. rewrite IH; [done|lia| |done].
    intros j' Hj'. apply Hbefore. lia.
Qed.

End generators_raise.

(** ** The generators on concrete streams *)

#[global] Instance backwards_laws : ShuffleLaws GeneratorSamples.backwards.
Proof. split. intros seed n. simpl. apply reverse_Permutation. Qed.

Section generator_claims.
Import Py Random Run Generator.

(** C1: the frame a generator returns for a given number of records is
    a function of the draws that the two global streams deliver (what a
    seed fixes), and of nothing else.  Two runs that read the same draws
    and have ended either both raised or returned the same frame, whose
    serialisations are then the same, and left streams that again
    deliver the same draws; how many draws the loops of [random.sample]
    were given makes no difference.  So do, in particular, two runs
    started from the same state of the streams, the state a seed puts
    them in. *)
Theorem generator_deterministic_in_the_draws `{S : Shuffle}
  (num_records fuel1 fuel2 : nat) (g1 g2 : Globals) :
  same_draws g1 g2 →
  agree (WeatherGenerator.generate_weather_data fuel1 num_records g1)
    (WeatherGenerator.generate_weather_data fuel2 num_records g2)
  ∧ agree (TrafficGenerator.generate_traffic_data fuel1 num_records g1)
      (TrafficGenerator.generate_traffic_data fuel2 num_records g2)
  ∧ (∀ (to_csv : frame → string) df1 df2 g1' g2',
       WeatherGenerator.generate_weather_data fuel1 num_records g1
       = Some (Some df1, g1') →
       WeatherGenerator.generate_weather_data fuel2 num_records g2
       = Some (Some df2, g2') →
       df1 = df2 ∧ to_csv df1 = to_csv df2)
  ∧ (∀ (to_csv : frame → string) df1 df2 g1' g2',
       TrafficGenerator.generate_traffic_data fuel1 num_records g1
       = Some (Some df1, g1') →
       TrafficGenerator.generate_traffic_data fuel2 num_records g2
       = Some (Some df2, g2') →
       df1 = df2 ∧ to_csv df1 = to_csv df2)
  ∧ agree (WeatherGenerator.generate_weather_data fuel1 num_records g1)
      (WeatherGenerator.generate_weather_data fuel2 num_records g1)
  ∧ agree (TrafficGenerator.generate_traffic_data fuel1 num_records g1)
      (TrafficGenerator.generate_traffic_data fuel2 num_records g1).
Proof.
  intros Hg.
  pose proof (generate_weather_data_agreeing fuel1 fuel2 num_records
                g1 g2 Hg) as Hw.
  pose proof (generate_traffic_data_agreeing fuel1 fuel2 num_records
                g1 g2 Hg) as Ht.
  split_and!; [done|done|..].
  - intros to_csv df1 df2 g1' g2' H1 H2.
    rewrite H1, H2 in Hw. by destruct Hw as [-> _].
  - intros to_csv df1 df2 g1' g2' H1 H2.
    rewrite H1, H2 in Ht. by destruct Ht as [-> _].
  - apply generate_weather_data_agreeing, same_draws_refl.
  - apply generate_traffic_data_agreeing, same_draws_refl.
Qed.

Lemma scrambled_same_draws :
  same_draws (GeneratorSamples.scrambled 0 5) (GeneratorSamples.scrambled 5 0).
Proof. split; intros k; cbn; do 2 f_equal; lia. Qed.

(** The theorem on two streams at different positions that deliver the
    same draws, for 40 records and two amounts of fuel. *)
Lemma generator_deterministic_in_the_draws_witness :
  same_draws (GeneratorSamples.scrambled 0 5) (GeneratorSamples.scrambled 5 0)
  ∧ agree
      (WeatherGenerator.generate_weather_data 40 40
         (GeneratorSamples.scrambled 0 5))
      (WeatherGenerator.generate_weather_data 50 40
         (GeneratorSamples.scrambled 5 0)).
Proof.
  exact (conj scrambled_same_draws
           (proj1 (generator_deterministic_in_the_draws 40 40 50 _ _
                     scrambled_same_draws))).
Defined.

(** A generator asked for 10 records returns 10 rows, not the
    10 + ⌈0.05 · 10⌉ = 11 of a count rounded up. *)
Lemma generated_row_count_is_not_rounded_up :
  ¬ (∀ fuel df g',
       WeatherGenerator.generate_weather_data fuel 10
         GeneratorSamples.no_issue
       = Some (Some df, g') →
       Z.of_nat (length df) = 10 + (10 + 19) / 20).
Proof.
  intros Hclaim.
  destruct (generate_ends WeatherGenerator.record 0 10
              GeneratorSamples.no_issue) as (df & g' & Hrun).
  - by unfold max_records.
  - apply weather_record_succeeds.
  - apply weather_record_reads_on.
  - left. lia.
  - destruct (returns_generate WeatherGenerator.record 0 10) with
      (g := GeneratorSamples.no_issue) as (o & g'' & Hrun' & Hlen).
    + by unfold max_records.
    + apply weather_record_succeeds.
    + unfold WeatherGenerator.generate_weather_data in Hclaim.
      rewrite Hrun in Hrun'. injection Hrun' as <- <-.
      specialize (Hclaim 0%nat df g' Hrun).
      specialize (Hlen df eq_refl). rewrite Hclaim in Hlen.
      by vm_compute in Hlen.
Qed.

(** C5 (as the code has it): for every number of records N that the
    timestamps of [datetime] can hold, a generator does not raise, and
    the frame it returns has exactly N + ⌊0.05 · N⌋ rows, the N records
    and the int(N * 0.05) duplicates.  It ends for every N up to 21, and
    for a larger N when the loops of [random.sample] end, as they do on
    every stream that covers the positions.  For an N that the
    timestamps cannot hold it raises. *)
Theorem generated_row_count `{S : Shuffle} `{!ShuffleLaws S}
  (num_records fuel : nat) (g : Globals) :
  (Z.of_nat num_records ≤ max_records →
   (∃ o g',
      WeatherGenerator.generate_weather_data fuel num_records g = Some (o, g')
      ∧ (∀ df, o = Some df →
               Z.of_nat (length df)
               = Z.of_nat num_records + Z.of_nat num_records / 20)
      ∧ ((num_records ≤ 21)%nat ∨ covers fuel num_records g → is_Some o))
   ∧ (∃ o g',
        TrafficGenerator.generate_traffic_data fuel num_records g
        = Some (o, g')
        ∧ (∀ df, o = Some df →
                 Z.of_nat (length df)
                 = Z.of_nat num_records + Z.of_nat num_records / 20)
        ∧ ((num_records ≤ 21)%nat ∨ covers fuel num_records g → is_Some o)))
  ∧ (max_records < Z.of_nat num_records →
     WeatherGenerator.generate_weather_data fuel num_records g = None
     ∧ TrafficGenerator.generate_traffic_data fuel num_records g = None).
Proof.
  split.
  - intros Hn. split.
    + destruct (returns_generate WeatherGenerator.record fuel num_records Hn
                  weather_record_succeeds g) as (o & g' & Hrun & Hlen).
      exists o, g'. split_and!; [done|done|]. intros Hends.
      destruct (generate_ends WeatherGenerator.record fuel num_records g Hn
                  weather_record_succeeds weather_record_reads_on Hends)
        as (df & g'' & Hrun').
      rewrite Hrun in Hrun'. injection Hrun' as -> _. done.
    + destruct (returns_generate TrafficGenerator.record fuel num_records Hn
                  traffic_record_succeeds g) as (o & g' & Hrun & Hlen).
      exists o, g'. split_and!; [done|done|]. intros Hends.
      destruct (generate_ends TrafficGenerator.record fuel num_records g Hn
                  traffic_record_succeeds traffic_record_reads_on Hends)
        as (df & g'' & Hrun').
      rewrite Hrun in Hrun'. injection Hrun' as -> _. done.
  - intros Hn. unfold max_records in Hn.
    unfold WeatherGenerator.generate_weather_data,
      TrafficGenerator.generate_traffic_data, gbind.
    rewrite (for_range_raises 0 num_records WeatherGenerator.record
               (Z.to_nat max_records)),
      (for_range_raises 0 num_records TrafficGenerator.record
         (Z.to_nat max_records)); [done|..]; unfold max_records.
    + lia.
    + intros j Hj. apply traffic_record_succeeds. unfold max_records. lia.
    + intros g'. apply traffic_record_raises. unfold max_records. lia.
    + lia.
    + intros j Hj. apply weather_record_succeeds. unfold max_records. lia.
    + intros g'. apply weather_record_raises. unfold max_records. lia.
Qed.

(** The stream that counts covers the positions of any frame within as
    many draws as the frame has positions. *)
Lemma counting_covers (n : nat) : covers n n GeneratorSamples.counting.
Proof.
  intros p j Hj. cbn [GeneratorSamples.counting random_state tape].
  exists (Z.to_nat ((Z.of_nat j - Z.of_nat p) mod Z.of_nat n)).
  pose proof (Z.mod_pos_bound (Z.of_nat j - Z.of_nat p) (Z.of_nat n)
                ltac:(lia)) as Hq.
  split; [lia|].
  rewrite nat_N_Z, Nat2Z.inj_add, Z2Nat.id by lia.
  rewrite Zplus_mod_idemp_r.
  replace (Z.of_nat p + (Z.of_nat j - Z.of_nat p)) with (Z.of_nat j) by lia.
  apply Z.mod_small. lia.
Qed.

(** The theorem for 40 records on the stream that counts: the run ends
    and the frame has 42 rows. *)
Lemma generated_row_count_witness :
  ∃ df g',
    WeatherGenerator.generate_weather_data 40 40 GeneratorSamples.counting
    = Some (Some df, g')
    ∧ Z.of_nat (length df) = Z.of_nat 40 + Z.of_nat 40 / 20.
Proof.
  destruct (proj1 (proj1 (generated_row_count 40 40 GeneratorSamples.counting)
                     ltac:(by vm_compute)))
    as (o & g' & Hrun & Hlen & Hends).
  destruct (Hends (or_intror (counting_covers 40))) as [df ->].
  exact (ex_intro _ df (ex_intro _ g' (conj Hrun (Hlen df eq_refl)))).
Defined.

End generator_claims.

(** ** More about the cleaner *)

Section cleaner_output.
Import Pandas Frame NumpyRandom Cleaning.
Context `{P : Parsers}.

Lemma within_number lo hi v :
  Domain.within lo hi v = true → v ≠ NA → Domain.number v = true.
Proof. by destruct v. Qed.

Lemma typed_timestamp v :
  datetime_typed v → v ≠ NA → Domain.timestamp v = true.
Proof. by destruct v. Qed.

Lemma repair_weather_typed raw st :
  Forall (λ r, datetime_typed (get Weather.date_time r))
    (repair_weather raw st).1.
Proof.
  apply (Forall_series datetime_typed). rewrite repair_weather_date_time.
  apply to_datetime_coerce_typed.
Qed.

Lemma repair_traffic_typed raw st :
  Forall (λ r, datetime_typed (get Traffic.date_time r))
    (repair_traffic raw st).1.
Proof.
  apply (Forall_series datetime_typed). rewrite repair_traffic_date_time.
  apply to_datetime_coerce_typed.
Qed.

Lemma repair_traffic_city raw st :
  Forall (λ r, get Traffic.city r = Str "London") (repair_traffic raw st).1.
Proof.
  apply (Forall_series (λ v, v = Str "London")).
  unfold repair_traffic. rewrite !run_bind. unfold ret. cbn [fst snd].
  rewrite series_assign_scalar_eq. apply Forall_replicate. done.
Qed.

(** Every row the cleaner writes is in the domain of its schema. *)
Lemma clean_weather_in_domain raw st :
  Forall (λ r, Domain.weather_row r = true) (clean_weather raw st).1.
Proof.
  rewrite clean_weather_dropna. apply Forall_forall. intros r Hr.
  apply elem_of_dropna in Hr as [Hr Hcomplete].
  pose proof (Hcomplete Weather.date_time ltac:(repeat constructor)) as Hdate.
  pose proof (Hcomplete Weather.temperature_c ltac:(repeat constructor)) as Htemp.
  pose proof (proj1 (Forall_forall _ _) (repair_weather_typed raw st) r Hr)
    as Htyped.
  pose proof (λ c lo hi Hb,
                proj1 (Forall_forall _ _)
                  (repair_weather_within c lo hi raw st Hb) r Hr) as Hwithin.
  pose proof (proj1 (Forall_forall _ _) (repair_weather_condition raw st) r Hr)
    as Hcond.
  pose proof (proj1 (Forall_forall _ _) (repair_weather_season raw st) r Hr)
    as [?|Hseason]; [done|].
  pose proof (proj1 (Forall_forall _ _) (repair_weather_city raw st) r Hr)
    as Hcity.
  unfold Domain.weather_row, Domain.label.
  rewrite !andb_true_iff, !bool_decide_eq_true. split_and!; try done.
  - by apply typed_timestamp.
  - apply (within_number (-10) 40); [|done]. by apply Hwithin.
  - by apply Hwithin.
  - by apply Hwithin.
  - by apply Hwithin.
  - by apply Hwithin.
  - by apply Hwithin.
  - by apply Hwithin.
Qed.

Lemma clean_traffic_in_domain raw st :
  Forall (λ r, Domain.traffic_row r = true) (clean_traffic raw st).1.
Proof.
  rewrite clean_traffic_dropna. apply Forall_forall. intros r Hr.
  apply elem_of_dropna in Hr as [Hr Hcomplete].
  pose proof (Hcomplete Traffic.date_time ltac:(repeat constructor)) as Hdate.
  pose proof (Hcomplete Traffic.vehicle_count ltac:(repeat constructor)) as Hcount.
  pose proof (proj1 (Forall_forall _ _) (repair_traffic_typed raw st) r Hr)
    as Htyped.
  pose proof (λ c lo hi Hb,
                proj1 (Forall_forall _ _)
                  (repair_traffic_within c lo hi raw st Hb) r Hr) as Hwithin.
  pose proof (proj1 (Forall_forall _ _) (repair_traffic_area raw st) r Hr)
    as Harea.
  pose proof (proj1 (Forall_forall _ _) (repair_traffic_congestion raw st) r Hr)
    as Hcong.
  pose proof (proj1 (Forall_forall _ _) (repair_traffic_road raw st) r Hr)
    as Hroad.
  pose proof (proj1 (Forall_forall _ _) (repair_traffic_city raw st) r Hr)
    as Hcity.
  unfold Domain.traffic_row, Domain.label.
  rewrite !andb_true_iff, !bool_decide_eq_true. split_and!; try done.
  - by apply typed_timestamp.
  - apply (within_number 0 10000); [|done]. by apply Hwithin.
  - by apply Hwithin.
  - by apply Hwithin.
  - by apply Hwithin.
  - by apply Hwithin.
Qed.

End cleaner_output.

Section cleaner_effects.
Import Pandas Frame NumpyRandom Cleaning Stream.
Context `{P : Parsers}.

Lemma drop_duplicates_from_sublist {col row} `{Schema col row}
  (seen df : list row) : drop_duplicates_from seen df `sublist_of` df.
Proof.
  revert seen; induction df as [|r df IH]; intros seen; simpl; [done|].
  destruct (decide (r ∈ seen)).
  - by apply sublist_cons.
  - by apply sublist_skip.
Qed.

Lemma drop_duplicates_sublist {col row} `{Schema col row} (df : list row) :
  drop_duplicates df `sublist_of` df.
Proof. apply drop_duplicates_from_sublist. Qed.

Lemma dropna_sublist {col row} `{Schema col row} cs (df : list row) :
  dropna cs df `sublist_of` df.
Proof. apply sublist_filter. Qed.

Lemma repair_weather_ids raw st :
  series Weather.weather_id (repair_weather raw st).1
  = series Weather.weather_id (drop_duplicates raw).
Proof.
  unfold repair_weather. rewrite run_bind. unfold ret. cbn [fst].
  by frame_simpl.
Qed.

Lemma repair_traffic_ids raw st :
  series Traffic.traffic_id (repair_traffic raw st).1
  = series Traffic.traffic_id (drop_duplicates raw).
Proof.
  unfold repair_traffic. rewrite !run_bind. unfold ret. cbn [fst].
  by frame_simpl.
Qed.

(** The state of the stream after the labels of a column are repaired:
    one draw for every label that is not valid. *)
Lemma advance_0 st : advance 0 st = st.
Proof. destruct st. unfold advance. simpl. f_equal. lia. Qed.

Lemma advance_advance n m st : advance m (advance n st) = advance (n + m) st.
Proof. unfold advance. simpl. f_equal. lia. Qed.

Lemma keep_or_choice_state valid x st :
  (keep_or_choice valid x st).2
  = advance (if decide (x ∈ Str <$> valid) then 0 else 1) st.
Proof.
  unfold keep_or_choice. destruct (decide (x ∈ Str <$> valid)).
  - by rewrite advance_0.
  - unfold bind, ret, choice, draw, advance. simpl. f_equal. lia.
Qed.

Lemma series_apply_keep_or_choice_state valid l st :
  (series_apply (keep_or_choice valid) l st).2
  = advance (length (filter (λ x, x ∉ Str <$> valid) l)) st.
Proof.
  revert st; induction l as [|x l IH]; intros st; simpl.
  - by rewrite advance_0.
  - rewrite run_bind, run_bind. unfold ret. cbn [snd].
    rewrite IH, keep_or_choice_state.
    destruct (decide (x ∈ Str <$> valid)) as [Hin|Hnin].
    + rewrite filter_cons_False by (by intros []). by rewrite advance_0.
    + rewrite filter_cons_True by done. by rewrite advance_advance.
Qed.

Lemma update_apply_state {col row} `{Schema col row} valid (c : col)
  (df : list row) st :
  (update_apply c (keep_or_choice valid) df st).2
  = advance (length (invalid valid c df)) st.
Proof.
  unfold invalid, update_apply. rewrite run_bind. unfold ret. cbn [snd].
  rewrite series_apply_keep_or_choice_state. f_equal.
  unfold series. induction df as [|r df IH]; [done|].
  rewrite fmap_cons. destruct (decide (get c r ∈ Str <$> valid)).
  - rewrite !filter_cons_False by (by intros []). done.
  - rewrite !filter_cons_True by done. simpl. by rewrite IH.
Qed.

(** The rows whose label has to be repaired are those of the column as
    it was read. *)
Lemma length_invalid_series {col row} `{Schema col row} valid (c : col)
  (df df' : list row) :
  series c df = series c df' →
  length (invalid valid c df) = length (invalid valid c df').
Proof.
  unfold invalid.
  revert df'; induction df as [|r df IH]; intros [|r' df'] Heq;
    try done.
  unfold series in Heq. rewrite !fmap_cons in Heq.
  injection Heq as Hr Hdf.
  destruct (decide (get c r ∈ Str <$> valid)) as [HQ|HQ].
  - rewrite filter_cons_False by (by intros []).
    rewrite filter_cons_False by (rewrite <- Hr; by intros []).
    by apply IH.
  - rewrite filter_cons_True by done.
    rewrite filter_cons_True by (by rewrite <- Hr).
    simpl. f_equal. by apply IH.
Qed.

Lemma repair_weather_state raw st :
  (repair_weather raw st).2
  = advance (length (invalid valid_conditions Weather.weather_condition
                       (drop_duplicates raw))) st.
Proof.
  unfold repair_weather. rewrite run_bind. unfold ret. cbn [snd].
  rewrite update_apply_state. f_equal.
  apply length_invalid_series. by frame_simpl.
Qed.

Lemma clean_weather_state raw st :
  (clean_weather raw st).2 = (repair_weather raw st).2.
Proof. unfold clean_weather. by rewrite run_bind. Qed.

Lemma repair_traffic_state raw st :
  (repair_traffic raw st).2
  = advance (length (invalid valid_areas Traffic.area (drop_duplicates raw))
             + length (invalid valid_congestion Traffic.congestion_level
                         (drop_duplicates raw))
             + length (invalid valid_road Traffic.road_condition
                         (drop_duplicates raw))) st.
Proof.
  unfold repair_traffic. rewrite !run_bind. unfold ret. cbn [fst snd].
  rewrite !update_apply_state, !advance_advance.
  rewrite (length_invalid_series valid_areas Traffic.area _
             (drop_duplicates raw)) by (by frame_simpl).
  rewrite (length_invalid_series valid_congestion Traffic.congestion_level _
             (drop_duplicates raw)) by (by frame_simpl).
  rewrite (length_invalid_series valid_road Traffic.road_condition _
             (drop_duplicates raw)) by (by frame_simpl).
  f_equal. lia.
Qed.

Lemma clean_traffic_state raw st :
  (clean_traffic raw st).2 = (repair_traffic raw st).2.
Proof. unfold clean_traffic. by rewrite run_bind. Qed.

End cleaner_effects.

Section cleaner_extras.
Import Pandas Frame NumpyRandom Cleaning Stream.

(** X1: every row of a cleaned frame holds a timestamp in [date_time],
    the city London and valid labels: a weather condition among the five
    of the cleaner for the weather frame; an area among its nine, a
    congestion level among its three and a road condition among its four
    for the traffic frame. *)
Theorem cleaned_labels_and_city `{P : Parsers}
  (weather_raw : list Weather.row) (traffic_raw : list Traffic.row) st st' :
  Forall (λ r, (∃ t, get Weather.date_time r = Time t)
               ∧ get Weather.city r = Str "London"
               ∧ get Weather.weather_condition r ∈ Str <$> valid_conditions)
    (clean_weather weather_raw st).1
  ∧ Forall (λ r, (∃ t, get Traffic.date_time r = Time t)
                 ∧ get Traffic.city r = Str "London"
                 ∧ get Traffic.area r ∈ Str <$> valid_areas
                 ∧ get Traffic.congestion_level r ∈ Str <$> valid_congestion
                 ∧ get Traffic.road_condition r ∈ Str <$> valid_road)
      (clean_traffic traffic_raw st').1.
Proof.
  split.
  - eapply Forall_impl; [apply clean_weather_in_domain|].
    intros r Hr. cbn beta in Hr. unfold Domain.weather_row, Domain.label in Hr.
    rewrite !andb_true_iff, !bool_decide_eq_true in Hr.
    destruct Hr as ((((((((((Hdate & _) & _) & _) & _) & _) & _) & _)
                      & Hcond) & _) & Hcity).
    split_and!; try done.
    destruct (get Weather.date_time r); try done. by eexists.
  - eapply Forall_impl; [apply clean_traffic_in_domain|].
    intros r Hr. cbn beta in Hr. unfold Domain.traffic_row, Domain.label in Hr.
    rewrite !andb_true_iff, !bool_decide_eq_true in Hr.
    destruct Hr as (((((((((Hdate & Harea) & _) & _) & _) & _) & Hcong)
                      & Hroad) & _) & Hcity).
    split_and!; try done.
    destruct (get Traffic.date_time r); try done. by eexists.
Qed.

Lemma Forall_drop_duplicates {col row} `{Schema col row}
  (Q : row → Prop) (df : list row) :
  Forall Q df → Forall Q (drop_duplicates df).
Proof.
  intros Hall. apply Forall_forall. intros r Hr.
  apply (proj1 (elem_of_drop_duplicates df r)) in Hr.
  by apply (proj1 (Forall_forall _ _) Hall).
Qed.

(** X2: cleaning a cleaned frame again removes the rows that the first
    repair made equal and does nothing else: it changes no value, drops
    no other row and draws no random number. *)
Theorem cleaning_again_only_drops_duplicates
  `{P : Parsers} `{!ParsersLaws P}
  (weather_raw : list Weather.row) (traffic_raw : list Traffic.row)
  st st' :
  clean_weather (clean_weather weather_raw st).1 st'
  = (drop_duplicates (clean_weather weather_raw st).1, st')
  ∧ clean_traffic (clean_traffic traffic_raw st).1 st'
    = (drop_duplicates (clean_traffic traffic_raw st).1, st').
Proof.
  split.
  - transitivity
      (clean_weather (drop_duplicates (clean_weather weather_raw st).1) st').
    { unfold clean_weather at 1 3. rewrite !run_bind.
      by rewrite repair_weather_drop_duplicates. }
    apply clean_weather_id. split; [apply NoDup_drop_duplicates|].
    apply Forall_drop_duplicates, clean_weather_in_domain.
  - transitivity
      (clean_traffic (drop_duplicates (clean_traffic traffic_raw st).1) st').
    { unfold clean_traffic at 1 3. rewrite !run_bind.
      by rewrite repair_traffic_drop_duplicates. }
    apply clean_traffic_id. split; [apply NoDup_drop_duplicates|].
    apply Forall_drop_duplicates, clean_traffic_in_domain.
Qed.

(** The theorem on two raw rows that the repair makes equal, with the
    reader of the standard formats. *)
Lemma cleaning_again_only_drops_duplicates_witness :
  clean_weather (P:=Reader.parsers)
    (clean_weather (P:=Reader.parsers)
       [Samples.weather_hot; Samples.weather_warm] Samples.zeros).1
    Samples.counting
  = (drop_duplicates
       (clean_weather (P:=Reader.parsers)
          [Samples.weather_hot; Samples.weather_warm] Samples.zeros).1,
     Samples.counting).
Proof.
  exact (proj1 (cleaning_again_only_drops_duplicates (P:=Reader.parsers)
                  [Samples.weather_hot; Samples.weather_warm] []
                  Samples.zeros Samples.counting)).
Defined.

(** X3: the cleaner never changes an identifier and never reorders
    rows: the identifiers of the cleaned frame are those of the raw
    frame with some left out, in the order of the raw frame. *)
Theorem cleaner_keeps_ids_in_order `{P : Parsers}
  (weather_raw : list Weather.row) (traffic_raw : list Traffic.row) st st' :
  series Weather.weather_id (clean_weather weather_raw st).1
    `sublist_of` series Weather.weather_id weather_raw
  ∧ series Traffic.traffic_id (clean_traffic traffic_raw st').1
      `sublist_of` series Traffic.traffic_id traffic_raw.
Proof.
  split.
  - rewrite clean_weather_dropna.
    transitivity (series Weather.weather_id (repair_weather weather_raw st).1).
    { unfold series. apply fmap_sublist, dropna_sublist. }
    rewrite repair_weather_ids. unfold series.
    apply fmap_sublist, drop_duplicates_sublist.
  - rewrite clean_traffic_dropna.
    transitivity (series Traffic.traffic_id (repair_traffic traffic_raw st').1).
    { unfold series. apply fmap_sublist, dropna_sublist. }
    rewrite repair_traffic_ids. unfold series.
    apply fmap_sublist, drop_duplicates_sublist.
Qed.

(** X4: the cleaner reads numpy's stream once for every label it
    replaces and never otherwise.  After [main] the stream has advanced
    by the number of rows, among the raw rows without their exact
    duplicates, with an invalid weather condition, plus those with an
    invalid area, an invalid congestion level and an invalid road
    condition; the draws themselves are left as they were. *)
Theorem cleaner_draws_once_per_repaired_label `{P : Parsers}
  (weather_raw : list Weather.row) (traffic_raw : list Traffic.row) st :
  (clean_weather weather_raw st).2
  = advance (length (invalid valid_conditions Weather.weather_condition
                       (drop_duplicates weather_raw))) st
  ∧ (clean_traffic traffic_raw st).2
    = advance (length (invalid valid_areas Traffic.area
                         (drop_duplicates traffic_raw))
               + length (invalid valid_congestion Traffic.congestion_level
                           (drop_duplicates traffic_raw))
               + length (invalid valid_road Traffic.road_condition
                           (drop_duplicates traffic_raw))) st
  ∧ (main weather_raw traffic_raw st).2
    = advance (length (invalid valid_conditions Weather.weather_condition
                         (drop_duplicates weather_raw))
               + (length (invalid valid_areas Traffic.area
                            (drop_duplicates traffic_raw))
                  + length (invalid valid_congestion Traffic.congestion_level
                              (drop_duplicates traffic_raw))
                  + length (invalid valid_road Traffic.road_condition
                              (drop_duplicates traffic_raw)))) st.
Proof.
  split_and!.
  - by rewrite clean_weather_state, repair_weather_state.
  - by rewrite clean_traffic_state, repair_traffic_state.
  - unfold main. rewrite !run_bind. unfold ret. cbn [snd].
    rewrite clean_traffic_state, repair_traffic_state.
    rewrite clean_weather_state, repair_weather_state.
    by rewrite advance_advance.
Qed.

End cleaner_extras.

Section generators_and_cleaner.
Import Pandas Frame NumpyRandom Cleaning Stream.

Lemma keep_or_choice_replaces valid x st :
  valid ≠ [] → x ∉ Str <$> valid →
  (keep_or_choice valid x st).1 ≠ x
  ∧ (keep_or_choice valid x st).1 ∈ Str <$> valid
  ∧ (keep_or_choice valid x st).2 = advance 1 st.
Proof.
  intros Hne Hx. pose proof (keep_or_choice_valid valid x st Hne) as Hv.
  split_and!; [|done|].
  - intros Heq. by rewrite Heq in Hv.
  - rewrite keep_or_choice_state. by rewrite decide_False.
Qed.

(** X5: the labels the generators draw and the labels the cleaner
    accepts.  Every weather condition and every road condition of the
    generators is kept by the cleaner as it is.  Of the fifteen areas of
    the traffic generator the cleaner keeps nine; a row with one of the
    six others is given an area drawn among the nine, which is thus
    another one, on one draw of the stream. *)
Theorem generated_labels_and_the_cleaner st :
  (∀ s, s ∈ WeatherGenerator.weather_conditions →
        keep_or_choice valid_conditions (Str s) st = (Str s, st))
  ∧ (∀ s, s ∈ TrafficGenerator.road_conditions →
          keep_or_choice valid_road (Str s) st = (Str s, st))
  ∧ (∀ s, s ∈ TrafficGenerator.london_areas →
          keep_or_choice valid_areas (Str s) st = (Str s, st)
          ∨ s ∈ ["Tower Hamlets"; "Wandsworth"; "Hammersmith"; "Brent";
                 "Ealing"; "Hounslow"]%string)
  ∧ (∀ s, s ∈ ["Tower Hamlets"; "Wandsworth"; "Hammersmith"; "Brent";
               "Ealing"; "Hounslow"]%string →
          s ∈ TrafficGenerator.london_areas
          ∧ (keep_or_choice valid_areas (Str s) st).1 ≠ Str s
          ∧ (keep_or_choice valid_areas (Str s) st).1 ∈ Str <$> valid_areas
          ∧ (keep_or_choice valid_areas (Str s) st).2 = advance 1 st).
Proof.
  split_and!.
  - intros s Hs. apply keep_or_choice_id. by apply list_elem_of_fmap_2.
  - intros s Hs. apply keep_or_choice_id. by apply list_elem_of_fmap_2.
  - intros s Hs. unfold TrafficGenerator.london_areas in Hs.
    destruct (decide (s ∈ valid_areas)) as [Hin|Hnin].
    + left. apply keep_or_choice_id. by apply list_elem_of_fmap_2.
    + right. unfold valid_areas in Hnin.
      repeat (apply elem_of_cons in Hs as [->|Hs];
              [first [by repeat constructor
                     |exfalso; apply Hnin; by repeat constructor]|]).
      by apply elem_of_nil in Hs.
  - intros s Hs. split.
    + unfold TrafficGenerator.london_areas.
      repeat (apply elem_of_cons in Hs as [->|Hs];
              [apply (bool_decide_unpack _); by vm_compute|]).
      by apply elem_of_nil in Hs.
    + apply keep_or_choice_replaces; [done|].
      intros Hin. apply list_elem_of_fmap in Hin as (s' & Heq & Hs').
      injection Heq as <-. unfold valid_areas in Hs'.
      repeat (apply elem_of_cons in Hs as [->|Hs];
              [revert Hs'; apply (bool_decide_unpack _); by vm_compute|]).
      by apply elem_of_nil in Hs.
Qed.

Lemma month_of_minutes (d : Z) :
  Calendar.month_of_ns (d * 60000000000) = Datetime.month d.
Proof.
  unfold Calendar.month_of_ns, Datetime.month, Datetime.date,
    Calendar.ns_per_day.
  change 86400000000000 with (1440 * 60000000000).
  by rewrite Z.div_mul_cancel_r by lia.
Qed.

(** X6: the season the cleaner derives from a timestamp is the season
    the generators give to the month of that timestamp.  A generated
    record whose season was replaced by a wrong label or left empty, and
    whose timestamp is read as the minute it was written for, gets back
    the season it was generated for. *)
Theorem backfilled_season_is_generated_season (d : Datetime.datetime)
  (row : Weather.row) :
  get_season (Time (d * 60000000000))
  = Str (Generator.seasons (Datetime.month d))
  ∧ (get Weather.date_time row = Time (d * 60000000000) →
     get Weather.season row ∉ Str <$> valid_seasons →
     season_of_row row = Str (Generator.seasons (Datetime.month d)))
  ∧ Generator.seasons (Datetime.month d) ∈ valid_seasons.
Proof.
  assert (get_season (Time (d * 60000000000))
          = Str (Generator.seasons (Datetime.month d))) as Hseason.
  { unfold get_season, Generator.seasons. rewrite month_of_minutes.
    by repeat case_bool_decide. }
  split_and!; [done| |].
  - intros Hdate Hs. unfold season_of_row. rewrite Hdate, Hseason.
    case_bool_decide; [done|]. by rewrite andb_false_r.
  - unfold Generator.seasons, valid_seasons.
    repeat case_bool_decide; by repeat constructor.
Qed.

End generators_and_cleaner.

(** ** More about the merge *)

Section join_facts.
Import Pandas DataFrame Merge.
Implicit Types (k : list cell) (l r : list (list cell)).

Lemma elem_of_matches k j r j' :
  j' ∈ matches k j r ↔ (j ≤ j')%nat ∧ r !! (j' - j)%nat = Some k.
Proof.
  revert j; induction r as [|k' r IH]; intros j; cbn [matches].
  - rewrite elem_of_nil, lookup_nil. naive_solver.
  - assert (j' ∈ matches k (S j) r
            ↔ (j < j')%nat ∧ (k' :: r) !! (j' - j)%nat = Some k) as Hrest.
    { rewrite IH. split; intros [Hlt Hl]; (split; [lia|]).
      - replace (j' - j)%nat with (S (j' - S j)) by lia. done.
      - replace (j' - j)%nat with (S (j' - S j)) in Hl by lia. done. }
    destruct (decide (k = k')) as [<-|Hne].
    + rewrite elem_of_cons, Hrest. split.
      * intros [->|[? ?]]; [|split; [lia|done]].
        split; [lia|]. by rewrite Nat.sub_diag.
      * intros [Hle Hl]. destruct (decide (j' = j)) as [->|?]; [by left|].
        right. split; [lia|done].
    + rewrite Hrest. split; [intros [? ?]; split; [lia|done]|].
      intros [Hle Hl]. split; [|done].
      destruct (decide (j' = j)) as [->|?]; [|lia].
      rewrite Nat.sub_diag in Hl. simpl in Hl. congruence.
Qed.

Lemma NoDup_matches k j r : NoDup (matches k j r).
Proof.
  revert j; induction r as [|k' r IH]; intros j; cbn [matches];
    [constructor|].
  destruct (decide (k = k')); [|apply IH].
  constructor; [|apply IH]. rewrite elem_of_matches. lia.
Qed.

Lemma elem_of_join_from i l r a b :
  (a, b) ∈ join_from i l r
  ↔ (i ≤ a)%nat ∧ ∃ k, l !! (a - i)%nat = Some k ∧ r !! b = Some k.
Proof.
  revert i; induction l as [|k l IH]; intros i; cbn [join_from].
  - rewrite elem_of_nil. split; [done|]. intros (_ & k & Hl & _).
    by rewrite lookup_nil in Hl.
  - rewrite elem_of_app, list_elem_of_fmap, IH. split.
    + intros [(j & Heq & Hj)|(Hle & k' & Hl & Hr)].
      * injection Heq as -> ->. apply elem_of_matches in Hj as [_ Hj].
        rewrite Nat.sub_0_r in Hj. split; [lia|]. exists k.
        by rewrite Nat.sub_diag.
      * split; [lia|]. exists k'. split; [|done].
        replace (a - i)%nat with (S (a - S i)) by lia. done.
    + intros (Hle & k' & Hl & Hr).
      destruct (decide (a = i)) as [->|Hne].
      * left. rewrite Nat.sub_diag in Hl. injection Hl as ->.
        exists b. split; [done|]. apply elem_of_matches.
        rewrite Nat.sub_0_r. split; [lia|done].
      * right. split; [lia|]. exists k'. split; [|done].
        replace (a - i)%nat with (S (a - S i)) in Hl by lia. done.
Qed.

Lemma NoDup_join_from i l r : NoDup (join_from i l r).
Proof.
  revert i; induction l as [|k l IH]; intros i; cbn [join_from];
    [constructor|].
  apply NoDup_app. split_and!.
  - apply NoDup_fmap_2; [|apply NoDup_matches]. by intros ?? [= ->].
  - intros [a b] (j & Heq & _)%list_elem_of_fmap Hin.
    injection Heq as -> ->. apply elem_of_join_from in Hin. lia.
  - apply IH.
Qed.

Lemma elem_of_join_pairs l r a b :
  (a, b) ∈ join_pairs l r ↔ ∃ k, l !! a = Some k ∧ r !! b = Some k.
Proof.
  unfold join_pairs. rewrite elem_of_join_from, Nat.sub_0_r.
  split; [by intros [_ ?]|]. intros ?. split; [lia|done].
Qed.

Lemma occurrences_app k r1 r2 :
  occurrences k (r1 ++ r2) = (occurrences k r1 + occurrences k r2)%nat.
Proof. unfold occurrences. by rewrite filter_app, length_app. Qed.

Lemma occurrences_le k r : (occurrences k r ≤ length r)%nat.
Proof. apply length_filter. Qed.

Lemma length_join_pairs_app l1 l2 r1 r2 :
  length (join_pairs (l1 ++ l2) (r1 ++ r2))
  = (length (join_pairs l1 r1) + length (join_pairs l1 r2)
     + length (join_pairs l2 r1) + length (join_pairs l2 r2))%nat.
Proof.
  unfold join_pairs. rewrite !length_join_from.
  assert (∀ l, sum_list ((λ k, occurrences k (r1 ++ r2)) <$> l)
               = (sum_list ((λ k, occurrences k r1) <$> l)
                  + sum_list ((λ k, occurrences k r2) <$> l))%nat) as Hsum.
  { induction l as [|k l IH]; [done|].
    cbn [fmap list_fmap sum_list sum_list_with id].
    rewrite occurrences_app.
    change (list_fmap (list cell) nat ?f l) with (f <$> l).
    change (sum_list_with id ?x) with (sum_list x). rewrite IH. lia. }
  rewrite Hsum, !fmap_app, !sum_list_with_app. unfold sum_list. lia.
Qed.

Lemma length_join_pairs_le l r :
  (length (join_pairs l r) ≤ length l * length r)%nat.
Proof.
  unfold join_pairs. rewrite length_join_from.
  induction l as [|k l IH]; [done|].
  cbn [fmap list_fmap sum_list sum_list_with id length].
  change (list_fmap (list cell) nat ?f l) with (f <$> l).
  change (sum_list_with id ?x) with (sum_list x).
  pose proof (occurrences_le k r). lia.
Qed.

End join_facts.

Section merge_extras.
Import Pandas DataFrame Merge.

Lemma cleaning_main_fst `{P : Parsers} weather_raw traffic_raw st :
  (Cleaning.main weather_raw traffic_raw st).1
  = ((Cleaning.clean_weather weather_raw st).1,
     (Cleaning.clean_traffic traffic_raw
        (Cleaning.clean_weather weather_raw st).2).1).
Proof. unfold Cleaning.main. by rewrite !run_bind. Qed.

Lemma length_clean_weather `{P : Parsers} raw st :
  (length (Cleaning.clean_weather raw st).1 ≤ length raw)%nat.
Proof.
  rewrite clean_weather_dropna.
  etransitivity; [apply length_dropna|].
  rewrite repair_weather_length. apply length_drop_duplicates_from.
Qed.

Lemma length_clean_traffic `{P : Parsers} raw st :
  (length (Cleaning.clean_traffic raw st).1 ≤ length raw)%nat.
Proof.
  rewrite clean_traffic_dropna.
  etransitivity; [apply length_dropna|].
  rewrite repair_traffic_length. apply length_drop_duplicates_from.
Qed.

(** X7: when the merge accepts what the cleaner writes.  For all raw
    frames and every state of the random stream, [main] of the merge on
    the two files that [main] of the cleaner writes returns a frame with
    the sixteen columns of the final schema and at most (rows of the raw
    weather frame) × (rows of the raw traffic frame) rows when the two
    [date_time] columns came out of [pd.to_datetime] both time zone
    aware or both naive, or exactly one cleaned file is empty; in every
    other case it raises. *)
Theorem cleaned_files_merge_when_compatible `{P : Parsers} `{!ParsersLaws P}
  (weather_raw : list Weather.row) (traffic_raw : list Traffic.row) st :
  (compatible (Cleaned.weather_aware weather_raw)
     (Cleaning.main weather_raw traffic_raw st).1.1
     (Cleaned.traffic_aware traffic_raw)
     (Cleaning.main weather_raw traffic_raw st).1.2 →
   ∃ final_df,
     (Cleaned.merge_cleaned weather_raw traffic_raw st).1 = Some final_df
     ∧ columns final_df = final_schema
     ∧ (index final_df ≤ length weather_raw * length traffic_raw)%nat)
  ∧ (¬ compatible (Cleaned.weather_aware weather_raw)
         (Cleaning.main weather_raw traffic_raw st).1.1
         (Cleaned.traffic_aware traffic_raw)
         (Cleaning.main weather_raw traffic_raw st).1.2 →
     (Cleaned.merge_cleaned weather_raw traffic_raw st).1 = None).
Proof.
  unfold Cleaned.merge_cleaned. rewrite run_bind. unfold ret. cbn [fst].
  rewrite cleaning_main_fst. cbn [fst snd]. split.
  - intros Hc. eexists. split; [apply main_loaded|].
    + apply clean_weather_ready.
    + apply clean_traffic_ready.
    + done.
    + split; [apply expected_final_columns|]. cbn [index Expected.final].
      etransitivity; [apply length_join_pairs_le|].
      unfold weather_keys, traffic_keys. rewrite !length_fmap.
      apply Nat.mul_le_mono; [apply length_clean_weather|
                              apply length_clean_traffic].
  - intros Hc. apply main_incompatible.
    + apply clean_weather_ready.
    + apply clean_traffic_ready.
    + exact Hc.
Qed.

Lemma sample_cleaned_compatible :
  compatible
    (Cleaned.weather_aware (P:=Reader.parsers) [Samples.weather_hot])
    (Cleaning.main (P:=Reader.parsers) [Samples.weather_hot]
       [Samples.traffic_backwards] Samples.zeros).1.1
    (Cleaned.traffic_aware (P:=Reader.parsers) [Samples.traffic_backwards])
    (Cleaning.main (P:=Reader.parsers) [Samples.weather_hot]
       [Samples.traffic_backwards] Samples.zeros).1.2.
Proof. by left. Qed.

(** The theorem on raw rows with a temperature of 100 and a negative
    speed, with the reader of the standard formats, which makes no
    column time zone aware. *)
Lemma cleaned_files_merge_when_compatible_witness :
  ∃ final_df,
    (Cleaned.merge_cleaned (P:=Reader.parsers) [Samples.weather_hot]
       [Samples.traffic_backwards] Samples.zeros).1 = Some final_df
    ∧ columns final_df = final_schema.
Proof.
  destruct (proj1 (cleaned_files_merge_when_compatible (P:=Reader.parsers)
                     [Samples.weather_hot] [Samples.traffic_backwards]
                     Samples.zeros) sample_cleaned_compatible)
    as (final_df & Hmain & Hcols & _).
  exact (ex_intro _ final_df (conj Hmain Hcols)).
Defined.

Lemma to_datetime_unreadable `{P : Parsers} (s : list cell) i c :
  s !! i = Some c → c ≠ NA → parse_datetimes s !! i = Some None →
  to_datetime s = None.
Proof.
  intros Hs Hc Hparsed. unfold to_datetime.
  assert (existsb (λ co, unreadable co.1 co.2) (zip s (parse_datetimes s))
          = true) as ->; [|done].
  apply existsb_exists. exists (c, None). split.
  - apply list_elem_of_In, list_elem_of_lookup. exists i.
    by rewrite lookup_zip_with, Hs, Hparsed.
  - unfold unreadable. cbn [fst snd]. rewrite bool_decide_eq_true_2 by done.
    by destruct c.
Qed.

Lemma standardize_unreadable_weather `{P : Parsers} tz w i r :
  w !! i = Some r → get Weather.date_time r ≠ NA →
  parse_datetimes (Frame.series Weather.date_time w) !! i = Some None →
  standardize (load_weather tz w) = None.
Proof.
  intros Hr Hna Hparsed. unfold standardize.
  change (getitem "date_time" (load_weather tz w))
    with (Some (Frame.series Weather.date_time w)).
  cbn [mbind option_bind].
  rewrite (to_datetime_unreadable _ i (get Weather.date_time r)); try done.
  unfold Frame.series. by rewrite list_lookup_fmap, Hr.
Qed.

Lemma standardize_unreadable_traffic `{P : Parsers} tz t i r :
  t !! i = Some r → get Traffic.date_time r ≠ NA →
  parse_datetimes (Frame.series Traffic.date_time t) !! i = Some None →
  standardize (load_traffic tz t) = None.
Proof.
  intros Hr Hna Hparsed. unfold standardize.
  change (getitem "date_time" (load_traffic tz t))
    with (Some (Frame.series Traffic.date_time t)).
  cbn [mbind option_bind].
  rewrite (to_datetime_unreadable _ i (get Traffic.date_time r)); try done.
  unfold Frame.series. by rewrite list_lookup_fmap, Hr.
Qed.

(** X8: the merge reads the timestamps without [errors='coerce'].  When
    one of the two frames has a row whose [date_time] is not null and
    cannot be read as a timestamp, [main] raises and writes nothing,
    whatever the other rows are. *)
Theorem merge_raises_on_unreadable_timestamp `{P : Parsers}
  (wz : bool) (w : list Weather.row) (tz : bool) (t : list Traffic.row) :
  (∃ i r, w !! i = Some r ∧ get Weather.date_time r ≠ NA
          ∧ parse_datetimes (Frame.series Weather.date_time w) !! i
            = Some None)
  ∨ (∃ i r, t !! i = Some r ∧ get Traffic.date_time r ≠ NA
            ∧ parse_datetimes (Frame.series Traffic.date_time t) !! i
              = Some None) →
  main wz w tz t = None.
Proof.
  intros [(i & r & Hr & Hna & Hparsed)|(i & r & Hr & Hna & Hparsed)];
    unfold main, merge_datasets, join.
  - by rewrite (standardize_unreadable_weather wz w i r).
  - rewrite (standardize_unreadable_traffic tz t i r) by done.
    by destruct (standardize (load_weather wz w)).
Qed.

(** The theorem on a weather row whose timestamp is the text Unknown. *)
Lemma merge_raises_on_unreadable_timestamp_witness :
  main (P:=Reader.parsers) false [Samples.weather_unknown]
    false [Samples.traffic_fixed]
  = None.
Proof.
  apply (merge_raises_on_unreadable_timestamp (P:=Reader.parsers)).
  left. exists 0%nat, Samples.weather_unknown.
  split; [reflexivity|]. split; [discriminate|reflexivity].
Defined.

End merge_extras.

Section merged_rows.
Import Pandas DataFrame Merge.

Lemma lookup_take_rows positions (v : list cell) i a x :
  positions !! i = Some a → v !! a = Some x →
  take_rows positions v !! i = Some x.
Proof.
  intros Hi Ha. unfold take_rows. rewrite list_lookup_fmap, Hi. simpl.
  by rewrite nth_lookup, Ha.
Qed.

Lemma lookup_series {col row} `{Schema col row} (c : col) (df : list row)
  a r :
  df !! a = Some r → Frame.series c df !! a = Some (get c r).
Proof. intros Ha. unfold Frame.series. by rewrite list_lookup_fmap, Ha. Qed.

Lemma elem_of_join_pairs_keys (w : list Weather.row) (t : list Traffic.row)
  a b :
  (a, b) ∈ join_pairs (weather_keys w) (traffic_keys t)
  ↔ ∃ rw rt, w !! a = Some rw ∧ t !! b = Some rt
             ∧ floor_H_cell (get Weather.date_time rw)
               = floor_H_cell (get Traffic.date_time rt)
             ∧ get Weather.city rw = get Traffic.city rt.
Proof.
  rewrite elem_of_join_pairs. unfold weather_keys, traffic_keys. split.
  - intros (k & Hw & Ht). rewrite list_lookup_fmap in Hw.
    rewrite list_lookup_fmap in Ht.
    destruct (w !! a) as [rw|]; [|done].
    destruct (t !! b) as [rt|]; [|done].
    simpl in Hw, Ht. injection Hw as <-. injection Ht as Hhour Hcity.
    exists rw, rt. by split_and!.
  - intros (rw & rt & Hw & Ht & Hhour & Hcity).
    exists [floor_H_cell (get Weather.date_time rw); get Weather.city rw].
    rewrite !list_lookup_fmap, Hw, Ht.
    cbn [fmap option_fmap option_map]. split; [done|].
    by rewrite Hhour, Hcity.
Qed.

(** X9: what a merged row is.  The rows of the merged frame are, once
    each, the pairs of a weather row and a traffic row with the same hour
    and the same city.  The row of a pair holds the [date_time], the
    city, the season, the six measurements, the weather condition and
    the visibility of the weather row, and the area, the three traffic
    measurements, the congestion level and the road condition of the
    traffic row; the timestamp, the city and the visibility of the
    traffic row and both identifiers are not in it.  This holds of every
    two cleaned files that [pd.merge] accepts. *)
Theorem merged_rows_pair_rows_of_equal_keys
  `{P : Parsers} `{!ParsersLaws P}
  (wz : bool) (w : list Weather.row) (tz : bool) (t : list Traffic.row) :
  weather_ready w → traffic_ready t → compatible wz w tz t →
  ∃ final_df pairs,
    main wz w tz t = Some final_df
    ∧ index final_df = length pairs
    ∧ NoDup pairs
    ∧ (∀ a b, (a, b) ∈ pairs
              ↔ ∃ rw rt, w !! a = Some rw ∧ t !! b = Some rt
                         ∧ floor_H_cell (get Weather.date_time rw)
                           = floor_H_cell (get Traffic.date_time rt)
                         ∧ get Weather.city rw = get Traffic.city rt)
    ∧ (∀ i a b rw rt,
         pairs !! i = Some (a, b) → w !! a = Some rw → t !! b = Some rt →
         (∀ c, c ∈ [Weather.date_time; Weather.city; Weather.season;
                    Weather.temperature_c; Weather.humidity;
                    Weather.rain_mm; Weather.wind_speed_kmh;
                    Weather.weather_condition; Weather.air_pressure_hpa;
                    Weather.visibility_m] →
               ∃ v, getitem (Weather.name c) final_df = Some v
                    ∧ v !! i = Some (get c rw))
         ∧ (∀ c, c ∈ [Traffic.area; Traffic.vehicle_count;
                      Traffic.avg_speed_kmh; Traffic.accident_count;
                      Traffic.congestion_level; Traffic.road_condition] →
                 ∃ v, getitem (Traffic.name c) final_df = Some v
                      ∧ v !! i = Some (get c rt)))
    ∧ ("weather_id"%string ∉ columns final_df)
    ∧ ("traffic_id"%string ∉ columns final_df).
Proof.
  intros Hw Ht Hcompatible.
  exists (Expected.final
            (length (join_pairs (weather_keys w) (traffic_keys t))) wz
            (λ c, take_rows (join_pairs (weather_keys w) (traffic_keys t)).*1
                    (Frame.series c w))
            (λ c, take_rows (join_pairs (weather_keys w) (traffic_keys t)).*2
                    (Frame.series c t))),
    (join_pairs (weather_keys w) (traffic_keys t)).
  split; [by apply main_loaded|]. split; [done|].
  split; [apply NoDup_join_from|].
  split; [apply elem_of_join_pairs_keys|].
  split; [|split; apply (bool_decide_unpack _); by vm_compute].
  intros i a b rw rt Hi Ha Hb.
  assert ((join_pairs (weather_keys w) (traffic_keys t)).*1 !! i = Some a)
    as Hi1 by (by rewrite list_lookup_fmap, Hi).
  assert ((join_pairs (weather_keys w) (traffic_keys t)).*2 !! i = Some b)
    as Hi2 by (by rewrite list_lookup_fmap, Hi).
  split; intros c Hc.
  - assert (take_rows (join_pairs (weather_keys w) (traffic_keys t)).*1
              (Frame.series c w) !! i = Some (get c rw)) as Hv.
    { eapply lookup_take_rows; [exact Hi1|]. by apply lookup_series. }
    repeat (apply elem_of_cons in Hc as [->|Hc];
            [eexists; split; [reflexivity|]; try exact Hv|]).
    + rewrite resize_all_alt; [exact Hv|].
      by rewrite length_take_rows, length_fmap.
    + by apply elem_of_nil in Hc.
  - assert (take_rows (join_pairs (weather_keys w) (traffic_keys t)).*2
              (Frame.series c t) !! i = Some (get c rt)) as Hv.
    { eapply lookup_take_rows; [exact Hi2|]. by apply lookup_series. }
    repeat (apply elem_of_cons in Hc as [->|Hc];
            [eexists; split; [reflexivity|exact Hv]|]).
    by apply elem_of_nil in Hc.
Qed.

(** The theorem on a weather row at 08:00 and two traffic rows of that
    hour. *)
Lemma merged_rows_pair_rows_of_equal_keys_witness :
  weather_ready [Samples.weather_eight]
  ∧ traffic_ready [Samples.traffic_fixed; Samples.traffic_later]
  ∧ ∃ final_df (pairs : list (nat * nat)),
      main (P:=Reader.parsers) false [Samples.weather_eight]
        false [Samples.traffic_fixed; Samples.traffic_later] = Some final_df
      ∧ index final_df = length pairs ∧ NoDup pairs.
Proof.
  refine (conj sample_weather_ready (conj sample_traffic_ready _)).
  destruct (merged_rows_pair_rows_of_equal_keys (P:=Reader.parsers)
              false [Samples.weather_eight]
              false [Samples.traffic_fixed; Samples.traffic_later]
              sample_weather_ready sample_traffic_ready
              (or_introl eq_refl))
    as (final_df & pairs & Hmain & Hrows & Hnd & _).
  exact (ex_intro _ final_df (ex_intro _ pairs (conj Hmain (conj Hrows Hnd)))).
Defined.

Lemma weather_ready_app w1 w2 :
  weather_ready w1 → weather_ready w2 → weather_ready (w1 ++ w2).
Proof. unfold weather_ready. intros. by apply Forall_app. Qed.

Lemma traffic_ready_app t1 t2 :
  traffic_ready t1 → traffic_ready t2 → traffic_ready (t1 ++ t2).
Proof. unfold traffic_ready. intros. by apply Forall_app. Qed.

(** X10: the number of merged rows is additive in both inputs.  For
    files whose [date_time] columns are of the same kind, the merge of
    two weather frames put end to end with two traffic frames put end to
    end has as many rows as the four merges of one weather frame with
    one traffic frame together: merging in batches neither loses nor
    adds a row. *)
Theorem merge_row_count_is_additive `{P : Parsers} `{!ParsersLaws P}
  (z : bool) (w1 w2 : list Weather.row) (t1 t2 : list Traffic.row) :
  weather_ready w1 → weather_ready w2 →
  traffic_ready t1 → traffic_ready t2 →
  ∃ f11 f12 f21 f22 f,
    main z w1 z t1 = Some f11 ∧ main z w1 z t2 = Some f12
    ∧ main z w2 z t1 = Some f21 ∧ main z w2 z t2 = Some f22
    ∧ main z (w1 ++ w2) z (t1 ++ t2) = Some f
    ∧ index f = (index f11 + index f12 + index f21 + index f22)%nat.
Proof.
  intros Hw1 Hw2 Ht1 Ht2.
  do 5 eexists.
  split; [by apply main_loaded; [..|left]|].
  split; [by apply main_loaded; [..|left]|].
  split; [by apply main_loaded; [..|left]|].
  split; [by apply main_loaded; [..|left]|].
  split; [apply main_loaded;
          [by apply weather_ready_app|by apply traffic_ready_app|by left]|].
  cbn [index Expected.final]. unfold weather_keys, traffic_keys.
  rewrite !fmap_app. apply length_join_pairs_app.
Qed.

(** The theorem on a weather row at 08:00 and one at midnight, and two
    traffic rows at 08:00 taken one by one. *)
Lemma merge_row_count_is_additive_witness :
  ∃ f11 f12 f21 f22 f,
    main (P:=Reader.parsers) false [Samples.weather_eight]
      false [Samples.traffic_fixed]
    = Some f11
    ∧ main (P:=Reader.parsers) false [Samples.weather_eight]
        false [Samples.traffic_later] = Some f12
    ∧ main (P:=Reader.parsers) false [Samples.weather_fixed]
        false [Samples.traffic_fixed] = Some f21
    ∧ main (P:=Reader.parsers) false [Samples.weather_fixed]
        false [Samples.traffic_later] = Some f22
    ∧ main (P:=Reader.parsers) false
        ([Samples.weather_eight] ++ [Samples.weather_fixed])
        false ([Samples.traffic_fixed] ++ [Samples.traffic_later]) = Some f
    ∧ index f = (index f11 + index f12 + index f21 + index f22)%nat.
Proof.
  exact (merge_row_count_is_additive (P:=Reader.parsers) false
           [Samples.weather_eight] [Samples.weather_fixed]
           [Samples.traffic_fixed] [Samples.traffic_later]
           sample_weather_ready sample_weather_midnight_ready
           ltac:(repeat constructor) ltac:(repeat constructor)).
Defined.

End merged_rows.

Section cleanup_steps.
Import Pandas DataFrame Merge.

(** X20: which cleanup steps of the merge do something.  On two cleaned
    files that [pd.merge] accepts the join has one [city] column, the
    key, and no [city_weather] or [city_traffic]: the step that resolves
    the city finds nothing to do.  The helper [hour] is dropped, the
    timestamp and the visibility of the traffic side are dropped in
    favour of those of the weather side, and after these steps no column
    name ends in [_weather] or [_traffic]: the loop over the other
    duplicates changes nothing.  The frame then has eighteen columns,
    the two identifiers among them, which the final selection leaves
    out. *)
Theorem merge_cleanup_steps `{P : Parsers} `{!ParsersLaws P}
  (wz : bool) (w : list Weather.row) (tz : bool) (t : list Traffic.row) :
  weather_ready w → traffic_ready t → compatible wz w tz t →
  ∃ merged m1 m2 m3,
    join (load_weather wz w) (load_traffic tz t) = Some merged
    ∧ ("city_weather"%string ∉ columns merged)
    ∧ ("city_traffic"%string ∉ columns merged)
    ∧ drop_hour merged = Some m1
    ∧ resolve_city m1 = Some m1
    ∧ resolve_date_time m1 = Some m2
    ∧ resolve_visibility m2 = Some m3
    ∧ resolve_others m3 = Some m3
    ∧ Forall (λ c, PyString.endswith "_weather" c = false
                   ∧ PyString.endswith "_traffic" c = false) (columns m3)
    ∧ columns m3
      = ["weather_id"; "date_time"; "city"; "season"; "temperature_c";
         "humidity"; "rain_mm"; "wind_speed_kmh"; "weather_condition";
         "air_pressure_hpa"; "traffic_id"; "area"; "vehicle_count";
         "avg_speed_kmh"; "accident_count"; "congestion_level";
         "road_condition"; "visibility_m"]%string.
Proof.
  intros Hw Ht Hc.
  pose (pairs := join_pairs (weather_keys w) (traffic_keys t)).
  pose (wd := λ c, take_rows pairs.*1 (Frame.series c w)).
  pose (td := λ c, take_rows pairs.*2 (Frame.series c t)).
  exists (Expected.merged (length pairs) wz tz wd
            (take_rows pairs.*1 (dt_floor_H (Frame.series Weather.date_time w)))
            td),
    (Cleanup.without_hour (length pairs) wz tz wd td),
    (Cleanup.one_date_time (length pairs) wz wd td),
    (Cleanup.one_visibility (length pairs) wz wd td).
  split; [exact (join_loaded_ready wz w tz t Hw Ht Hc)|].
  clearbody wd td. generalize (length pairs). intros n.
  generalize (take_rows pairs.*1
                (dt_floor_H (Frame.series Weather.date_time w))).
  intros hour. clear pairs Hw Ht Hc.
  split; [apply (bool_decide_unpack _); by vm_compute|].
  split; [apply (bool_decide_unpack _); by vm_compute|].
  split; [by destruct wz, tz|]. split; [reflexivity|].
  split; [by destruct wz, tz|].
  split; [by destruct wz|]. split; [reflexivity|].
  split; [|reflexivity]. repeat constructor.
Qed.

Lemma merge_cleanup_steps_witness :
  ∃ merged m1 m2 m3,
    join (P:=Reader.parsers) (load_weather false [Samples.weather_eight])
      (load_traffic false [Samples.traffic_fixed; Samples.traffic_later])
    = Some merged
    ∧ drop_hour merged = Some m1
    ∧ resolve_city m1 = Some m1
    ∧ resolve_date_time m1 = Some m2
    ∧ resolve_visibility m2 = Some m3
    ∧ resolve_others m3 = Some m3.
Proof.
  destruct (merge_cleanup_steps (P:=Reader.parsers)
              false [Samples.weather_eight]
              false [Samples.traffic_fixed; Samples.traffic_later]
              sample_weather_ready sample_traffic_ready (or_introl eq_refl))
    as (merged & m1 & m2 & m3 & H1 & _ & _ & H2 & H3 & H4 & H5 & H6 & _).
  exact (ex_intro _ merged
           (ex_intro _ m1
              (ex_intro _ m2
                 (ex_intro _ m3
                    (conj H1 (conj H2 (conj H3 (conj H4 (conj H5 H6))))))))).
Defined.

End cleanup_steps.

(** ** More about the generators *)

Section unit_floats.
Import Py Random.

(** A positive integer of at most 53 digits times a power of two is a
    float, as long as the exponent stays in range. *)
Lemma normalize_pos (p : positive) (e : Z) :
  Zpos (digits2_pos p) ≤ 53 →
  -1074 ≤ e + Zpos (digits2_pos p) - 53 ≤ 971 →
  ∃ mx, binary_normalize F.prec F.emax (Zpos p) e false
        = S754_finite false mx (e + Zpos (digits2_pos p) - 53)
        ∧ Zpos mx = Zpos p * 2 ^ (53 - Zpos (digits2_pos p))
        ∧ Zpos (digits2_pos mx) = 53.
Proof.
  intros Hd He. pose proof (digits2_pos_bounds p) as Hp.
  unfold binary_normalize, binary_round, shl_align, fexp, emin,
    F.prec, F.emax.
  replace (Z.max (Zpos (digits2_pos p) + e - 53) (3 - 1024 - 53) - e)
    with (Zpos (digits2_pos p) - 53) by lia.
  replace (Z.max (Zpos (digits2_pos p) + e - 53) (3 - 1024 - 53))
    with (e + Zpos (digits2_pos p) - 53) by lia.
  destruct (Zpos (digits2_pos p) - 53) as [|k|k] eqn:Hk; [|lia|].
  - assert (Zpos (digits2_pos p) = 53) as Hd' by lia.
    exists p. rewrite Hd'. split_and!; [|lia|done].
    replace (e + 53 - 53) with e by lia.
    apply (binary_round_aux_normal p e); [done|lia].
  - assert (Zpos k = 53 - Zpos (digits2_pos p)) as Hk' by lia.
    exists (Pos.iter xO p k).
    assert (Zpos (Pos.iter xO p k) = Zpos p * 2 ^ (53 - Zpos (digits2_pos p)))
      as Hm by (by rewrite pos_iter_xO, Hk').
    assert (Zpos (digits2_pos (Pos.iter xO p k)) = 53) as Hd'.
    { apply digits2_pos_unique. rewrite Hm.
      assert (2 ^ (53 - 1)
              = 2 ^ (Zpos (digits2_pos p) - 1)
                * 2 ^ (53 - Zpos (digits2_pos p))) as ->.
      { rewrite <- Z.pow_add_r by lia. f_equal. lia. }
      assert (2 ^ 53
              = 2 ^ Zpos (digits2_pos p) * 2 ^ (53 - Zpos (digits2_pos p)))
        as ->.
      { rewrite <- Z.pow_add_r by lia. f_equal. lia. }
      assert (0 < 2 ^ (53 - Zpos (digits2_pos p)))
        by (apply Z.pow_pos_nonneg; lia).
      split; [apply Z.mul_le_mono_nonneg_r; lia
             |apply Z.mul_lt_mono_pos_r; lia]. }
    split_and!; [|done|done].
    replace (e + Z.neg k) with (e + Zpos (digits2_pos p) - 53) by lia.
    apply binary_round_aux_normal; [done|lia].
Qed.

(** [random.random()] is 0 or a float with an exponent below that of 1. *)
Lemma unit_float_shape (k : N) :
  unit_float k = S754_zero false
  ∨ ∃ m e, unit_float k = S754_finite false m e ∧ e ≤ -53.
Proof.
  unfold unit_float.
  assert (0 ≤ Z.of_N k mod 2 ^ 53 < 2 ^ 53) as Hm
    by (apply Z.mod_pos_bound; lia).
  destruct (Z.of_N k mod 2 ^ 53) as [|p|p] eqn:Hp; [by left|right|lia].
  assert (Zpos (digits2_pos p) ≤ 53) as Hd.
  { pose proof (digits2_pos_bounds p) as Hb.
    destruct (Z.le_gt_cases (Zpos (digits2_pos p)) 53) as [|Hgt]; [done|].
    assert (2 ^ 53 ≤ 2 ^ (Zpos (digits2_pos p) - 1))
      by (apply Z.pow_le_mono_r; lia).
    lia. }
  assert (0 < Zpos (digits2_pos p)) by lia.
  destruct (normalize_pos p (-53) Hd ltac:(lia)) as (mx & Heq & _).
  exists mx, (-53 + Zpos (digits2_pos p) - 53). split; [done|lia].
Qed.

(** A float at least 1 is never below or equal to a draw of
    [random.random()]. *)
Lemma unit_float_below (m : positive) (e : Z) (k : N) :
  -52 ≤ e → F.leb (S754_finite false m e) (unit_float k) = false.
Proof.
  intros He. destruct (unit_float_shape k) as [->|(m' & e' & -> & He')];
    [done|].
  unfold F.leb, SFleb, SFcompare.
  destruct (Z.compare_spec e e'); [lia|lia|done].
Qed.

End unit_floats.

Section more_returns.
Import Py Random Run.

Lemma length_filter_last {A} (f : A → bool) (l : list A) d :
  l ≠ [] → f (List.last l d) = false →
  (length (List.filter f l) < length l)%nat.
Proof.
  induction l as [|x l IH]; [done|]. intros _ Hlast.
  destruct l as [|y l].
  - simpl in *. rewrite Hlast. simpl. lia.
  - assert (y :: l ≠ []) as Hne by (intros; discriminate).
    specialize (IH Hne Hlast).
    change (List.filter f (x :: y :: l))
      with (if f x then x :: List.filter f (y :: l)
            else List.filter f (y :: l)).
    destruct (f x); cbn [length] in *; lia.
Qed.

(** [np.random.choice(a, p=p)] returns one of the labels of [a]: the
    last cumulated probability is 1, which no draw reaches. *)
Lemma returns_np_choice {A} (d : A) (a : list A) (p : list spec_float) :
  match List.last (cdf p) (S754_zero false) with
  | S754_finite false _ e => -52 <=? e
  | _ => false
  end = true →
  Nat.eqb (length (cdf p)) (length a) = true →
  returns (np_choice d a p) (λ x, x ∈ a).
Proof.
  intros Hlast Hlen. apply Nat.eqb_eq in Hlen. unfold np_choice.
  eapply returns_gbind; [apply returns_np_draw|]. intros k _.
  apply returns_gret. apply list_elem_of_In, nth_In.
  rewrite <- Hlen. unfold searchsorted_right.
  apply (length_filter_last _ _ (S754_zero false)).
  - intros Hnil. by rewrite Hnil in Hlast.
  - destruct (List.last (cdf p) (S754_zero false)) as [| | |[] m e];
      try done.
    apply unit_float_below. lia.
Qed.

Lemma returns_choice {A} (x : A) (l : list A) :
  returns (choice (x :: l)) (λ y, y ∈ x :: l).
Proof.
  unfold choice. eapply returns_gbind.
  - apply returns_randbelow. simpl. lia.
  - intros k Hk. cbn beta in Hk. apply returns_gret.
    apply list_elem_of_In, nth_In. lia.
Qed.

Lemma returns_bind_succeeds {A B} (m : Gen A) (k : A → Gen B) R :
  succeeds m → (∀ a, returns (k a) R) → returns (gbind m k) R.
Proof. intros Hm Hk. eapply returns_gbind; [exact Hm|]. intros a _. apply Hk. Qed.

Lemma returns_bind_gret {A B} (a : A) (k : A → Gen B) R :
  returns (k a) R → returns (gbind (gret a) k) R.
Proof. intros Hk g. exact (Hk g). Qed.

Lemma returns_and {A} (m : Gen A) (Q R : A → Prop) :
  returns m Q → returns m R → returns m (λ a, Q a ∧ R a).
Proof.
  intros HQ HR g. destruct (HQ g) as (a & g' & Hrun & Ha).
  destruct (HR g) as (a' & g'' & Hrun' & Ha').
  rewrite Hrun in Hrun'. injection Hrun' as <- <-. by exists a, g'.
Qed.


End more_returns.

(** A step of a proof that a generator returns a value with a property. *)
Ltac returns_step :=
  lazymatch goal with
  | |- Run.returns (Py.gret _) _ => apply returns_gret
  | |- Run.returns (if ?b then _ else _) _ => destruct b
  | |- Run.returns (Py.gbind (Py.gret _) _) _ => apply returns_bind_gret
  | |- Run.returns (Py.gbind (Random.choice (_ :: _)) _) _ =>
      eapply returns_gbind; [apply returns_choice|intros ? ?]
  | |- Run.returns (Py.gbind (Random.randint _ _) _) _ =>
      eapply returns_gbind; [apply returns_randint; lia|intros ? ?]
  | |- Run.returns (Py.gbind (Random.np_choice _ _ _) _) _ =>
      eapply returns_gbind;
      [apply returns_np_choice; vm_compute; reflexivity|intros ? ?]
  | |- Run.returns (Py.gbind Random.random _) _ =>
      apply returns_bind_succeeds; [apply succeeds_random|intros ?]
  | |- Run.returns (Py.gbind (Random.issue _ _) _) _ =>
      apply returns_bind_succeeds; [apply succeeds_issue|intros ?]
  | |- Run.returns (Py.gbind (Random.uniform _ _) _) _ =>
      apply returns_bind_succeeds; [apply succeeds_uniform|intros ?]
  end.

(** Membership in a list that is written out. *)
Ltac in_list :=
  lazymatch goal with
  | |- ?x ∈ ?x :: _ => apply list_elem_of_here
  | |- _ ∈ _ :: _ => apply list_elem_of_further; in_list
  | |- _ ∈ _ <$> _ => cbn [fmap list_fmap]; in_list
  end.

Ltac from_list H :=
  repeat (apply elem_of_cons in H as [->|H]); [..|by apply elem_of_nil in H].

Section record_values.
Import Py Random Run Generator Generated.

Lemma weather_record_values (i : nat) :
  Z.of_nat i < max_records →
  returns (WeatherGenerator.record i) (weather_record i).
Proof.
  intros Hi. unfold WeatherGenerator.record, weather_record. cbv zeta.
  rewrite datetime_add_start by (done || lia). rewrite Z.add_0_r.
  cbn [of_option].
  set (d := start_date + 60 * Z.of_nat i).
  returns_step. generalize (F.ltb a (F.dec 3 1)). clear a.
  intros has_issues.
  returns_step. rename a into null_id. returns_step.
  (* date_time *)
  eapply (returns_gbind _ _
            (λ dt, dt ∈ VNone
                        :: (VStr <$> ["2099-13-40 25:61"; "Unknown";
                                      "Invalid Date";
                                      Datetime.day_first_12h d;
                                      Datetime.iso_zulu d;
                                      Datetime.slashes_seconds d;
                                      Datetime.standard d]%string))).
  { repeat returns_step; try (from_list H); in_list. }
  intros dt Hdt. cbn beta in Hdt.
  returns_step. rename a into null_city.
  returns_step. rename a into bad_season.
  (* season *)
  eapply (returns_gbind _ _
            (λ s, s ∈ VNone
                      :: (VStr <$> ["Monsoon"; "Fall"; "Rainy"; "Dry";
                                    seasons (Datetime.month d)]%string))).
  { repeat returns_step; try (from_list H); in_list. }
  intros season_value Hseason. cbn beta in Hseason.
  (* temperature_c *)
  apply returns_bind_succeeds; [repeat succeeds_step|intros base_temp].
  returns_step. rename a into outlier.
  eapply (returns_gbind _ _
            (λ v, v ∈ [VInt (-30); VInt 60; VInt 100; VNone] ∨ is_float v)).
  { repeat returns_step; try (from_list H);
      first [left; in_list|by right]. }
  intros temp Htemp. cbn beta in Htemp.
  (* humidity *)
  returns_step. clear outlier. rename a into outlier.
  eapply (returns_gbind _ _
            (λ v, v ∈ [VInt (-10); VInt 150; VInt 200; VNone]
                  ∨ (if WeatherGenerator.wet_season
                          (seasons (Datetime.month d))
                     then int_between 60 100 v else int_between 20 80 v))).
  { destruct (WeatherGenerator.wet_season (seasons (Datetime.month d)));
      repeat returns_step; try (from_list H);
      first [left; in_list|by right]. }
  intros hum Hhum. cbn beta in Hhum.
  (* rain_mm *)
  returns_step. clear outlier. rename a into outlier.
  eapply (returns_gbind _ _ (λ v, v = VNone ∨ is_float v)).
  { repeat returns_step; first [by left|by right]. }
  intros rain Hrain. cbn beta in Hrain.
  (* wind_speed_kmh *)
  returns_step. clear outlier. rename a into outlier.
  eapply (returns_gbind _ _ (λ v, v = VNone ∨ is_float v)).
  { repeat returns_step; first [by left|by right]. }
  intros wind Hwind. cbn beta in Hwind.
  (* visibility_m *)
  returns_step. clear outlier. rename a into outlier.
  eapply (returns_gbind _ _
            (λ v, v ∈ VInt 50000 :: VNone
                      :: (VStr <$> ["Low"; "Very Low"; "High";
                                    "Unknown"]%string)
                  ∨ int_between 50 10000 v)).
  { repeat returns_step; try (from_list H);
      first [left; in_list|by right]. }
  intros vis Hvis. cbn beta in Hvis.
  (* weather_condition *)
  returns_step. rename a into null.
  eapply (returns_gbind _ _
            (λ v, v ∈ VNone :: (VStr <$> WeatherGenerator.weather_conditions))).
  { unfold WeatherGenerator.weather_conditions.
    destruct (bool_decide (seasons (Datetime.month d) = "Winter"%string)),
      (bool_decide (seasons (Datetime.month d) = "Summer"%string));
      repeat returns_step; try (from_list H); in_list. }
  intros cond Hcond. cbn beta in Hcond.
  (* air_pressure_hpa *)
  returns_step. clear null. rename a into null.
  eapply (returns_gbind _ _ (λ v, v = VNone ∨ is_float v)).
  { repeat returns_step; first [by left|by right]. }
  intros pres Hpres. cbn beta in Hpres.
  returns_step.
  exists (if null_id then VNone else VInt (5000 + Z.of_nat i + 1)), dt,
    (if null_city then VNone else VStr "London"), season_value, temp, hum,
    rain, wind, vis, cond, pres.
  split_and!; try done.
  - destruct null_id; in_list.
  - destruct null_city; in_list.
Qed.

Lemma traffic_record_values (i : nat) :
  Z.of_nat i < max_records →
  returns (TrafficGenerator.record i) (traffic_record i).
Proof.
  intros Hi. unfold TrafficGenerator.record, traffic_record. cbv zeta.
  returns_step. generalize (F.ltb a (F.dec 3 1)). clear a.
  intros has_issues.
  returns_step. rename a into null_id.
  returns_step. rename a into minutes. rename H into Hminutes.
  rewrite datetime_add_start by (done || lia). cbn [of_option].
  set (d := start_date + 60 * Z.of_nat i + minutes).
  returns_step.
  (* date_time *)
  eapply (returns_gbind _ _
            (λ dt, dt ∈ VNone
                        :: (VStr <$> ["TBD"; "2099-00-00 99:99"; "Unknown";
                                      "N/A";
                                      Datetime.day_first_12h d;
                                      Datetime.iso_zulu d;
                                      Datetime.day_month_name d;
                                      Datetime.standard d]%string))).
  { repeat returns_step; try (from_list H); in_list. }
  intros dt Hdt. cbn beta in Hdt.
  returns_step. rename a into null_city.
  (* area *)
  returns_step. rename a into null.
  eapply (returns_gbind _ _
            (λ v, v ∈ VNone :: (VStr <$> TrafficGenerator.london_areas))).
  { unfold TrafficGenerator.london_areas.
    repeat returns_step; try (from_list H); in_list. }
  intros area Harea. cbn beta in Harea.
  (* vehicle_count *)
  eapply (returns_gbind _ _
            (λ v, if TrafficGenerator.rush_hour (Datetime.hour d)
                  then 1000 ≤ v ≤ 5000 else 100 ≤ v ≤ 2000)).
  { destruct (TrafficGenerator.rush_hour (Datetime.hour d));
      by apply returns_randint. }
  intros base_vehicles Hbase. cbn beta in Hbase.
  returns_step. rename a into outlier.
  eapply (returns_gbind _ _
            (λ v, v = VNone ∨ int_between 20000 50000 v
                  ∨ (if TrafficGenerator.rush_hour (Datetime.hour d)
                     then int_between 1000 5000 v
                     else int_between 100 2000 v))).
  { repeat returns_step; [by right; left|by left|].
    right; right. by destruct (TrafficGenerator.rush_hour (Datetime.hour d)). }
  intros count Hcount. cbn beta in Hcount.
  (* avg_speed_kmh *)
  apply returns_bind_succeeds; [repeat succeeds_step|intros base_speed].
  returns_step. clear outlier. rename a into outlier.
  eapply (returns_gbind _ _ (λ v, v = VNone ∨ is_float v)).
  { repeat returns_step; first [by left|by right]. }
  intros speed Hspeed. cbn beta in Hspeed.
  (* accident_count *)
  returns_step. clear outlier. rename a into outlier.
  eapply (returns_gbind _ _
            (λ v, v = VNone ∨ int_between 50 100 v
                  ∨ (if TrafficGenerator.rush_hour (Datetime.hour d)
                     then int_between 0 5 v else int_between 0 3 v))).
  { destruct (TrafficGenerator.rush_hour (Datetime.hour d));
      repeat returns_step;
      first [by left|by right; left
            |right; right; from_list H; simpl; lia]. }
  intros accidents Haccidents. cbn beta in Haccidents.
  (* congestion_level *)
  returns_step. clear null. rename a into null.
  eapply (returns_gbind _ _
            (λ v, v ∈ VNone
                      :: (VStr <$> ["Very High"; "Low-Medium"; "Heavy";
                                    "Light"; "Severe"; "High"; "Medium";
                                    "Low"]%string))).
  { repeat returns_step; try (from_list H); in_list. }
  intros congestion Hcongestion. cbn beta in Hcongestion.
  (* road_condition *)
  returns_step. clear null. rename a into null.
  eapply (returns_gbind _ _
            (λ v, v ∈ VNone :: (VStr <$> TrafficGenerator.road_conditions))).
  { unfold TrafficGenerator.road_conditions.
    repeat returns_step; try (from_list H); in_list. }
  intros road Hroad. cbn beta in Hroad.
  (* visibility_m *)
  returns_step. clear outlier. rename a into outlier.
  eapply (returns_gbind _ _
            (λ v, v ∈ [VInt 10; VInt 100000; VNone]
                  ∨ int_between 50 10000 v)).
  { repeat returns_step; try (from_list H);
      first [left; in_list|by right]. }
  intros vis Hvis. cbn beta in Hvis.
  returns_step.
  exists minutes. split; [done|].
  exists (if null_id then VNone else VInt (9000 + Z.of_nat i + 1)), dt,
    (if null_city then VNone else VStr "London"), area, count, speed,
    accidents, congestion, road, vis.
  split_and!; try done.
  - destruct null_id; in_list.
  - destruct null_city; in_list.
Qed.

End record_values.

Section sampling.
Import Py Random Run.

(** One step of [random.sample]: the pool without the chosen position. *)
Lemma pool_without (pool : list nat) (j : nat) :
  NoDup pool → (j < length pool)%nat →
  NoDup (take (length pool - 1)
           (<[j := nth (length pool - 1) pool O]> pool))
  ∧ length (take (length pool - 1)
              (<[j := nth (length pool - 1) pool O]> pool))
    = (length pool - 1)%nat
  ∧ ∀ x, x ∈ take (length pool - 1)
               (<[j := nth (length pool - 1) pool O]> pool) →
         x ∈ pool ∧ x ≠ nth j pool O.
Proof.
  intros Hnd Hj.
  destruct (lookup_lt_is_Some_2 pool j Hj) as [chosen Hchosen].
  destruct (lookup_lt_is_Some_2 pool (length pool - 1) ltac:(lia))
    as [last Hlast].
  rewrite (nth_lookup_Some _ _ _ _ Hchosen), (nth_lookup_Some _ _ _ _ Hlast).
  assert (∀ i x, take (length pool - 1) (<[j := last]> pool) !! i = Some x →
                 (i < length pool - 1)%nat
                 ∧ (i = j ∧ x = last ∨ i ≠ j ∧ pool !! i = Some x)) as Hlook.
  { intros i x [Hi Hlt]%lookup_take_Some. split; [done|].
    apply list_lookup_insert_Some in Hi as [(-> & -> & _)|[Hne Hi]];
      [by left|right]. split; [done|exact Hi]. }
  split_and!.
  - apply NoDup_alt. intros i i' x Hi Hi'.
    apply Hlook in Hi as [Hlt [[-> ->]|[Hne Hi]]];
      apply Hlook in Hi' as [Hlt' [[-> Hx]|[Hne' Hi']]]; try done.
    + pose proof (proj1 (NoDup_alt pool) Hnd _ _ _ Hlast Hi'). lia.
    + subst x. pose proof (proj1 (NoDup_alt pool) Hnd _ _ _ Hlast Hi). lia.
    + by apply (proj1 (NoDup_alt pool) Hnd _ _ _ Hi Hi').
  - rewrite length_take, length_insert. lia.
  - intros x [i Hi]%list_elem_of_lookup.
    apply Hlook in Hi as [Hlt [[-> ->]|[Hne Hi]]].
    + split; [by eapply list_elem_of_lookup_2|]. intros ->.
      pose proof (proj1 (NoDup_alt pool) Hnd _ _ _ Hlast Hchosen). lia.
    + split; [by eapply list_elem_of_lookup_2|]. intros ->.
      by pose proof (proj1 (NoDup_alt pool) Hnd _ _ _ Hi Hchosen).
Qed.

(** [random.sample] returns distinct positions of the pool. *)
Lemma returns_sample_from_distinct pool k :
  NoDup pool → (k ≤ length pool)%nat →
  returns (sample_from pool k)
    (λ l, length l = k ∧ NoDup l ∧ ∀ x, x ∈ l → x ∈ pool).
Proof.
  revert pool; induction k as [|k IH]; intros pool Hnd Hk;
    cbn [sample_from].
  - apply returns_gret. split_and!; [done|constructor|].
    by intros x ?%elem_of_nil.
  - eapply returns_gbind; [apply returns_randbelow; lia|].
    intros j Hj. cbn beta in Hj. cbv zeta.
    destruct (pool_without pool (Z.to_nat j) Hnd ltac:(lia))
      as (Hnd' & Hlen' & Hsub).
    eapply returns_gbind; [apply IH; [exact Hnd'|lia]|].
    intros rest (Hrest & Hndr & Hsubr). apply returns_gret.
    split_and!.
    + simpl. by rewrite Hrest.
    + constructor; [|done]. intros Hin.
      by destruct (Hsub _ (Hsubr _ Hin)).
    + intros x [->|Hx]%elem_of_cons.
      * apply list_elem_of_In, nth_In. lia.
      * by destruct (Hsub _ (Hsubr _ Hx)).
Qed.

(** [random.sample] does not raise, and the positions it returns are
    distinct positions below [n], in both of its branches. *)
Lemma returns_sample_range_distinct fuel n k :
  (k ≤ n)%nat →
  returns (sample_range fuel n k)
    (λ o, ∀ l, o = Some l →
               length l = k ∧ NoDup l ∧ ∀ x, x ∈ l → (x < n)%nat).
Proof.
  intros Hk. unfold sample_range.
  destruct (Nat.ltb_spec n k); [lia|].
  destruct (Z.leb_spec (Z.of_nat n) (setsize k)) as [Hpool|Hset].
  - eapply returns_gbind.
    { apply returns_sample_from_distinct; [apply NoDup_seq|].
      by rewrite length_seq. }
    intros l (Hlen & Hnd & Hsub). apply returns_gret.
    intros ? [= <-]. split_and!; [done|done|].
    intros x Hx. apply Hsub, elem_of_seq in Hx. lia.
  - pose proof (setsize_ge k).
    eapply returns_weaken; [apply returns_sample_set; lia|].
    intros o Ho l Hl. destruct (Ho l Hl) as (Hlen & Hnd & Hall).
    split_and!; [done|done|]. intros x Hx.
    rewrite Forall_forall in Hall. destruct (Hall x Hx). lia.
Qed.

Lemma reads_on_sample_from pool k : reads_on (sample_from pool k).
Proof.
  revert pool; induction k as [|k IH]; intros pool; cbn [sample_from].
  - apply reads_on_gret.
  - apply reads_on_gbind; [apply reads_on_randbelow|]. intros j. cbv zeta.
    apply reads_on_gbind; [apply IH|]. intros rest. apply reads_on_gret.
Qed.

Lemma reads_on_fresh_below fuel n selected :
  reads_on (fresh_below fuel n selected).
Proof.
  induction fuel as [|fuel IH]; cbn [fresh_below]; [apply reads_on_gret|].
  apply reads_on_gbind; [apply reads_on_randbelow|]. intros j. cbv zeta.
  case_bool_decide; [exact IH|apply reads_on_gret].
Qed.

Lemma reads_on_sample_set fuel n selected k :
  reads_on (sample_set fuel n selected k).
Proof.
  revert selected; induction k as [|k IH]; intros selected; cbn [sample_set].
  - apply reads_on_gret.
  - apply reads_on_gbind; [apply reads_on_fresh_below|].
    intros [j|]; [|apply reads_on_gret].
    apply reads_on_gbind; [apply IH|]. intros rest. apply reads_on_gret.
Qed.

Lemma reads_on_sample_range fuel n k : reads_on (sample_range fuel n k).
Proof.
  unfold sample_range. destruct (n <? k)%nat; [apply reads_on_raise|].
  destruct (Z.of_nat n <=? setsize k); [|apply reads_on_sample_set].
  apply reads_on_gbind; [apply reads_on_sample_from|].
  intros l. apply reads_on_gret.
Qed.

End sampling.

Section frame_structure.
Import Py Random Run Generator Generated.

Lemma returns_for_range_rows i n body (Q : nat → list value → Prop) :
  (∀ j, (i ≤ j < i + n)%nat → returns (body j) (Q j)) →
  returns (for_range i n body)
    (λ rows, length rows = n
             ∧ ∀ j row, rows !! j = Some row → Q (i + j)%nat row).
Proof.
  revert i; induction n as [|n IH]; intros i Hbody; cbn [for_range].
  - apply returns_gret. split; [done|]. intros j row Hj.
    by destruct j.
  - eapply returns_gbind; [apply Hbody; lia|]. intros row Hrow.
    eapply returns_gbind; [apply IH; intros j Hj; apply Hbody; lia|].
    intros rows [Hlen Hrows]. apply returns_gret. split.
    + simpl. by rewrite Hlen.
    + intros [|j] row' Hj; simpl in Hj.
      * injection Hj as <-. by rewrite Nat.add_0_r.
      * apply Hrows in Hj. by replace (i + S j)%nat with (S i + j)%nat by lia.
Qed.

Lemma returns_modify_duplicates_rows ids duplicates :
  duplicates = [] ∨ ids ≠ [] →
  returns (modify_duplicates ids duplicates)
    (λ rows, Forall2 (λ r d, d = r
                             ∨ ∃ id, id ∈ take 100 ids
                                     ∧ d = <[0%nat := id]> r)
               duplicates rows).
Proof.
  intros Hids. induction duplicates as [|row duplicates IH];
    cbn [modify_duplicates].
  - apply returns_gret. constructor.
  - destruct Hids as [?|Hids]; [done|].
    apply returns_bind_succeeds; [apply succeeds_random|]. intros r.
    eapply (returns_gbind _ _
              (λ d, d = row ∨ ∃ id, id ∈ take 100 ids
                                    ∧ d = <[0%nat := id]> row)).
    + destruct (F.ltb r (F.dec 5 1)); [|apply returns_gret; by left].
      destruct ids as [|id ids]; [done|].
      change (take 100 (id :: ids)) with (id :: take 99 ids).
      eapply returns_gbind; [apply returns_choice|].
      intros id' Hid'. apply returns_gret. right. by exists id'.
    + intros d Hd. eapply returns_gbind; [apply IH; by right|].
      intros rows Hrows. apply returns_gret. by constructor.
Qed.

Lemma iloc_rows (df : frame) positions :
  (∀ p, p ∈ positions → (p < length df)%nat) →
  Forall2 (λ p r, df !! p = Some r) positions (iloc df positions).
Proof.
  intros Hpos. unfold iloc. apply Forall2_fmap_r, Forall_Forall2_diag.
  apply Forall_forall. intros p Hp. cbn [compose].
  destruct (lookup_lt_is_Some_2 df p (Hpos p Hp)) as [r Hr].
  by rewrite (nth_lookup_Some _ _ _ _ Hr).
Qed.

Lemma iloc_seq (df : frame) : iloc df (seq 0 (length df)) = df.
Proof.
  unfold iloc. apply list_eq. intros i. rewrite list_lookup_fmap.
  destruct (decide (i < length df)%nat) as [Hi|Hi].
  - rewrite lookup_seq_lt by done. simpl.
    destruct (lookup_lt_is_Some_2 df i Hi) as [r Hr].
    by rewrite (nth_lookup_Some _ _ _ _ Hr), Hr.
  - rewrite lookup_seq_ge by lia. simpl. symmetry.
    apply lookup_ge_None_2. lia.
Qed.

Lemma iloc_Permutation (df : frame) positions :
  positions ≡ₚ seq 0 (length df) → iloc df positions ≡ₚ df.
Proof.
  intros Hperm. rewrite <- (iloc_seq df) at 2. unfold iloc.
  by apply fmap_Permutation.
Qed.

Lemma reads_on_modify_duplicates ids duplicates :
  reads_on (modify_duplicates ids duplicates).
Proof.
  induction duplicates as [|row duplicates IH]; cbn [modify_duplicates].
  - apply reads_on_gret.
  - apply reads_on_gbind; [apply reads_on_random|]. intros r.
    apply reads_on_gbind.
    + destruct (F.ltb r (F.dec 5 1)); [|apply reads_on_gret].
      apply reads_on_gbind; [apply reads_on_choice|].
      intros id. apply reads_on_gret.
    + intros row'. apply reads_on_gbind; [apply IH|].
      intros rows. apply reads_on_gret.
Qed.

Lemma reads_on_add_duplicates_and_shuffle `{S : Shuffle} fuel n df :
  reads_on (add_duplicates_and_shuffle fuel n df).
Proof.
  unfold add_duplicates_and_shuffle.
  apply reads_on_gbind; [apply reads_on_of_option|]. intros k.
  apply reads_on_gbind; [apply reads_on_sample_range|].
  intros [positions|]; [|apply reads_on_gret]. cbv zeta.
  apply reads_on_gbind; [apply reads_on_modify_duplicates|].
  intros duplicates. apply reads_on_gret.
Qed.

(** The outcome of a generator: it does not raise; the frame it returns
    holds the records of the loop and the duplicates of distinct
    records, in the order of the shuffle; and it ends for at most 21
    records and on a stream that covers the positions. *)
Lemma generate_structure `{S : Shuffle} `{!ShuffleLaws S}
  (record : nat → Gen (list value)) (Q : nat → list value → Prop)
  (fuel n : nat) (g : Globals) :
  Z.of_nat n ≤ max_records →
  (∀ i, Z.of_nat i < max_records → returns (record i) (Q i)) →
  (∀ i, reads_on (record i)) →
  ∃ base g1 o g2,
    for_range 0 n record g = Some (base, g1)
    ∧ gbind (for_range 0 n record) (add_duplicates_and_shuffle fuel n) g
      = Some (o, g2)
    ∧ length base = n
    ∧ (∀ j row, base !! j = Some row → Q j row)
    ∧ (∀ df, o = Some df →
             ∃ positions duplicates,
               NoDup positions
               ∧ Z.of_nat (length positions) = Z.of_nat n / 20
               ∧ Forall2 (duplicate_of base) positions duplicates
               ∧ df ≡ₚ base ++ duplicates)
    ∧ ((n ≤ 21)%nat ∨ covers fuel n g → is_Some o)
    ∧ tape (random_state g2) = tape (random_state g).
Proof.
  intros Hn Hrecord Hreads.
  destruct (num_duplicates_records n Hn) as [Hnum Hkn].
  destruct (returns_for_range_rows 0 n record Q) with (g := g)
    as (base & g1 & Hbase & Hlen & Hrows).
  { intros j Hj. apply Hrecord. unfold max_records in *. lia. }
  assert (0 ≤ Z.of_nat n / 20) as Hk by (apply Z.div_pos; lia).
  destruct (returns_sample_range_distinct fuel n
              (Z.to_nat (Z.of_nat n / 20)) Hkn g1)
    as (sampled & g2 & Hsampled & Hpositions).
  assert (gbind (for_range 0 n record) (add_duplicates_and_shuffle fuel n) g
          = add_duplicates_and_shuffle fuel n base g1) as Hgen
    by (unfold gbind at 1; by rewrite Hbase).
  assert (∀ o g3, add_duplicates_and_shuffle fuel n base g1 = Some (o, g3) →
                  tape (random_state g3) = tape (random_state g)) as Htape.
  { intros o g3 Hrun.
    rewrite (reads_on_add_duplicates_and_shuffle fuel n base _ _ _ Hrun).
    by eapply (reads_on_for_range 0 n record). }
  assert ((n ≤ 21)%nat ∨ covers fuel n g →
          ∃ df g3, add_duplicates_and_shuffle fuel n base g1
                   = Some (Some df, g3)) as Hends.
  { intros Hc. rewrite <- Hgen. apply generate_ends; try done.
    intros i Hi. eapply succeeds_returns. by apply Hrecord. }
  destruct sampled as [positions|].
  - destruct (Hpositions positions eq_refl) as (Hplen & Hpnd & Hplt).
    destruct (returns_modify_duplicates_rows (ids base) (iloc base positions))
      with (g := g2) as (duplicates & g3 & Hduplicates & Hdups).
    { destruct base as [|row base]; [|by right]. left.
      simpl in Hlen. subst n. by destruct positions. }
    assert (add_duplicates_and_shuffle fuel n base g1
            = Some (Some (iloc (base ++ duplicates)
                            (permutation 42 (length (base ++ duplicates)))),
                    g3)) as Hrun.
    { unfold add_duplicates_and_shuffle. rewrite Hnum.
      cbn [of_option]. unfold gbind at 1. cbn [gret]. rewrite Nat2Z.id.
      unfold gbind at 1. rewrite Hsampled. cbv zeta.
      unfold gbind at 1.
      change ((λ row, nth 0 row VNone) <$> base) with (ids base).
      by rewrite Hduplicates. }
    eexists base, g1, _, g3.
    split; [done|]. split; [by rewrite Hgen|].
    split; [done|]. split; [exact Hrows|]. split_and!.
    + intros df [= <-]. exists positions, duplicates.
      split; [done|]. split; [rewrite Hplen; lia|]. split.
      * pose proof (iloc_rows base positions) as Hiloc.
        rewrite Hlen in Hiloc. specialize (Hiloc Hplt).
        clear -Hiloc Hdups. revert duplicates Hdups.
        induction Hiloc as [|p r positions rows Hp _ IH];
          intros duplicates Hdups.
        -- apply Forall2_nil_inv_l in Hdups as ->. constructor.
        -- apply Forall2_cons_inv_l in Hdups
             as (d & duplicates' & Hd & Hds & ->).
           constructor; [|by apply IH]. by exists r.
      * apply iloc_Permutation, permutation_Permutation.
    + by intros _.
    + by eapply Htape.
  - assert (add_duplicates_and_shuffle fuel n base g1 = Some (None, g2))
      as Hrun.
    { unfold add_duplicates_and_shuffle. rewrite Hnum.
      cbn [of_option]. unfold gbind at 1. cbn [gret]. rewrite Nat2Z.id.
      unfold gbind at 1. by rewrite Hsampled. }
    exists base, g1, None, g2.
    split; [done|]. split; [by rewrite Hgen|].
    split; [done|]. split; [exact Hrows|]. split_and!.
    + by intros df.
    + intros Hc. destruct (Hends Hc) as (df & g3 & Hrun').
      rewrite Hrun in Hrun'. done.
    + by eapply Htape.
Qed.

End frame_structure.

Section generator_extras.
Import Py Random Run Generator Generated.

(** X11: what a generated frame is made of.  From every state of the
    streams and for every number of records N that [datetime] can hold,
    a generator does not raise, and the frame it returns holds the N
    records of its loop and ⌊N/20⌋ duplicates, in the order of the
    shuffle.  The duplicates are taken from distinct records, and each
    is a copy of its record, or a copy whose identifier was overwritten
    with the identifier of one of the first hundred records.  The run
    ends for N up to 21, and on every stream that covers the
    positions. *)
Theorem generated_frame_is_records_and_duplicates
  `{S : Shuffle} `{!ShuffleLaws S} (num_records fuel : nat) (g : Globals) :
  Z.of_nat num_records ≤ max_records →
  (∃ base g1 o g2,
     for_range 0 num_records WeatherGenerator.record g = Some (base, g1)
     ∧ WeatherGenerator.generate_weather_data fuel num_records g
       = Some (o, g2)
     ∧ length base = num_records
     ∧ (∀ df, o = Some df →
              ∃ positions duplicates,
                NoDup positions
                ∧ Z.of_nat (length positions) = Z.of_nat num_records / 20
                ∧ Forall2 (duplicate_of base) positions duplicates
                ∧ df ≡ₚ base ++ duplicates)
     ∧ ((num_records ≤ 21)%nat ∨ covers fuel num_records g → is_Some o))
  ∧ (∃ base g1 o g2,
       for_range 0 num_records TrafficGenerator.record g = Some (base, g1)
       ∧ TrafficGenerator.generate_traffic_data fuel num_records g
         = Some (o, g2)
       ∧ length base = num_records
       ∧ (∀ df, o = Some df →
                ∃ positions duplicates,
                  NoDup positions
                  ∧ Z.of_nat (length positions) = Z.of_nat num_records / 20
                  ∧ Forall2 (duplicate_of base) positions duplicates
                  ∧ df ≡ₚ base ++ duplicates)
       ∧ ((num_records ≤ 21)%nat ∨ covers fuel num_records g → is_Some o)).
Proof.
  intros Hn. split.
  - destruct (generate_structure WeatherGenerator.record (λ _ _, True)
                fuel num_records g Hn)
      as (base & g1 & o & g2 & H1 & H2 & H3 & _ & H4 & H5 & _).
    { intros i Hi. by apply weather_record_succeeds. }
    { apply weather_record_reads_on. }
    by exists base, g1, o, g2.
  - destruct (generate_structure TrafficGenerator.record (λ _ _, True)
                fuel num_records g Hn)
      as (base & g1 & o & g2 & H1 & H2 & H3 & _ & H4 & H5 & _).
    { intros i Hi. by apply traffic_record_succeeds. }
    { apply traffic_record_reads_on. }
    by exists base, g1, o, g2.
Qed.

(** The theorem for 40 records read from the stream that counts: the
    run ends. *)
Lemma generated_frame_is_records_and_duplicates_witness :
  ∃ base g1 df g2 (positions : list nat) duplicates,
    for_range 0 40 WeatherGenerator.record GeneratorSamples.counting
    = Some (base, g1)
    ∧ WeatherGenerator.generate_weather_data 40 40 GeneratorSamples.counting
      = Some (Some df, g2)
    ∧ length base = 40%nat
    ∧ NoDup positions
    ∧ Z.of_nat (length positions) = Z.of_nat 40 / 20
    ∧ Forall2 (duplicate_of base) positions duplicates
    ∧ df ≡ₚ base ++ duplicates.
Proof.
  destruct (proj1 (generated_frame_is_records_and_duplicates 40 40
                     GeneratorSamples.counting ltac:(by vm_compute)))
    as (base & g1 & o & g2 & H1 & H2 & H3 & H4 & H5).
  destruct (H5 (or_intror (counting_covers 40))) as [df ->].
  destruct (H4 df eq_refl) as (positions & duplicates & H6 & H7 & H8 & H9).
  exact (ex_intro _ base
           (ex_intro _ g1
              (ex_intro _ df
                 (ex_intro _ g2
                    (ex_intro _ positions
                       (ex_intro _ duplicates
                          (conj H1
                             (conj H2
                                (conj H3
                                   (conj H6 (conj H7 (conj H8 H9)))))))))))).
Defined.

(** The identifier of a weather record, or of a traffic record. *)
Lemma weather_record_id i row :
  weather_record i row →
  nth 0 row VNone ∈ [VNone; VInt (5000 + Z.of_nat i + 1)]
  ∧ <[0%nat := nth 0 row VNone]> row = row.
Proof.
  intros (id & dt & city & season & temp & hum & rain & wind & vis & cond
          & pres & -> & Hid & _). by split.
Qed.

Lemma traffic_record_id i row :
  traffic_record i row →
  nth 0 row VNone ∈ [VNone; VInt (9000 + Z.of_nat i + 1)]
  ∧ <[0%nat := nth 0 row VNone]> row = row.
Proof.
  intros (minutes & _ & id & dt & city & area & count & speed & accidents
          & congestion & road & vis & -> & Hid & _). by split.
Qed.

(** The rows of a generated frame, given what a record is and what its
    identifier can be. *)
Lemma generated_rows `{S : Shuffle} `{!ShuffleLaws S}
  (record : nat → Gen (list value)) (Q : nat → list value → Prop)
  (first_id : Z) (fuel n : nat) (g : Globals) :
  Z.of_nat n ≤ max_records →
  (∀ i, Z.of_nat i < max_records → returns (record i) (Q i)) →
  (∀ i, reads_on (record i)) →
  (∀ i row, Q i row →
            nth 0 row VNone ∈ [VNone; VInt (first_id + Z.of_nat i + 1)]
            ∧ <[0%nat := nth 0 row VNone]> row = row) →
  ∃ o g',
    gbind (for_range 0 n record) (add_duplicates_and_shuffle fuel n) g
    = Some (o, g')
    ∧ (∀ df, o = Some df →
         Forall (λ row, ∃ (i : nat) r id,
                   (i < n)%nat ∧ Q i r ∧ row = <[0%nat := id]> r
                   ∧ (id = VNone
                      ∨ ∃ k, id = VInt k
                             ∧ first_id + 1 ≤ k ≤ first_id + Z.of_nat n)) df)
    ∧ ((n ≤ 21)%nat ∨ covers fuel n g → is_Some o).
Proof.
  intros Hn Hrecord Hreads Hid.
  destruct (generate_structure record Q fuel n g Hn Hrecord Hreads)
    as (base & g1 & o & g2 & _ & Hrun & Hlen & Hrows & Hstructure & Hends & _).
  exists o, g2. split; [done|]. split; [|done]. intros df Hdf.
  destruct (Hstructure df Hdf) as (positions & duplicates & _ & _ & Hdups
                                   & Hperm).
  rewrite Hperm.
  assert (∀ j row, base !! j = Some row →
                   (j < n)%nat ∧ Q j row
                   ∧ (nth 0 row VNone = VNone
                      ∨ ∃ k, nth 0 row VNone = VInt k
                             ∧ first_id + 1 ≤ k ≤ first_id + Z.of_nat n))
    as Hbase.
  { intros j row Hj. pose proof (lookup_lt_Some _ _ _ Hj) as Hlt.
    rewrite Hlen in Hlt. pose proof (Hrows j row Hj) as HQ.
    split_and!; [done|done|].
    destruct (Hid j row HQ) as [Hin _].
    apply elem_of_cons in Hin as [->|Hin]; [by left|].
    apply elem_of_cons in Hin as [->|Hin]; [|by apply elem_of_nil in Hin].
    right. eexists. split; [done|lia]. }
  apply Forall_app. split.
  - apply Forall_forall. intros row [j Hj]%list_elem_of_lookup.
    destruct (Hbase j row Hj) as (Hlt & HQ & Hrange).
    exists j, row, (nth 0 row VNone). split_and!; try done.
    symmetry. by apply (Hid j row HQ).
  - apply Forall_forall. intros d [q Hq]%list_elem_of_lookup.
    destruct (Forall2_lookup_r _ _ _ _ _ Hdups Hq)
      as (p & Hp & r & Hr & Hd).
    destruct (Hbase p r Hr) as (Hlt & HQ & Hrange).
    destruct Hd as [->|(id & Hin & ->)].
    + exists p, r, (nth 0 r VNone). split_and!; try done.
      symmetry. by apply (Hid p r HQ).
    + exists p, r, id. split_and!; try done.
      apply elem_of_take in Hin as (j & Hj & _). unfold ids in Hj.
      rewrite list_lookup_fmap in Hj.
      apply fmap_Some in Hj as (row & Hrow & ->).
      by apply (Hbase j row Hrow).
Qed.

(** X12: the values of a generated weather frame.  The generator does
    not raise, and every row of the frame it returns is the record of
    one index below N as the loop writes it (its eleven values are those
    listed by [weather_record]: the identifier 5001 + index or none, the
    timestamp of hour index in one of four formats, one of three
    unreadable texts or none, ...), except that the identifier may have
    been overwritten in a duplicate; every identifier is none or lies
    between 5001 and 5000 + N.  The run ends for N up to 21 and on every
    stream that covers the positions. *)
Theorem generated_weather_values `{S : Shuffle} `{!ShuffleLaws S}
  (num_records fuel : nat) (g : Globals) :
  Z.of_nat num_records ≤ max_records →
  ∃ o g',
    WeatherGenerator.generate_weather_data fuel num_records g = Some (o, g')
    ∧ (∀ df, o = Some df →
         Forall (λ row, ∃ (i : nat) r id,
                   (i < num_records)%nat ∧ weather_record i r
                   ∧ row = <[0%nat := id]> r
                   ∧ (id = VNone
                      ∨ ∃ k, id = VInt k
                             ∧ 5000 + 1 ≤ k ≤ 5000 + Z.of_nat num_records))
           df)
    ∧ ((num_records ≤ 21)%nat ∨ covers fuel num_records g → is_Some o).
Proof.
  intros Hn.
  apply (generated_rows WeatherGenerator.record weather_record 5000
           fuel num_records g Hn).
  - apply weather_record_values.
  - apply weather_record_reads_on.
  - apply weather_record_id.
Qed.

Lemma generated_weather_values_witness :
  ∃ df g',
    WeatherGenerator.generate_weather_data 40 40 GeneratorSamples.counting
    = Some (Some df, g')
    ∧ Forall (λ row, ∃ (i : nat) r id,
                (i < 40)%nat ∧ weather_record i r
                ∧ row = <[0%nat := id]> r
                ∧ (id = VNone
                   ∨ ∃ k, id = VInt k
                          ∧ 5000 + 1 ≤ k ≤ 5000 + Z.of_nat 40)) df.
Proof.
  destruct (generated_weather_values 40 40 GeneratorSamples.counting
              ltac:(by vm_compute)) as (o & g' & Hrun & Hrows & Hends).
  destruct (Hends (or_intror (counting_covers 40))) as [df ->].
  exact (ex_intro _ df (ex_intro _ g' (conj Hrun (Hrows df eq_refl)))).
Defined.

(** X13: the values of a generated traffic frame.  The generator does
    not raise, and every row of the frame it returns is the record of
    one index below N as the loop writes it (its ten values are those
    listed by [traffic_record]), except that the identifier may have
    been overwritten in a duplicate; every identifier is none or lies
    between 9001 and 9000 + N.  The run ends for N up to 21 and on every
    stream that covers the positions. *)
Theorem generated_traffic_values `{S : Shuffle} `{!ShuffleLaws S}
  (num_records fuel : nat) (g : Globals) :
  Z.of_nat num_records ≤ max_records →
  ∃ o g',
    TrafficGenerator.generate_traffic_data fuel num_records g = Some (o, g')
    ∧ (∀ df, o = Some df →
         Forall (λ row, ∃ (i : nat) r id,
                   (i < num_records)%nat ∧ traffic_record i r
                   ∧ row = <[0%nat := id]> r
                   ∧ (id = VNone
                      ∨ ∃ k, id = VInt k
                             ∧ 9000 + 1 ≤ k ≤ 9000 + Z.of_nat num_records))
           df)
    ∧ ((num_records ≤ 21)%nat ∨ covers fuel num_records g → is_Some o).
Proof.
  intros Hn.
  apply (generated_rows TrafficGenerator.record traffic_record 9000
           fuel num_records g Hn).
  - apply traffic_record_values.
  - apply traffic_record_reads_on.
  - apply traffic_record_id.
Qed.

Lemma generated_traffic_values_witness :
  ∃ df g',
    TrafficGenerator.generate_traffic_data 40 40 GeneratorSamples.counting
    = Some (Some df, g')
    ∧ Forall (λ row, ∃ (i : nat) r id,
                (i < 40)%nat ∧ traffic_record i r
                ∧ row = <[0%nat := id]> r
                ∧ (id = VNone
                   ∨ ∃ k, id = VInt k
                          ∧ 9000 + 1 ≤ k ≤ 9000 + Z.of_nat 40)) df.
Proof.
  destruct (generated_traffic_values 40 40 GeneratorSamples.counting
              ltac:(by vm_compute)) as (o & g' & Hrun & Hrows & Hends).
  destruct (Hends (or_intror (counting_covers 40))) as [df ->].
  exact (ex_intro _ df (ex_intro _ g' (conj Hrun (Hrows df eq_refl)))).
Defined.

End generator_extras.

Section bind_facts.
Import Py Run.


End bind_facts.


Section records_without_issues.
Import Py Random Run Generator Generated.



End records_without_issues.

Section generate_all.
Import Py Random Run Generator GenerateAll.

Lemma summary_of_lengths (weather_df traffic_df : frame) :
  Z.of_nat (length weather_df) = 5250 →
  Z.of_nat (length traffic_df) = 5250 →
  summary weather_df traffic_df
  = ("Dataset Generation Summary" +:+ newline
     +:+ "==================================================" +:+ newline
     +:+ newline
     +:+ "Weather Dataset: 5250 records" +:+ newline
     +:+ "Traffic Dataset: 5250 records" +:+ newline
     +:+ newline
     +:+ "Files created:" +:+ newline
     +:+ "1. weather_data_raw.csv" +:+ newline
     +:+ "2. traffic_data_raw.csv" +:+ newline
     +:+ "3. dataset_summary.txt" +:+ newline)%string.
Proof.
  intros Hw Ht. unfold summary.
  replace (length weather_df) with (Z.to_nat 5250) by lia.
  replace (length traffic_df) with (Z.to_nat 5250) by lia.
  by vm_compute.
Qed.

(** X15: [generate_all_data] asks each generator for 5000 records, the
    traffic generator continuing on the streams as the weather generator
    left them.  From every state of the streams it does not raise; the
    two frames it returns have 5250 rows each, and the summary file it
    writes is the same text in every run.  It ends on every stream that
    covers the 5000 positions. *)
Theorem generate_all_data_returns_5250_rows_each
  `{S : Shuffle} `{!ShuffleLaws S} (fuel : nat) (g : Globals) :
  ∃ o g',
    generate_all_data fuel g = Some (o, g')
    ∧ (∀ weather_df traffic_df text,
         o = Some (weather_df, traffic_df, text) →
         Z.of_nat (length weather_df) = 5250
         ∧ Z.of_nat (length traffic_df) = 5250
         ∧ text
           = ("Dataset Generation Summary" +:+ newline
              +:+ "==================================================" +:+ newline
              +:+ newline
              +:+ "Weather Dataset: 5250 records" +:+ newline
              +:+ "Traffic Dataset: 5250 records" +:+ newline
              +:+ newline
              +:+ "Files created:" +:+ newline
              +:+ "1. weather_data_raw.csv" +:+ newline
              +:+ "2. traffic_data_raw.csv" +:+ newline
              +:+ "3. dataset_summary.txt" +:+ newline)%string)
    ∧ (covers fuel 5000 g → is_Some o).
Proof.
  assert (Z.of_nat 5000 ≤ max_records) as Hn by (by vm_compute).
  destruct (generate_structure WeatherGenerator.record (λ _ _, True)
              fuel 5000 g Hn)
    as (wbase & g0 & wo & g1 & _ & Hweather & _ & _ & _ & Hwends & Hwtape).
  { intros i Hi. by apply weather_record_succeeds. }
  { apply weather_record_reads_on. }
  destruct (returns_generate WeatherGenerator.record fuel 5000 Hn
              weather_record_succeeds g)
    as (wo' & g1' & Hweather' & Hwlen).
  rewrite Hweather in Hweather'. injection Hweather' as <- <-.
  change (WeatherGenerator.generate_weather_data fuel 5000 g
          = Some (wo, g1)) in Hweather.
  destruct (generate_structure TrafficGenerator.record (λ _ _, True)
              fuel 5000 g1 Hn)
    as (tbase & g0' & to & g2 & _ & Htraffic & _ & _ & _ & Htends & _).
  { intros i Hi. by apply traffic_record_succeeds. }
  { apply traffic_record_reads_on. }
  destruct (returns_generate TrafficGenerator.record fuel 5000 Hn
              traffic_record_succeeds g1)
    as (to' & g2' & Htraffic' & Htlen).
  rewrite Htraffic in Htraffic'. injection Htraffic' as <- <-.
  change (TrafficGenerator.generate_traffic_data fuel 5000 g1
          = Some (to, g2)) in Htraffic.
  change (Z.of_nat 5000 + Z.of_nat 5000 / 20) with 5250 in Hwlen, Htlen.
  unfold generate_all_data. unfold gbind at 1. rewrite Hweather.
  destruct wo as [weather_df|].
  - unfold gbind at 1. rewrite Htraffic.
    destruct to as [traffic_df|].
    + eexists _, _. split; [reflexivity|]. split.
      * intros ? ? ? [= <- <- <-].
        split_and!; [by apply Hwlen|by apply Htlen|].
        apply summary_of_lengths; [by apply Hwlen|by apply Htlen].
      * by intros _.
    + eexists _, _. split; [reflexivity|]. split; [done|].
      intros Hc. destruct Htends as [? Heq]; [|done].
      right. by eapply covers_tape.
  - eexists _, _. split; [reflexivity|]. split; [done|].
    intros Hc. destruct Hwends as [? Heq]; [by right|done].
Qed.

(** The theorem with the shuffle that lists the rows backwards, on the
    stream that counts: the run ends. *)
Lemma generate_all_data_returns_5250_rows_each_witness :
  ∃ weather_df traffic_df text g2,
    generate_all_data 5000 GeneratorSamples.counting
    = Some (Some (weather_df, traffic_df, text), g2)
    ∧ Z.of_nat (length weather_df) = 5250
    ∧ Z.of_nat (length traffic_df) = 5250.
Proof.
  destruct (generate_all_data_returns_5250_rows_each
              (S:=GeneratorSamples.backwards) 5000 GeneratorSamples.counting)
    as (o & g2 & Hall & Hrows & Hends).
  destruct (Hends (counting_covers 5000)) as [[[weather_df traffic_df] text] ->].
  destruct (Hrows weather_df traffic_df text eq_refl) as (Hw & Ht & _).
  exact (ex_intro _ weather_df
           (ex_intro _ traffic_df
              (ex_intro _ text
                 (ex_intro _ g2 (conj Hall (conj Hw Ht)))))).
Defined.

End generate_all.

(** ** The Monte Carlo simulation *)

Section float_order.
Import Py.

(** Comparing the other way round gives the opposite answer. *)
Lemma SFcompare_antisym (x y : spec_float) :
  SFcompare y x = CompOpp <$> SFcompare x y.
Proof.
  destruct x as [[]|[]| |[] mx ex], y as [[]|[]| |[] my ey]; try done;
    unfold SFcompare; simpl; f_equal;
    rewrite (Z.compare_antisym ex ey);
    destruct (ex ?= ey) eqn:Hc; try done; simpl;
    change (Pos.compare_cont Eq ?a ?b) with (Pos.compare a b);
    by rewrite (Pos.compare_antisym mx my).
Qed.

Lemma ltb_false_leb (x y : spec_float) :
  SFcompare x y ≠ None → F.ltb y x = false → F.leb x y = true.
Proof.
  unfold F.ltb, F.leb, SFltb, SFleb. rewrite (SFcompare_antisym x y).
  by destruct (SFcompare x y) as [[]|].
Qed.

Lemma ltb_leb (x y : spec_float) : F.ltb x y = true → F.leb x y = true.
Proof.
  unfold F.ltb, F.leb, SFltb, SFleb. by destruct (SFcompare x y) as [[]|].
Qed.

Lemma ltb_not_nan (x y : spec_float) :
  F.ltb x y = true → x ≠ S754_nan ∧ y ≠ S754_nan.
Proof. by destruct x as [[]|[]| |[] mx ex], y as [[]|[]| |[] my ey]. Qed.

Lemma compared (x y : spec_float) :
  x ≠ S754_nan → y ≠ S754_nan → SFcompare x y ≠ None.
Proof. by destruct x as [[]|[]| |[] mx ex], y as [[]|[]| |[] my ey]. Qed.

(** [max(lo, min(x, hi))] lies between [lo] and [hi], whatever [x] is,
    a NaN or an infinity included. *)
Lemma clamp_between (lo hi x : spec_float) :
  F.ltb lo hi = true → F.leb lo lo = true → F.leb hi hi = true →
  F.leb lo (MonteCarlo.max lo (MonteCarlo.min x hi)) = true
  ∧ F.leb (MonteCarlo.max lo (MonteCarlo.min x hi)) hi = true.
Proof.
  intros Hlohi Hlo Hhi. unfold MonteCarlo.max, MonteCarlo.min.
  destruct (F.ltb hi x) eqn:Hx.
  - rewrite Hlohi. split; [by apply ltb_leb|done].
  - destruct (F.ltb lo x) eqn:Hlox.
    + split; [by apply ltb_leb|].
      apply ltb_false_leb; [|done].
      apply compared; [by apply (ltb_not_nan lo x)|by apply (ltb_not_nan lo hi)].
    + split; [done|by apply ltb_leb].
Qed.

End float_order.

Section monte_carlo.
Import Py NumpyRandom MonteCarlo.
Context `{NS : NumpySampling}.

Lemma calculate_jam_bounds sample base_prob adjustment_factor st :
  jam_bounds
    (calculate_jam_from_sample sample base_prob adjustment_factor st).1.
Proof.
  unfold calculate_jam_from_sample. cbv zeta. rewrite run_bind.
  unfold ret. cbn [fst]. by apply clamp_between.
Qed.

Lemma calculate_accident_bounds sample base_prob adjustment_factor st :
  accident_bounds
    (calculate_accident_from_sample sample base_prob adjustment_factor st).1.
Proof.
  unfold calculate_accident_from_sample. cbv zeta. rewrite run_bind.
  unfold ret. cbn [fst]. by apply clamp_between.
Qed.

(** X16: the two probabilities of a trial are clamped.  Whatever the
    sampled row, the baseline, the adjustment factor and the noise are
    (a NaN or an infinity included), [calculate_jam_from_sample] returns
    a float between 0.01 and 0.95 and [calculate_accident_from_sample] a
    float between 0.001 and 0.5; neither returns a NaN. *)
Theorem trial_probabilities_are_clamped
  (sample : series) (base_prob adjustment_factor : spec_float)
  (st : RandomState) :
  F.leb (F.dec 1 2)
    (calculate_jam_from_sample sample base_prob adjustment_factor st).1
  = true
  ∧ F.leb (calculate_jam_from_sample sample base_prob adjustment_factor st).1
      (F.dec 95 2) = true
  ∧ F.leb (F.dec 1 3)
      (calculate_accident_from_sample sample base_prob adjustment_factor
         st).1 = true
  ∧ F.leb (calculate_accident_from_sample sample base_prob adjustment_factor
             st).1 (F.dec 5 1) = true
  ∧ (calculate_jam_from_sample sample base_prob adjustment_factor st).1
    ≠ S754_nan
  ∧ (calculate_accident_from_sample sample base_prob adjustment_factor st).1
    ≠ S754_nan.
Proof.
  destruct (calculate_jam_bounds sample base_prob adjustment_factor st)
    as [Hj1 Hj2].
  destruct (calculate_accident_bounds sample base_prob adjustment_factor st)
    as [Ha1 Ha2].
  split_and!; try done.
  - intros Hnan. by rewrite Hnan in Hj1.
  - intros Hnan. by rewrite Hnan in Ha1.
Qed.

End monte_carlo.

Section simulation.
Import Py NumpyRandom MonteCarlo.
Context `{NS : NumpySampling} `{NT : NumpyStatistics}.

Lemma trials_empty n base_jam base_accident adjustment_factor st :
  trials n [] base_jam base_accident adjustment_factor st = (([], []), st).
Proof. induction n as [|n IH]; [done|]. exact IH. Qed.

Lemma trials_rows n first rest base_jam base_accident adjustment_factor st :
  let probs :=
    (trials n (first :: rest) base_jam base_accident adjustment_factor st).1
  in
  length probs.1 = n ∧ length probs.2 = n
  ∧ Forall jam_bounds probs.1 ∧ Forall accident_bounds probs.2.
Proof.
  revert st; induction n as [|n IH]; intros st; cbn [trials].
  - unfold ret. cbn [fst snd length]. by split_and!.
  - rewrite !run_bind. unfold ret. cbn [fst snd length].
    match goal with
    | |- context [trials n (first :: rest) base_jam base_accident
                    adjustment_factor ?st'] =>
        destruct (IH st') as (Hl1 & Hl2 & Hj & Ha)
    end.
    split_and!; [by rewrite Hl1|by rewrite Hl2| |].
    + constructor; [apply calculate_jam_bounds|done].
    + constructor; [apply calculate_accident_bounds|done].
Qed.

(** X17: the trials of a scenario.  The loop of a scenario samples the
    rows that satisfy its condition, or the whole frame when fewer than
    ten do.  When the frame it samples is not empty it records exactly
    5000 traffic jam probabilities and 5000 accident probabilities, each
    within the bounds of its function; when it is empty it records
    none. *)
Theorem scenario_trials (simulation_data : list row)
  (base_jam base_accident adjustment_factor : spec_float)
  (st : RandomState) :
  let probs :=
    (trials n_simulations simulation_data base_jam base_accident
       adjustment_factor st).1 in
  length probs.1 = (if simulation_data is [] then 0 else 5000)%nat
  ∧ length probs.2 = (if simulation_data is [] then 0 else 5000)%nat
  ∧ Forall jam_bounds probs.1
  ∧ Forall accident_bounds probs.2.
Proof.
  destruct simulation_data as [|first rest].
  - rewrite trials_empty. cbn [fst snd length]. by split_and!.
  - apply trials_rows.
Qed.

(** X18: the simulation of an empty frame.  When the prepared frame has
    no row, the baselines are the defaults 0.15 and 0.05, no trial is
    run and no random number is drawn, and every one of the seven
    scenarios reports 0 actual records, the probabilities 0.15 × 1.5 and
    0.05 × 1.5 and the standard deviations 0.1 and 0.05. *)
Theorem simulation_of_an_empty_frame (st : RandomState) :
  simulation [] st
  = ((λ sc, Result (name sc) (description sc) 0
              (F.mul (F.dec 15 2) (F.dec 15 1)) (F.dec 1 1)
              (F.mul (F.dec 5 2) (F.dec 15 1)) (F.dec 5 2)) <$> scenarios,
     st)
  ∧ length (simulation [] st).1 = 7%nat.
Proof.
  assert (∀ sc st', simulate [] (F.dec 15 2) (F.dec 5 2) sc st'
                    = (Result (name sc) (description sc) 0
                         (F.mul (F.dec 15 2) (F.dec 15 1)) (F.dec 1 1)
                         (F.mul (F.dec 5 2) (F.dec 15 1)) (F.dec 5 2), st'))
    as Hsim.
  { intros sc st'. unfold simulate. cbn [List.filter length Nat.ltb Nat.leb].
    rewrite run_bind, trials_empty. reflexivity. }
  assert (simulation [] st
          = ((λ sc, Result (name sc) (description sc) 0
                      (F.mul (F.dec 15 2) (F.dec 15 1)) (F.dec 1 1)
                      (F.mul (F.dec 5 2) (F.dec 15 1)) (F.dec 5 2))
               <$> scenarios, st)) as Heq.
  { unfold simulation.
    change (base_jam_prob []) with (F.dec 15 2).
    change (base_accident_prob []) with (F.dec 5 2).
    generalize scenarios. intros l. revert st.
    induction l as [|sc l IH]; intros st; [done|].
    cbn [series_apply]. rewrite !run_bind, Hsim. unfold ret. cbn [fst snd].
    by rewrite IH. }
  split; [done|]. by rewrite Heq.
Qed.

End simulation.

Section scenario_conditions.
Import Py MonteCarlo.

(** Below a bound is not above a greater bound, for every float: an
    infinity or a NaN included. *)
Lemma le_then_not_gt (x : spec_float) (ma mb : positive) (ea eb : Z) :
  SFltb (S754_finite false ma ea) (S754_finite false mb eb) = true →
  F.leb x (S754_finite false ma ea) = true →
  F.ltb (S754_finite false mb eb) x = false.
Proof.
  unfold F.leb, F.ltb, SFltb, SFleb.
  destruct x as [[]|[]| |[] mx ex]; try done; simpl.
  destruct (Z.compare_spec ea eb), (Z.compare_spec ex ea),
    (Z.compare_spec eb ex); try done; try lia;
    change (Pos.compare_cont Eq ?a ?b) with (Pos.compare a b);
    repeat match goal with
           | |- context [Pos.compare ?a ?b] =>
               destruct (Pos.compare_spec a b)
           end; try done; try lia.
Qed.

Lemma gt_then_not_lt (x : spec_float) (ma mb : positive) (ea eb : Z) :
  SFltb (S754_finite false ma ea) (S754_finite false mb eb) = true →
  F.ltb (S754_finite false mb eb) x = true →
  F.ltb x (S754_finite false ma ea) = false.
Proof.
  intros Hab Hx. destruct (F.ltb x (S754_finite false ma ea)) eqn:Hlt; [|done].
  apply ltb_leb in Hlt.
  by rewrite (le_then_not_gt x ma mb ea eb Hab Hlt) in Hx.
Qed.

Lemma ge_positive_then_not_negative (x : spec_float) (m : positive) (e : Z) :
  F.leb (S754_finite false m e) x = true → F.ltb x (S754_zero false) = false.
Proof. by destruct x as [[]|[]| |[] mx ex]. Qed.

Lemma normal_conditions_exclude (r : row) :
  (ge (temperature_c r) 10 && le (temperature_c r) 25
   && lt (rain_mm r) 5 && le (humidity r) 70
   && lt (wind_speed_kmh r) 30 && gt (visibility_m r) 1000) = true →
  gt (rain_mm r) 20 = false ∧ lt (temperature_c r) 0 = false
  ∧ gt (temperature_c r) 30 = false ∧ gt (humidity r) 85 = false
  ∧ lt (visibility_m r) 500 = false ∧ gt (wind_speed_kmh r) 60 = false.
Proof.
  intros H.
  apply andb_prop in H as [H Hvisibility]. apply andb_prop in H as [H Hwind].
  apply andb_prop in H as [H Hhumidity]. apply andb_prop in H as [H Hrain].
  apply andb_prop in H as [Hcold Hhot].
  unfold gt, lt, ge, le in *. split_and!.
  - apply ltb_leb in Hrain. revert Hrain.
    by apply (le_then_not_gt (rain_mm r)).
  - revert Hcold. by apply (ge_positive_then_not_negative (temperature_c r)).
  - revert Hhot. by apply (le_then_not_gt (temperature_c r)).
  - revert Hhumidity. by apply (le_then_not_gt (humidity r)).
  - revert Hvisibility. by apply (gt_then_not_lt (visibility_m r)).
  - apply ltb_leb in Hwind. revert Hwind.
    by apply (le_then_not_gt (wind_speed_kmh r)).
Qed.

(** X22: the normal conditions exclude the adverse ones.  A row that
    satisfies the condition of the scenario [normal_conditions]
    satisfies the condition of none of the six other scenarios: the rows
    counted as normal are disjoint from the rows of heavy rain, extreme
    cold, extreme heat, high humidity, low visibility and strong
    winds. *)
Theorem normal_conditions_exclude_the_adverse_scenarios
  (r : row) (normal adverse : scenario) :
  normal ∈ scenarios → adverse ∈ scenarios →
  name normal = "normal_conditions"%string →
  name adverse ≠ "normal_conditions"%string →
  condition normal r = true → condition adverse r = false.
Proof.
  intros Hn Ha Hname Hadverse Hc. unfold scenarios in Hn, Ha.
  repeat (apply elem_of_cons in Hn as [->|Hn]); try done;
    [|by apply elem_of_nil in Hn].
  cbn [condition] in Hc.
  destruct (normal_conditions_exclude r Hc) as (? & ? & ? & ? & ? & ?).
  repeat (apply elem_of_cons in Ha as [->|Ha]); try done.
  by apply elem_of_nil in Ha.
Qed.

Lemma normal_conditions_exclude_the_adverse_scenarios_witness :
  ∃ normal adverse : scenario,
    name normal = "normal_conditions"%string
    ∧ name adverse = "heavy_rain"%string
    ∧ condition normal
        (Row (F.of_Z 15) (F.of_Z 0) (F.of_Z 50) (F.of_Z 10) (F.of_Z 5000)
           None (F.of_Z 0)) = true
    ∧ condition adverse
        (Row (F.of_Z 15) (F.of_Z 0) (F.of_Z 50) (F.of_Z 10) (F.of_Z 5000)
           None (F.of_Z 0)) = false.
Proof.
  exists (Scenario "normal_conditions" "Normal Conditions"
            (λ r, ge (temperature_c r) 10 && le (temperature_c r) 25
                  && lt (rain_mm r) 5 && le (humidity r) 70
                  && lt (wind_speed_kmh r) 30 && gt (visibility_m r) 1000)),
    (Scenario "heavy_rain" "Heavy Rain (> 20mm)" (λ r, gt (rain_mm r) 20)).
  split; [reflexivity|]. split; [reflexivity|].
  split; [vm_compute; reflexivity|].
  apply normal_conditions_exclude_the_adverse_scenarios
    with (normal := Scenario "normal_conditions" "Normal Conditions"
            (λ r, ge (temperature_c r) 10 && le (temperature_c r) 25
                  && lt (rain_mm r) 5 && le (humidity r) 70
                  && lt (wind_speed_kmh r) 30 && gt (visibility_m r) 1000)).
  - unfold scenarios. repeat constructor.
  - unfold scenarios. repeat constructor.
  - reflexivity.
  - discriminate.
  - vm_compute; reflexivity.
Defined.

End scenario_conditions.

(** ** The features of the factor analysis *)

Section feature_selection.
Import Pandas DataFrame FactorAnalysis.

Lemma find_column_Some df possible_cols col :
  find_column df possible_cols = Some col
  ↔ ∃ before after,
      possible_cols = before ++ col :: after
      ∧ col ∈ columns df
      ∧ Forall (λ c, c ∉ columns df) before.
Proof.
  unfold has_column. induction possible_cols as [|c l IH]; cbn [find_column].
  - split; [done|]. intros (before & after & Heq & _).
    by destruct before.
  - unfold has_column. case_bool_decide as Hc.
    + split.
      * intros [= ->]. exists [], l. by split_and!.
      * intros (before & after & Heq & Hin & Hbefore).
        destruct before as [|b before]; simplify_eq/=; [done|].
        by apply Forall_cons in Hbefore as [? _].
    + rewrite IH. split.
      * intros (before & after & -> & Hin & Hbefore).
        exists (c :: before), after. split_and!; [done|done|].
        by constructor.
      * intros (before & after & Heq & Hin & Hbefore).
        destruct before as [|b before]; simplify_eq/=; [done|].
        apply Forall_cons in Hbefore as [_ Hbefore].
        by exists before, after.
Qed.

Lemma find_column_None df possible_cols :
  find_column df possible_cols = None
  ↔ Forall (λ c, c ∉ columns df) possible_cols.
Proof.
  induction possible_cols as [|c l IH]; cbn [find_column]; [done|].
  unfold has_column. case_bool_decide as Hc.
  - split; [done|]. by intros [? _]%Forall_cons.
  - rewrite IH. split; [by constructor|by intros [_ ?]%Forall_cons].
Qed.

Lemma elem_of_select df mapping feature col :
  NoDup mapping.*1 →
  (feature, col) ∈ select df mapping
  ↔ ∃ possible_cols,
      (feature, possible_cols) ∈ mapping
      ∧ find_column df possible_cols = Some col.
Proof.
  induction mapping as [|[f l] mapping IH]; intros Hnd; cbn [select].
  - rewrite elem_of_nil. split; [done|]. intros (l & Hin & _).
    by apply elem_of_nil in Hin.
  - rewrite fmap_cons in Hnd. apply NoDup_cons in Hnd as [Hf Hnd].
    cbn [fst] in Hf.
    assert (∀ l', (feature, l') ∈ mapping → feature ≠ f) as Hother.
    { intros l' Hin ->. apply Hf. apply list_elem_of_fmap.
      by exists (f, l'). }
    destruct (find_column df l) as [c|] eqn:Hfind.
    + rewrite elem_of_cons, (IH Hnd). split.
      * intros [[= -> ->]|(l' & Hin & Hl')].
        -- exists l. split; [by left|done].
        -- exists l'. split; [by right|done].
      * intros (l' & [[= -> ->]|Hin]%elem_of_cons & Hl').
        -- left. congruence.
        -- right. by exists l'.
    + rewrite (IH Hnd). split.
      * intros (l' & Hin & Hl'). exists l'. split; [by right|done].
      * intros (l' & [[= -> ->]|Hin]%elem_of_cons & Hl'); [congruence|].
        by exists l'.
Qed.

(** X19: which columns the factor analysis reads.  A feature is
    selected when one of its candidate names is a column of the frame,
    and with the first such name of its list; the features come in the
    order of the mapping.  On a frame with the final schema of the merge
    the nine features are selected, each with the first name of its
    list: the timestamp, the city and the five categorical columns are
    not analysed. *)
Theorem selected_features_are_first_present_columns (df : frame) :
  (∀ feature col,
      (feature, col) ∈ selected_features df
      ↔ ∃ before after,
          (feature, before ++ col :: after) ∈ feature_mapping
          ∧ col ∈ columns df
          ∧ Forall (λ c, c ∉ columns df) before)
  ∧ (selected_features df).*1 `sublist_of` feature_mapping.*1
  ∧ (columns df = Merge.final_schema →
     selected_features df
     = [("temperature", "temperature_c"); ("humidity", "humidity");
        ("rain", "rain_mm"); ("wind_speed", "wind_speed_kmh");
        ("visibility", "visibility_m");
        ("air_pressure", "air_pressure_hpa");
        ("vehicle_count", "vehicle_count");
        ("average_speed", "avg_speed_kmh");
        ("accident_count", "accident_count")]%string).
Proof.
  split_and!.
  - intros feature col. unfold selected_features.
    rewrite elem_of_select by (apply (bool_decide_unpack _); by vm_compute).
    split.
    + intros (l & Hin & (before & after & -> & Hc & Hb)%find_column_Some).
      by exists before, after.
    + intros (before & after & Hin & Hc & Hb). eexists. split; [exact Hin|].
      apply find_column_Some. by exists before, after.
  - unfold selected_features. generalize feature_mapping. intros mapping.
    induction mapping as [|[f l] mapping IH]; [done|]. cbn [select].
    destruct (find_column df l); rewrite !fmap_cons; cbn [fst].
    + by apply sublist_skip.
    + by apply sublist_cons.
  - intros Hcols. unfold selected_features, feature_mapping.
    cbn [select find_column]. unfold has_column. rewrite Hcols.
    reflexivity.
Qed.

End feature_selection.

(** ** The generators and the key of the merge *)

Section hours.
Import Pandas Generator.

Lemma start_date_hours : start_date = 60 * 473352.
Proof. by vm_compute. Qed.

Lemma floor_H_minutes (hours minutes : Z) :
  0 ≤ minutes ≤ 59 →
  floor_H_cell (Time ((60 * hours + minutes) * 60000000000))
  = Time (hours * ns_per_hour).
Proof.
  intros Hm. unfold floor_H_cell, ns_per_hour. f_equal.
  replace ((60 * hours + minutes) * 60000000000)
    with (minutes * 60000000000 + hours * 3600000000000) by lia.
  rewrite Z.mod_add by lia. rewrite Z.mod_small by lia. lia.
Qed.

(** X21: the records of the two generators meet on the key of the
    merge.  The timestamp of the traffic record of index j falls,
    whatever its random minutes, in the hour of which the weather record
    of index j is the start.  Read as the minutes they were written for,
    the timestamps of weather record i and of traffic record j floor to
    the same hour exactly when i = j: with the city, the merge joins a
    weather record with the traffic records of the same index. *)
Theorem generated_records_share_the_hour_of_their_index
  (i j : nat) (minutes : Z) :
  0 ≤ minutes ≤ 59 →
  floor_H_cell (Time ((start_date + 60 * Z.of_nat j + minutes) * 60000000000))
  = floor_H_cell (Time ((start_date + 60 * Z.of_nat j) * 60000000000))
  ∧ (floor_H_cell (Time ((start_date + 60 * Z.of_nat i) * 60000000000))
     = floor_H_cell
         (Time ((start_date + 60 * Z.of_nat j + minutes) * 60000000000))
     ↔ i = j).
Proof.
  intros Hm. rewrite start_date_hours.
  replace (60 * 473352 + 60 * Z.of_nat j + minutes)
    with (60 * (473352 + Z.of_nat j) + minutes) by lia.
  replace (60 * 473352 + 60 * Z.of_nat j)
    with (60 * (473352 + Z.of_nat j) + 0) by lia.
  replace (60 * 473352 + 60 * Z.of_nat i)
    with (60 * (473352 + Z.of_nat i) + 0) by lia.
  rewrite !floor_H_minutes by lia. split; [done|].
  unfold ns_per_hour. split.
  - intros [= Heq]. lia.
  - by intros ->.
Qed.

Lemma generated_records_share_the_hour_of_their_index_witness :
  floor_H_cell (Time ((start_date + 60 * Z.of_nat 8 + 15) * 60000000000))
  = floor_H_cell (Time ((start_date + 60 * Z.of_nat 8) * 60000000000))
  ∧ (floor_H_cell (Time ((start_date + 60 * Z.of_nat 3) * 60000000000))
     = floor_H_cell
         (Time ((start_date + 60 * Z.of_nat 8 + 15) * 60000000000))
     ↔ 3%nat = 8%nat).
Proof.
  exact (generated_records_share_the_hour_of_their_index 3 8 15
           ltac:(lia)).
Defined.

End hours.
